(** * immich-onedrive-diff: a shallow embedding of [immich-onedrive-diff.py]

    The script lists the files of a OneDrive folder (with a JSON snapshot
    cache on disk), lists the assets of an Immich server, compares the two
    by file name and downloads what Immich misses.

    The embedding keeps the script's dynamically typed records: every value
    that comes out of [resp.json()] or [json.load] is a [json] value, and the
    Python operations the script applies to them ([.get], [[k]], [in],
    iteration, truthiness, [int], hashing) are total functions that return
    the exception Python raises.  Numbers are integers: the model has no
    floats. *)

From stdpp Require Import gmap strings list fin_maps pretty.
From Stdlib Require Import ZArith Ascii DecimalString DecimalZ DecimalFacts DecimalPos.

#[local] Set Warnings "-register-all,-clear-no-such-hyp".
#[local] Open Scope Z_scope.
#[local] Open Scope string_scope.
#[local] Open Scope list_scope.

(* ===================================================================== *)
(** ** JSON values *)
(* ===================================================================== *)

(** A Python [dict] with string keys is a [gmap string json]; a Python
    [list] is a [list json]. *)
Inductive json :=
| JNull
| JBool (b : bool)
| JInt (z : Z)
| JStr (s : string)
| JArr (l : list json)
| JObj (m : gmap string json).

(* ===================================================================== *)
(** ** Exceptions and outcomes *)
(* ===================================================================== *)

Inductive exn :=
| SystemExit (code : Z)
| TypeError
| ValueError
| AttributeError
| KeyError (key : string)
| JSONDecodeError (msg : string)
| OSError (msg : string)
| RequestException (msg : string).

(** [OutOfFuel] is the outcome of a loop that was cut by the fuel of the
    model; it is no Python exception and no handler catches it. *)
Inductive outcome (A : Type) :=
| Ok (a : A)
| Raise (e : exn)
| OutOfFuel.
Arguments Ok {A} a.
Arguments Raise {A} e.
Arguments OutOfFuel {A}.

#[export] Instance outcome_ret : MRet outcome := λ A a, Ok a.
#[export] Instance outcome_bind : MBind outcome := λ A B f x,
  match x with
  | Ok a => f a
  | Raise e => Raise e
  | OutOfFuel => OutOfFuel
  end.

(** [str(e)] for the exceptions that the script catches and prints in its
    warnings. *)
Definition exn_str (e : exn) : string :=
  match e with
  | JSONDecodeError msg | OSError msg | RequestException msg => msg
  | _ => ""
  end.

(* ===================================================================== *)
(** ** Python operations on JSON values *)
(* ===================================================================== *)

(** [bool(v)] *)
Definition py_truthy (v : json) : bool :=
  match v with
  | JNull => false
  | JBool b => b
  | JInt z => negb (Z.eqb z 0)
  | JStr s => negb (String.eqb s "")
  | JArr l => match l with [] => false | _ => true end
  | JObj m => negb (Nat.eqb (size m) 0)
  end.

(** [d.get(k, default)]: only a dict has [.get]. *)
Definition py_get (d : json) (k : string) (dflt : json) : outcome json :=
  match d with
  | JObj m => Ok (default dflt (m !! k))
  | _ => Raise AttributeError
  end.

(** [d[k]] for a string [k]. *)
Definition py_getitem (d : json) (k : string) : outcome json :=
  match d with
  | JObj m => match m !! k with Some v => Ok v | None => Raise (KeyError k) end
  | _ => Raise TypeError
  end.

(** [needle in s] for two strings: substring test. *)
Fixpoint str_contains (needle s : string) : bool :=
  String.prefix needle s ||
  match s with
  | EmptyString => false
  | String _ r => str_contains needle r
  end.

Definition is_JStr (k : string) (v : json) : bool :=
  match v with JStr s => String.eqb s k | _ => false end.

(** [k in c] for a string [k]: key of a dict, element of a list, substring of
    a string; a [TypeError] on [None], a bool or a number. *)
Definition py_contains (k : string) (c : json) : outcome bool :=
  match c with
  | JObj m => Ok (bool_decide (is_Some (m !! k)))
  | JArr l => Ok (existsb (is_JStr k) l)
  | JStr s => Ok (str_contains k s)
  | _ => Raise TypeError
  end.

Fixpoint chars (s : string) : list json :=
  match s with
  | EmptyString => []
  | String c r => JStr (String c EmptyString) :: chars r
  end.

(** [list(v)]: what [for x in v] and [items.extend(v)] walk through. The keys
    of a dict come in the order of the map. *)
Definition py_iter (v : json) : outcome (list json) :=
  match v with
  | JArr l => Ok l
  | JObj m => Ok (JStr <$> (map_to_list m).*1)
  | JStr s => Ok (chars s)
  | _ => Raise TypeError
  end.

(** *** [int(...)] *)

(** The ASCII characters that [int] strips: the space, the characters 9 to
    13 and the separators 28 to 31. *)
Definition is_space (c : ascii) : bool :=
  let n := nat_of_ascii c in
  (Nat.eqb n 32 || (Nat.leb 9 n && Nat.leb n 13)
   || (Nat.leb 28 n && Nat.leb n 31))%bool.

Definition digit_val (c : ascii) : option Z :=
  let n := nat_of_ascii c in
  if (Nat.leb 48 n && Nat.leb n 57)%bool then Some (Z.of_nat (n - 48)) else None.

Fixpoint lstrip (s : string) : string :=
  match s with
  | String c r => if is_space c then lstrip r else s
  | EmptyString => EmptyString
  end.

(** Digits with single underscores between them, then optional spaces.
    [acc] is the value read so far, [after_digit] says whether the previous
    character was a digit. *)
Fixpoint int_digits (s : string) (acc : Z) (after_digit : bool) : option Z :=
  match s with
  | EmptyString => if after_digit then Some acc else None
  | String c r =>
      match digit_val c with
      | Some d => int_digits r (10 * acc + d) true
      | None =>
          if after_digit then
            if Ascii.eqb c "_" then
              match r with
              | String c' _ =>
                  match digit_val c' with
                  | Some _ => int_digits r acc false
                  | None => None
                  end
              | EmptyString => None
              end
            else if String.eqb (lstrip s) "" then Some acc else None
          else None
      end
  end.

(** [int(s)] on a string of ASCII characters: spaces, an optional sign,
    decimal digits. *)
Definition int_of_str (s : string) : outcome Z :=
  let body (t : string) := int_digits t 0 false in
  let r :=
    match lstrip s with
    | String "-" t => Z.opp <$> body t
    | String "+" t => body t
    | t => body t
    end in
  match r with Some z => Ok z | None => Raise ValueError end.

Definition py_int (v : json) : outcome Z :=
  match v with
  | JInt z => Ok z
  | JBool b => Ok (if b then 1 else 0)
  | JStr s => int_of_str s
  | _ => Raise TypeError
  end.

(** *** Hashable values: the elements of the name sets *)

(** [True == 1] and [False == 0] in Python, so a bool is the key of its
    number. *)
Inductive pykey :=
| KNone
| KInt (z : Z)
| KStr (s : string).

#[export] Instance pykey_eq_dec : EqDecision pykey.
Proof. solve_decision. Defined.

#[export] Instance pykey_countable : Countable pykey.
Proof.
  refine (inj_countable'
    (λ k, match k with
          | KNone => inl ()
          | KInt z => inr (inl z)
          | KStr s => inr (inr s)
          end)
    (λ x, match x with
          | inl _ => KNone
          | inr (inl z) => KInt z
          | inr (inr s) => KStr s
          end) _).
  by intros [].
Defined.

(** [hash(v)]: lists and dicts are unhashable. *)
Definition py_hash (v : json) : outcome pykey :=
  match v with
  | JNull => Ok KNone
  | JBool b => Ok (KInt (if b then 1 else 0))
  | JInt z => Ok (KInt z)
  | JStr s => Ok (KStr s)
  | JArr _ | JObj _ => Raise TypeError
  end.

(** *** [s.split(sep)] for a one-character separator *)

Fixpoint split_on (sep : ascii) (s : string) : list string :=
  match s with
  | EmptyString => [EmptyString]
  | String c r =>
      if Ascii.eqb c sep then EmptyString :: split_on sep r
      else match split_on sep r with
           | h :: t => String c h :: t
           | [] => [String c EmptyString]
           end
  end.

(** [v.split("/")]: only a string has [.split]. *)
Definition py_split_slash (v : json) : outcome (list string) :=
  match v with
  | JStr s => Ok (split_on "/" s)
  | _ => Raise AttributeError
  end.

(* ===================================================================== *)
(** ** [get_immich_filenames] *)
(* ===================================================================== *)

(** The expression
    [a.get("originalFileName") or a.get("fileName")
       or a.get("originalPath", "").split("/")[-1]]. *)
Definition asset_name (a : json) : outcome json :=
  v1 ← py_get a "originalFileName" JNull;
  if py_truthy v1 then Ok v1 else
  v2 ← py_get a "fileName" JNull;
  if py_truthy v2 then Ok v2 else
  v3 ← py_get a "originalPath" (JStr "");
  parts ← py_split_slash v3;
  Ok (JStr (List.last parts "")).

(** The [for a in asset_list] loop, [names] being the set built so far. *)
Fixpoint immich_filenames_loop (asset_list : list json) (names : gset pykey)
  : outcome (gset pykey) :=
  match asset_list with
  | [] => Ok names
  | a :: rest =>
      name ← asset_name a;
      if py_truthy name then
        k ← py_hash name;
        immich_filenames_loop rest (names ∪ {[k]})
      else immich_filenames_loop rest names
  end.

Definition get_immich_filenames (asset_list : list json) : outcome (gset pykey) :=
  immich_filenames_loop asset_list ∅.

(* ===================================================================== *)
(** ** [list_missing_files] *)
(* ===================================================================== *)

(** [f["name"]] as a set element. *)
Definition name_key (f : json) : outcome pykey :=
  v ← py_getitem f "name"; py_hash v.

(** [set(f["name"] for f in onedrive_files)] *)
Fixpoint name_set (onedrive_files : list json) : outcome (gset pykey) :=
  match onedrive_files with
  | [] => Ok ∅
  | f :: rest =>
      k ← name_key f;
      s ← name_set rest;
      Ok ({[k]} ∪ s)
  end.

(** [[f for f in files if f["name"] in missing_names]] *)
Fixpoint keep_missing (missing_names : gset pykey) (files : list json)
  : outcome (list json) :=
  match files with
  | [] => Ok []
  | f :: rest =>
      k ← name_key f;
      kept ← keep_missing missing_names rest;
      Ok (if bool_decide (k ∈ missing_names) then f :: kept else kept)
  end.

Definition list_missing_files (onedrive_files : list json)
    (immich_filenames : gset pykey) : outcome (list json) :=
  onedrive_names ← name_set onedrive_files;
  let missing_names := onedrive_names ∖ immich_filenames in
  keep_missing missing_names onedrive_files.

(* ===================================================================== *)
(** ** The [json] library: [json.dump] and [json.load] *)
(* ===================================================================== *)

(** A model of Python's [json] module on the values above, with the
    library's default separators. Strings are byte strings: the quote, the
    backslash and the control characters are escaped, other bytes are
    written as they are. The fields of an object are written in the order of
    the map. The reader accepts the JSON grammar without fractions and
    exponents. *)
Module Json.

#[local] Open Scope char_scope.
#[local] Open Scope list_scope.

Abbreviation to_chars := String.list_ascii_of_string.
Abbreviation of_chars := String.string_of_list_ascii.

Definition quote : ascii := "034".
Definition backslash : ascii := "092".

Definition hex_digit (n : nat) : ascii :=
  nth n (to_chars "0123456789abcdef") "0".

Definition escape_char (c : ascii) : list ascii :=
  if Ascii.eqb c quote then [backslash; quote]
  else if Ascii.eqb c backslash then [backslash; backslash]
  else if Nat.ltb (nat_of_ascii c) 32 then
    [backslash; "u"; "0"; "0";
     hex_digit (nat_of_ascii c / 16); hex_digit (nat_of_ascii c mod 16)]
  else [c].

Definition dump_string (s : string) : list ascii :=
  quote :: flat_map escape_char (to_chars s) ++ [quote].

Definition dump_int (z : Z) : list ascii :=
  to_chars (NilEmpty.string_of_int (Z.to_int z)).

(** [", ".join(parts)] *)
Fixpoint join (parts : list (list ascii)) : list ascii :=
  match parts with
  | [] => []
  | [p] => p
  | p :: ps => p ++ "," :: " " :: join ps
  end.

Definition dump_member (kv : string * list ascii) : list ascii :=
  dump_string kv.1 ++ ":" :: " " :: kv.2.

Fixpoint dump (v : json) : list ascii :=
  match v with
  | JNull => to_chars "null"
  | JBool true => to_chars "true"
  | JBool false => to_chars "false"
  | JInt z => dump_int z
  | JStr s => dump_string s
  | JArr l => "[" :: join (map dump l) ++ ["]"]
  | JObj m =>
      "{" :: join (map dump_member
                     (map_fold (λ k x acc, (k, dump x) :: acc) [] m))
          ++ ["}"]
  end.

(** [json.dumps(v)] *)
Definition dumps (v : json) : string := of_chars (dump v).

(** *** Reading *)

Definition is_ws (c : ascii) : bool :=
  let n := nat_of_ascii c in
  (Nat.eqb n 32 || Nat.eqb n 9 || Nat.eqb n 10 || Nat.eqb n 13)%bool.

Fixpoint skip_ws (s : list ascii) : list ascii :=
  match s with
  | c :: r => if is_ws c then skip_ws r else s
  | [] => []
  end.

Definition is_digit (c : ascii) : bool :=
  (Nat.leb 48 (nat_of_ascii c) && Nat.leb (nat_of_ascii c) 57)%bool.

Fixpoint span_digits (s : list ascii) : list ascii * list ascii :=
  match s with
  | c :: r =>
      if is_digit c then let '(ds, rest) := span_digits r in (c :: ds, rest)
      else ([], s)
  | [] => ([], [])
  end.

(** A fraction or an exponent makes a float, which the model leaves out. *)
Definition starts_fraction (s : list ascii) : bool :=
  match s with
  | c :: _ => (Ascii.eqb c "." || Ascii.eqb c "e" || Ascii.eqb c "E")%bool
  | [] => false
  end.

(** The digits of a number whose sign has been read. A leading zero is
    allowed only for the number zero. *)
Definition parse_digits (neg : bool) (s : list ascii) : option (Z * list ascii) :=
  let '(ds, rest) := span_digits s in
  match ds with
  | [] => None
  | d :: ds' =>
      if (Ascii.eqb d "0" && negb (Nat.eqb (length ds') 0))%bool then None
      else if starts_fraction rest then None
      else
        match NilEmpty.uint_of_string (of_chars ds) with
        | Some u => Some (Z.of_int (if neg then Decimal.Neg u else Decimal.Pos u), rest)
        | None => None
        end
  end.

Definition parse_int (s : list ascii) : option (Z * list ascii) :=
  match s with
  | c :: r => if Ascii.eqb c "-" then parse_digits true r else parse_digits false s
  | [] => None
  end.

Definition hex_val (c : ascii) : option nat :=
  let n := nat_of_ascii c in
  if (Nat.leb 48 n && Nat.leb n 57)%bool then Some (n - 48)%nat
  else if (Nat.leb 97 n && Nat.leb n 102)%bool then Some (n - 87)%nat
  else if (Nat.leb 65 n && Nat.leb n 70)%bool then Some (n - 55)%nat
  else None.

Definition hex4 (a b c d : ascii) : option nat :=
  x ← hex_val a; y ← hex_val b; z ← hex_val c; w ← hex_val d;
  Some (((x * 16 + y) * 16 + z) * 16 + w)%nat.

(** The UTF-8 bytes of a code point below 65536. *)
Definition utf8 (n : nat) : list ascii :=
  if Nat.ltb n 128 then [ascii_of_nat n]
  else if Nat.ltb n 2048 then
    [ascii_of_nat (192 + n / 64); ascii_of_nat (128 + n mod 64)]
  else
    [ascii_of_nat (224 + n / 4096); ascii_of_nat (128 + (n / 64) mod 64);
     ascii_of_nat (128 + n mod 64)].

Definition simple_escape (c : ascii) : option ascii :=
  if Ascii.eqb c quote then Some quote
  else if Ascii.eqb c backslash then Some backslash
  else if Ascii.eqb c "/" then Some "/"
  else if Ascii.eqb c "b" then Some "008"
  else if Ascii.eqb c "f" then Some "012"
  else if Ascii.eqb c "n" then Some "010"
  else if Ascii.eqb c "r" then Some "013"
  else if Ascii.eqb c "t" then Some "009"
  else None.

(** The characters of a string literal after its opening quote. *)
Fixpoint parse_string_body (s : list ascii) : option (list ascii * list ascii) :=
  match s with
  | [] => None
  | c :: r =>
      if Ascii.eqb c quote then Some ([], r)
      else if Ascii.eqb c backslash then
        match r with
        | [] => None
        | e :: r1 =>
            if Ascii.eqb e "u" then
              match r1 with
              | h1 :: h2 :: h3 :: h4 :: r2 =>
                  match hex4 h1 h2 h3 h4 with
                  | Some n =>
                      match parse_string_body r2 with
                      | Some (str, rest) => Some (utf8 n ++ str, rest)
                      | None => None
                      end
                  | None => None
                  end
              | _ => None
              end
            else
              match simple_escape e with
              | Some ch =>
                  match parse_string_body r1 with
                  | Some (str, rest) => Some (ch :: str, rest)
                  | None => None
                  end
              | None => None
              end
        end
      else if Nat.ltb (nat_of_ascii c) 32 then None
      else
        match parse_string_body r with
        | Some (str, rest) => Some (c :: str, rest)
        | None => None
        end
  end.

Definition expect (c : ascii) (s : list ascii) : option (list ascii) :=
  match s with
  | x :: r => if Ascii.eqb x c then Some r else None
  | [] => None
  end.

Definition expect_word (w : string) (s : list ascii) : option (list ascii) :=
  let cs := to_chars w in
  if bool_decide (take (length cs) s = cs) then Some (drop (length cs) s) else None.

Fixpoint parse_value (fuel : nat) (s : list ascii) {struct fuel}
  : option (json * list ascii) :=
  match fuel with
  | O => None
  | S f =>
      match skip_ws s with
      | [] => None
      | c :: r =>
          if Ascii.eqb c "[" then
            match expect "]" (skip_ws r) with
            | Some r' => Some (JArr [], r')
            | None =>
                match parse_elems f r with
                | Some (l, r') => Some (JArr l, r')
                | None => None
                end
            end
          else if Ascii.eqb c "{" then
            match expect "}" (skip_ws r) with
            | Some r' => Some (JObj ∅, r')
            | None =>
                match parse_members f r ∅ with
                | Some (m, r') => Some (JObj m, r')
                | None => None
                end
            end
          else if Ascii.eqb c quote then
            match parse_string_body r with
            | Some (str, r') => Some (JStr (of_chars str), r')
            | None => None
            end
          else if Ascii.eqb c "n" then (λ r', (JNull, r')) <$> expect_word "ull" r
          else if Ascii.eqb c "t" then (λ r', (JBool true, r')) <$> expect_word "rue" r
          else if Ascii.eqb c "f" then (λ r', (JBool false, r')) <$> expect_word "alse" r
          else
            match parse_int (c :: r) with
            | Some (z, r') => Some (JInt z, r')
            | None => None
            end
      end
  end
with parse_elems (fuel : nat) (s : list ascii) {struct fuel}
  : option (list json * list ascii) :=
  match fuel with
  | O => None
  | S f =>
      match parse_value f s with
      | Some (v, r) =>
          match skip_ws r with
          | c :: r' =>
              if Ascii.eqb c "," then
                match parse_elems f r' with
                | Some (l, r'') => Some (v :: l, r'')
                | None => None
                end
              else if Ascii.eqb c "]" then Some ([v], r')
              else None
          | [] => None
          end
      | None => None
      end
  end
with parse_members (fuel : nat) (s : list ascii) (acc : gmap string json)
  {struct fuel} : option (gmap string json * list ascii) :=
  match fuel with
  | O => None
  | S f =>
      match expect quote (skip_ws s) with
      | Some r =>
          match parse_string_body r with
          | Some (k, r1) =>
              match expect ":" (skip_ws r1) with
              | Some r2 =>
                  match parse_value f r2 with
                  | Some (v, r3) =>
                      let acc' := <[of_chars k := v]> acc in
                      match skip_ws r3 with
                      | c :: r4 =>
                          if Ascii.eqb c "," then parse_members f r4 acc'
                          else if Ascii.eqb c "}" then Some (acc', r4)
                          else None
                      | [] => None
                      end
                  | None => None
                  end
              | None => None
              end
          | None => None
          end
      | None => None
      end
  end.

(** [json.loads(s)] *)
Definition loads (s : string) : outcome json :=
  let cs := to_chars s in
  match parse_value (S (length cs)) cs with
  | Some (v, rest) =>
      match skip_ws rest with
      | [] => Ok v
      | _ => Raise (JSONDecodeError "Extra data")
      end
  | None => Raise (JSONDecodeError "Expecting value")
  end.

(** *** Vocabulary of the round-trip proof *)

(** What may follow a value in a document. *)
Definition delim (rest : list ascii) : bool :=
  match rest with
  | [] => true
  | c :: _ => (Ascii.eqb c "," || Ascii.eqb c "]" || Ascii.eqb c "}")%bool
  end.

(** The first character of a value. *)
Definition value_start (c : ascii) : bool :=
  (is_digit c || Ascii.eqb c "-" || Ascii.eqb c "[" || Ascii.eqb c "{"
   || Ascii.eqb c quote || Ascii.eqb c "n" || Ascii.eqb c "t" || Ascii.eqb c "f")%bool.

Fixpoint json_size (v : json) : nat :=
  match v with
  | JArr l => S (foldr (λ x acc, json_size x + acc)%nat 0%nat l)
  | JObj m => S (map_fold (λ _ x acc, json_size x + acc)%nat 0%nat m)
  | _ => 1
  end.

Definition dump_field (kv : string * json) : string * list ascii := (kv.1, dump kv.2).

Definition add_field (acc : gmap string json) (kv : string * json) : gmap string json :=
  <[kv.1 := kv.2]> acc.

(** A value is read back from its text, whatever delimiter follows, with
    fuel for the length of the text. *)
Definition reads_back (v : json) : Prop :=
  ∀ f rest, (length (dump v) ≤ f)%nat → delim rest = true →
    parse_value f (dump v ++ rest) = Some (v, rest).

End Json.

(* ===================================================================== *)
(** ** The world: disk, console, network *)
(* ===================================================================== *)

Inductive node :=
| File (content : string)
| Dir.

(** The three requests of the script. The headers carry the credentials and
    are left out. [GraphContent file_id] stands for the GET of
    [GRAPH_API_BASE/me/drive/items/{file_id}/content]. *)
Inductive request :=
| GraphGet (url : string)
| ImmichSearch (size page : Z)
| GraphContent (file_id : json).

(** [rjson] is [resp.json()], [None] when the body is no JSON document;
    [chunks] is what [iter_content(chunk_size=8192)] yields. *)
Record response := {
  status_code : Z;
  text : string;
  rjson : option json;
  chunks : list string
}.

Record world := {
  fs : gmap string node;
  stdout : list string;
  requests : list request
}.

Definition set_fs (f : gmap string node) (w : world) : world :=
  {| fs := f; stdout := stdout w; requests := requests w |}.
Definition add_stdout (line : string) (w : world) : world :=
  {| fs := fs w; stdout := stdout w ++ [line]; requests := requests w |}.
Definition add_request (r : request) (w : world) : world :=
  {| fs := fs w; stdout := stdout w; requests := requests w ++ [r] |}.

(** How a write to a path goes wrong: not at all, at [open], or once [n]
    bytes are in the file. *)
Inductive wfault :=
| WriteOk
| WriteOpenFails (msg : string)
| WriteFailsAfter (n : nat) (msg : string).

(** A [tqdm] bar made with [total=...] and no iterable: its total, if known,
    and its counter. *)
Record tqdm := { total : option Z; n : Z }.

(** What the script does not control: the remote services, which answer a
    request knowing the requests made before it, the faults of the disk, and
    the truth value that the tqdm library gives a bar in [if overall_pbar]. *)
Record env := {
  remote : list request → request → response;
  read_fault : string → option string;
  write_fault : string → wfault;
  bar_bool : tqdm → outcome bool
}.

(** The constants of the CONFIGURATION block. *)
Record config := {
  GRAPH_API_BASE : string;
  ONEDRIVE_CAMERA_ROLL_PATH : string;
  USE_ONEDRIVE_CACHE : bool;
  ONEDRIVE_CACHE_FILE : string;
  IMMICH_PAGE_SIZE : Z;
  DOWNLOAD_FOLDER : string
}.

Definition default_config : config := {|
  GRAPH_API_BASE := "https://graph.microsoft.com/v1.0";
  ONEDRIVE_CAMERA_ROLL_PATH := "/me/drive/root:/Pictures/Camera Roll:/children";
  USE_ONEDRIVE_CACHE := true;
  ONEDRIVE_CACHE_FILE := "onedrive_camera_roll_cache.json";
  IMMICH_PAGE_SIZE := 500;
  DOWNLOAD_FOLDER := "immich_missing_files"
|}.

(** *** Programs: state passing with exceptions *)

Definition prog (S A : Type) : Type := S → outcome A * S.

#[export] Instance prog_ret {S} : MRet (prog S) := λ A a s, (Ok a, s).
#[export] Instance prog_bind {S} : MBind (prog S) := λ A B f m s,
  match m s with
  | (Ok a, s') => f a s'
  | (Raise e, s') => (Raise e, s')
  | (OutOfFuel, s') => (OutOfFuel, s')
  end.

Definition lift {S A} (o : outcome A) : prog S A := λ s, (o, s).

(** [try: body  except <catches> as e: handler e] *)
Definition try_except {S A} (body : prog S A) (catches : exn → bool)
    (handler : exn → prog S A) : prog S A := λ s,
  match body s with
  | (Raise e, s') => if catches e then handler e s' else (Raise e, s')
  | r => r
  end.

(** [requests.exceptions.RequestException] derives from [OSError]. *)
Definition is_OSError (e : exn) : bool :=
  match e with OSError _ | RequestException _ => true | _ => false end.

(** [json.JSONDecodeError] derives from [ValueError]. *)
Definition is_ValueError (e : exn) : bool :=
  match e with ValueError | JSONDecodeError _ => true | _ => false end.

Definition is_JSONDecodeError (e : exn) : bool :=
  match e with JSONDecodeError _ => true | _ => false end.

Definition is_TypeError (e : exn) : bool :=
  match e with TypeError => true | _ => false end.

Definition print (line : string) : prog world unit :=
  λ w, (Ok (), add_stdout line w).

(** [requests.get] / [requests.post]: the request is logged and answered. *)
Definition http (E : env) (req : request) : prog world response :=
  λ w, (Ok (remote E (requests w) req), add_request req w).

Definition resp_json (r : response) : outcome json :=
  match rjson r with
  | Some v => Ok v
  | None => Raise (JSONDecodeError "Expecting value")
  end.

Definition path_exists (p : string) (w : world) : bool :=
  bool_decide (is_Some (fs w !! p)).

(** [open(p, "r")] and reading the whole file. *)
Definition read_file (E : env) (p : string) : prog world string := λ w,
  match read_fault E p with
  | Some msg => (Raise (OSError msg), w)
  | None =>
      match fs w !! p with
      | Some (File c) => (Ok c, w)
      | Some Dir => (Raise (OSError "Is a directory"), w)
      | None => (Raise (OSError "No such file or directory"), w)
      end
  end.

(** [open(p, "w")]: the file is created or truncated. *)
Definition open_write (E : env) (p : string) : prog world unit := λ w,
  match write_fault E p with
  | WriteOpenFails msg => (Raise (OSError msg), w)
  | _ =>
      match fs w !! p with
      | Some Dir => (Raise (OSError "Is a directory"), w)
      | _ => (Ok (), set_fs (<[p := File ""]> (fs w)) w)
      end
  end.

(** [f.write(data)] on the file opened at [p]: the bytes go after those
    already written; with [WriteFailsAfter n] the file stops growing at [n]
    bytes and the write raises. *)
Definition write_chunk (E : env) (p : string) (data : string) : prog world unit := λ w,
  match fs w !! p with
  | Some (File c) =>
      let all := (Ok (), set_fs (<[p := File (c +:+ data)]> (fs w)) w) in
      match write_fault E p with
      | WriteFailsAfter n msg =>
          if Nat.leb (String.length c + String.length data) n then all
          else (Raise (OSError msg),
                set_fs (<[p := File (c +:+ String.substring 0 (n - String.length c) data)]>
                          (fs w)) w)
      | _ => all
      end
  | _ => (Raise (OSError "Bad file descriptor"), w)
  end.

(** [p.mkdir(parents=True, exist_ok=True)]; the parents are not tracked. *)
Definition mkdir (p : string) : prog world unit := λ w,
  match fs w !! p with
  | Some (File _) => (Raise (OSError "File exists"), w)
  | Some Dir => (Ok (), w)
  | None => (Ok (), set_fs (<[p := Dir]> (fs w)) w)
  end.

(** [folder / name]: [name] has to be a string; an absolute name replaces the
    folder. Paths are not normalised further. *)
Definition path_join (folder : string) (name : json) : outcome string :=
  match name with
  | JStr n =>
      Ok (if String.prefix "/" n then n
          else if String.eqb n "" then folder
          else folder +:+ "/" +:+ n)
  | _ => Raise TypeError
  end.

(** [[i for i in items if k in i]] *)
Fixpoint py_filter_contains (k : string) (items : list json) : outcome (list json) :=
  match items with
  | [] => Ok []
  | i :: rest =>
      b ← py_contains k i;
      kept ← py_filter_contains k rest;
      Ok (if (b : bool) then i :: kept else kept)
  end.

(* ===================================================================== *)
(** ** [get_onedrive_camera_roll_files] *)
(* ===================================================================== *)

Section OneDrive.
Context (cfg : config) (E : env).

(** The body of the [try]: read the cache, keep the entries with a
    ["file"] key. [items] is whatever document the file holds. *)
Definition load_cache : prog world (list json) :=
  print ("Loading OneDrive metadata from cache: " +:+ ONEDRIVE_CACHE_FILE cfg);;
  s ← read_file E (ONEDRIVE_CACHE_FILE cfg);
  items ← lift (Json.loads s);
  entries ← lift (py_iter items);
  lift (py_filter_contains "file" entries).

(** The [while url:] loop. One unit of fuel pays for one request. *)
Fixpoint fetch_pages (fuel : nat) (url : json) (items : list json)
  : prog world (list json) :=
  if negb (py_truthy url) then mret items else
  match fuel with
  | O => lift OutOfFuel
  | S fuel' =>
      u ← lift (match url with
                | JStr u => Ok u
                | _ => Raise (RequestException "Invalid URL")
                end);
      resp ← http E (GraphGet u);
      if negb (Z.eqb (status_code resp) 200) then
        print ("Error querying OneDrive: " +:+ pretty (status_code resp)
               +:+ " " +:+ text resp);;
        lift (Raise (SystemExit 1))
      else
        data ← lift (resp_json resp);
        value ← lift (py_get data "value" (JArr []));
        entries ← lift (py_iter value);
        url' ← lift (py_get data "@odata.nextLink" JNull);
        fetch_pages fuel' url' (items ++ entries)
  end.

(** The cache writeback, with its [except OSError]. *)
Definition save_cache (items : list json) : prog world unit :=
  try_except
    (print ("Saving OneDrive metadata cache to " +:+ ONEDRIVE_CACHE_FILE cfg);;
     open_write E (ONEDRIVE_CACHE_FILE cfg);;
     write_chunk E (ONEDRIVE_CACHE_FILE cfg) (Json.dumps (JArr items)))
    is_OSError
    (λ e, print ("Warning: could not write cache file (" +:+ exn_str e +:+ ")")).

Definition live_fetch (fuel : nat) : prog world (list json) :=
  print "Fetching OneDrive Camera Roll metadata from Graph API (this may take a while)...";;
  items ← fetch_pages fuel
            (JStr (GRAPH_API_BASE cfg +:+ ONEDRIVE_CAMERA_ROLL_PATH cfg)) [];
  (if USE_ONEDRIVE_CACHE cfg then save_cache items else mret ());;
  lift (py_filter_contains "file" items).

Definition get_onedrive_camera_roll_files (fuel : nat) (refresh : bool)
  : prog world (list json) := λ w,
  if (USE_ONEDRIVE_CACHE cfg && negb refresh
      && path_exists (ONEDRIVE_CACHE_FILE cfg) w)%bool
  then
    try_except load_cache
      (λ e, is_JSONDecodeError e || is_OSError e)
      (λ e, print ("Warning: failed to read cache (" +:+ exn_str e
                   +:+ "), refetching from OneDrive...");;
            live_fetch fuel) w
  else live_fetch fuel w.

End OneDrive.

(* ===================================================================== *)
(** ** [get_immich_assets] *)
(* ===================================================================== *)

Section Immich.
Context (cfg : config) (E : env).

(** [try: page = int(next_page)  except (TypeError, ValueError): page += 1] *)
Definition next_page_number (page : Z) (next_page : json) : outcome Z :=
  match py_int next_page with
  | Raise e => if (is_TypeError e || is_ValueError e)%bool then Ok (page + 1) else Raise e
  | r => r
  end.

(** The [while True:] loop. One unit of fuel pays for one request. *)
Fixpoint immich_pages (fuel : nat) (page : Z) (assets : list json)
  : prog world (list json) :=
  match fuel with
  | O => lift OutOfFuel
  | S fuel' =>
      resp ← http E (ImmichSearch (IMMICH_PAGE_SIZE cfg) page);
      if negb (Z.eqb (status_code resp) 200) then
        print ("Error querying Immich: " +:+ pretty (status_code resp)
               +:+ " " +:+ text resp);;
        lift (Raise (SystemExit 1))
      else
        data ← lift (resp_json resp);
        block ← lift (py_get data "assets" (JObj ∅));
        items ← lift (py_get block "items" (JArr []));
        if negb (py_truthy items) then mret assets else
        entries ← lift (py_iter items);
        next_page ← lift (py_get block "nextPage" JNull);
        if negb (py_truthy next_page) then mret (assets ++ entries) else
        page' ← lift (next_page_number page next_page);
        immich_pages fuel' page' (assets ++ entries)
  end.

Definition get_immich_assets (fuel : nat) : prog world (list json) :=
  immich_pages fuel 1 [].

End Immich.

(* ===================================================================== *)
(** ** [download_onedrive_file] *)
(* ===================================================================== *)

Definition tqdm_update (k : Z) (p : tqdm) : tqdm :=
  {| total := total p; n := n p + k |}.

(** [bool(bar)] as tqdm defines it: [total > 0] when the total is known, a
    [TypeError] when the bar has neither total nor iterable. *)
Definition tqdm_bool (p : tqdm) : outcome bool :=
  match total p with
  | Some t => Ok (Z.ltb 0 t)
  | None => Raise TypeError
  end.

(** The state of a download: the world and the aggregate bar, an object that
    [main] shares with every call; [None] is the default of the argument
    [overall_pbar]. *)
Record dl := { dl_world : world; overall_pbar : option tqdm }.

Definition in_world {A} (m : prog world A) : prog dl A := λ s,
  let '(r, w) := m (dl_world s) in
  (r, {| dl_world := w; overall_pbar := overall_pbar s |}).

(** [overall_pbar.update(k)] *)
Definition overall_update (k : Z) : prog dl unit := λ s,
  (Ok (), {| dl_world := dl_world s;
             overall_pbar := tqdm_update k <$> overall_pbar s |}).

(** [str(name)] in the f-string of the failure line; the path join before it
    has let only strings through. *)
Definition str_of (v : json) : string :=
  match v with JStr s => s | _ => "" end.

Section Download.
Context (E : env).

(** The truth value of the argument [overall_pbar]. *)
Definition overall_truthy : prog dl bool := λ s,
  (match overall_pbar s with
   | None => Ok false
   | Some p => bar_bool E p
   end, s).

(** [if overall_pbar and size > 0: overall_pbar.update(size)] *)
Definition bump_overall (size : Z) : prog dl unit :=
  b ← overall_truthy;
  if ((b : bool) && Z.ltb 0 size)%bool then overall_update size else mret ().

(** [int(item.get("size", 0) or 0)] *)
Definition declared_size (item : json) : outcome Z :=
  sz ← py_get item "size" (JInt 0);
  py_int (if py_truthy sz then sz else JInt 0).

(** The [for chunk in r.iter_content(...)] loop; [file_pbar] is the bar of
    this file. *)
Fixpoint write_chunks (dest_path : string) (cs : list string) (file_pbar : tqdm)
  : prog dl unit :=
  match cs with
  | [] => mret ()
  | chunk :: rest =>
      if String.eqb chunk "" then write_chunks dest_path rest file_pbar else
      in_world (write_chunk E dest_path chunk);;
      let chunk_len := Z.of_nat (String.length chunk) in
      let file_pbar' := tqdm_update chunk_len file_pbar in
      b ← overall_truthy;
      (if (b : bool) then overall_update chunk_len else mret ());;
      write_chunks dest_path rest file_pbar'
  end.

(** The [with requests.get(...) as r:] block, reached when nothing exists at
    [dest_path]. *)
Definition download_content (file_id name : json) (size : Z) (dest_path : string)
  : prog dl unit :=
  r ← in_world (http E (GraphContent file_id));
  if negb (Z.eqb (status_code r) 200 || Z.eqb (status_code r) 302) then
    in_world (print ("Failed to download " +:+ str_of name +:+ ": "
                     +:+ pretty (status_code r) +:+ " " +:+ text r));;
    bump_overall size
  else
    let total := if Z.ltb 0 size then Some size else None in
    in_world (open_write E dest_path);;
    write_chunks dest_path (chunks r) {| total := total; n := 0 |}.

Definition download_onedrive_file (item : json) (dest_folder : string)
  : prog dl unit :=
  file_id ← lift (py_getitem item "id");
  name ← lift (py_getitem item "name");
  size ← lift (declared_size item);
  in_world (mkdir dest_folder);;
  dest_path ← lift (path_join dest_folder name);
  present ← in_world (λ w, (Ok (path_exists dest_path w), w));
  if (present : bool) then bump_overall size
  else download_content file_id name size dest_path.

(** [for item in missing_files: download_onedrive_file(item, DOWNLOAD_FOLDER,
    overall_pbar)] *)
Fixpoint download_all (missing_files : list json) (dest_folder : string)
  : prog dl unit :=
  match missing_files with
  | [] => mret ()
  | item :: rest =>
      download_onedrive_file item dest_folder;;
      download_all rest dest_folder
  end.

(** The sum that [main] computes for the total of the aggregate bar; a size
    that [int] rejects is passed over. *)
Fixpoint total_size (missing_files : list json) (acc : Z) : outcome Z :=
  match missing_files with
  | [] => Ok acc
  | f :: rest =>
      match declared_size f with
      | Ok z => total_size rest (acc + z)
      | Raise e =>
          if (is_TypeError e || is_ValueError e)%bool then total_size rest acc
          else Raise e
      | OutOfFuel => OutOfFuel
      end
  end.

(** The download part of [main]: the aggregate bar is made with the sum of
    the sizes when it is positive and with no total otherwise. *)
Definition download_missing (cfg : config) (missing_files : list json)
  : prog world unit := λ w,
  match total_size missing_files 0 with
  | Ok t =>
      let bar := {| total := if Z.ltb 0 t then Some t else None; n := 0 |} in
      let '(r, s) := download_all missing_files (DOWNLOAD_FOLDER cfg)
                       {| dl_world := w; overall_pbar := Some bar |} in
      (r, dl_world s)
  | Raise e => (Raise e, w)
  | OutOfFuel => (OutOfFuel, w)
  end.

End Download.

(* ===================================================================== *)
(** ** [main] *)
(* ===================================================================== *)

(** What a run takes from its invoker: the two credentials, read from the
    environment when the module is loaded, [sys.argv], the working directory
    that [resolve()] puts before a relative folder, and the line typed at the
    prompt. *)
Record session := {
  ONEDRIVE_ACCESS_TOKEN : string;
  IMMICH_API_KEY : string;
  argv : list string;
  cwd : string;
  stdin_line : string
}.

(** The string without the spaces at its end. *)
Fixpoint rstrip (s : string) : string :=
  match s with
  | EmptyString => EmptyString
  | String c r =>
      match rstrip r with
      | EmptyString => if is_space c then EmptyString else String c EmptyString
      | r' => String c r'
      end
  end.

(** [s.strip()] and [s.lower()] on ASCII characters. *)
Definition py_strip (s : string) : string := rstrip (lstrip s).

Definition lower_char (c : ascii) : ascii :=
  let k := nat_of_ascii c in
  if (Nat.leb 65 k && Nat.leb k 90)%bool then ascii_of_nat (k + 32) else c.

Fixpoint py_lower (s : string) : string :=
  match s with
  | EmptyString => EmptyString
  | String c r => String (lower_char c) (py_lower r)
  end.

(** [str(v)] for a value that has been a set element: a list or a dict has
    no hash and is no name that [list_missing_files] lets through. *)
Definition py_str (v : json) : string :=
  match v with
  | JNull => "None"
  | JBool b => if b then "True" else "False"
  | JInt z => pretty z
  | JStr s => s
  | JArr _ | JObj _ => ""
  end.

(** The line feed of the string literals. *)
Definition nl : string := String "010"%char "".

(** [input(prompt)]: the prompt goes to the console and the line comes
    back. A console that is closed, which raises [EOFError], is left
    out. *)
Definition input (ses : session) (prompt : string) : prog world string :=
  λ w, (Ok (stdin_line ses), add_stdout prompt w).

(** [DOWNLOAD_FOLDER.resolve()], short of links and dots. *)
Definition resolve (ses : session) (p : string) : string :=
  if String.prefix "/" p then p else cwd ses +:+ "/" +:+ p.

(** [for f in missing_files: print(" -", f["name"])] *)
Fixpoint print_names (missing_files : list json) : prog world unit :=
  match missing_files with
  | [] => mret ()
  | f :: rest =>
      name ← lift (py_getitem f "name");
      print (" - " +:+ py_str name);;
      print_names rest
  end.

(** The [with tqdm(total=...) as overall_pbar:] block around the loop. *)
Definition with_overall_pbar {A} (t : Z) (body : prog dl A) : prog world A := λ w,
  let bar := {| total := if Z.ltb 0 t then Some t else None; n := 0 |} in
  let '(r, s) := body {| dl_world := w; overall_pbar := Some bar |} in
  (r, dl_world s).

Section Main.
Context (cfg : config) (E : env) (ses : session).

(** What follows the prompt. *)
Definition confirm_and_download (missing_files : list json) : prog world unit :=
  line ← input ses (nl +:+ "Do you want to download these missing files to "
                    +:+ resolve ses (DOWNLOAD_FOLDER cfg) +:+ "? [y/N]: ");
  let answer := py_lower (py_strip line) in
  if negb (String.eqb answer "y") then
    print "Okay, not downloading anything."
  else
    t ← lift (total_size missing_files 0);
    print (nl +:+ "Starting downloads..." +:+ nl);;
    with_overall_pbar t (download_all E missing_files (DOWNLOAD_FOLDER cfg));;
    print (nl +:+ "✅ All downloads complete.").

(** One unit of fuel pays for one request of a listing. *)
Definition main (fuel : nat) : prog world unit :=
  if str_contains "YOUR_GRAPH_ACCESS_TOKEN_HERE" (ONEDRIVE_ACCESS_TOKEN ses) then
    print "ERROR: Set ONEDRIVE_TOKEN (or edit ONEDRIVE_ACCESS_TOKEN in the script).";;
    lift (Raise (SystemExit 1))
  else if str_contains "YOUR_IMMICH_API_KEY_HERE" (IMMICH_API_KEY ses) then
    print "ERROR: Set IMMICH_API_KEY (or edit IMMICH_API_KEY in the script).";;
    lift (Raise (SystemExit 1))
  else
    let refresh_onedrive := bool_decide ("--refresh-onedrive" ∈ argv ses) in
    print "Getting OneDrive Camera Roll metadata...";;
    onedrive_files ← get_onedrive_camera_roll_files cfg E fuel refresh_onedrive;
    print ("Found " +:+ pretty (length onedrive_files)
           +:+ " files in OneDrive Camera Roll.");;
    print ("Fetching Immich assets in batches of "
           +:+ pretty (IMMICH_PAGE_SIZE cfg) +:+ "...");;
    immich_assets ← get_immich_assets cfg E fuel;
    print ("Found " +:+ pretty (length immich_assets) +:+ " assets in Immich.");;
    immich_names ← lift (get_immich_filenames immich_assets);
    print "Comparing OneDrive vs Immich filenames...";;
    missing_files ← lift (list_missing_files onedrive_files immich_names);
    match missing_files with
    | [] => print "✅ No missing files! All Camera Roll filenames appear in Immich."
    | _ :: _ =>
        print ("⚠ Found " +:+ pretty (length missing_files)
               +:+ " file(s) in OneDrive that are not in Immich:");;
        print_names missing_files;;
        confirm_and_download missing_files
    end.

End Main.

(* ===================================================================== *)
(** ** Vocabulary of the specification *)
(* ===================================================================== *)

(** *** Records *)

(** A raw entry of a listing: a dict. *)
Definition is_record (v : json) : Prop := ∃ m, v = JObj m.

(** A source record with a name: a dict whose ["name"] is a string. *)
Definition is_named (f : json) : Prop :=
  ∃ m s, f = JObj m ∧ m !! "name" = Some (JStr s).

(** The string under key [k] of a record, empty when there is none. *)
Definition field (k : string) (a : json) : string :=
  match a with
  | JObj m => match m !! k with Some (JStr s) => s | _ => "" end
  | _ => ""
  end.

Definition record_name : json → string := field "name".

(** The file-type marker: the entry has a ["file"] key. *)
Definition has_file (v : json) : Prop :=
  match v with JObj m => is_Some (m !! "file") | _ => False end.

#[export] Instance has_file_dec v : Decision (has_file v).
Proof. destruct v; simpl; apply _. Defined.

(** *** Target assets *)

(** A field that is absent or holds a string. *)
Definition str_or_absent (m : gmap string json) (k : string) : Prop :=
  m !! k = None ∨ ∃ s, m !! k = Some (JStr s).

(** A target asset: a dict whose three name fields are strings when present. *)
Definition is_asset (a : json) : Prop :=
  ∃ m, a = JObj m ∧ str_or_absent m "originalFileName"
       ∧ str_or_absent m "fileName" ∧ str_or_absent m "originalPath".

(** What follows the last ['/'] of a path: the whole path when it has none. *)
Fixpoint after_last_slash (p : string) : string :=
  match p with
  | EmptyString => EmptyString
  | String c r =>
      if str_contains "/" r then after_last_slash r
      else if Ascii.eqb c "/" then r else p
  end.

(** The preference order of the spec: the original file name, else the file
    name, else the last segment of the original path. *)
Definition resolved_name (a : json) : string :=
  if String.eqb (field "originalFileName" a) "" then
    if String.eqb (field "fileName" a) "" then
      after_last_slash (field "originalPath" a)
    else field "fileName" a
  else field "originalFileName" a.

(** *** The snapshot cache *)

(** The document in the cache file, as the [try] block obtains it. *)
Definition cache_document (cfg : config) (E : env) (w : world) : outcome json :=
  c ← (read_file E (ONEDRIVE_CACHE_FILE cfg) w).1; Json.loads c.

Definition loading_line (cfg : config) : string :=
  "Loading OneDrive metadata from cache: " +:+ ONEDRIVE_CACHE_FILE cfg.

Definition read_warning (e : exn) : string :=
  "Warning: failed to read cache (" +:+ exn_str e +:+ "), refetching from OneDrive...".

(** What a writeback of the text [new] leaves at the cache path, given the
    fault of the disk and what was there: the old node when the file cannot
    be opened, else the text as far as the disk took it. *)
Definition writeback_result (fault : wfault) (old : option node) (new : string)
  : option node :=
  match fault, old with
  | WriteOpenFails _, _ => old
  | _, Some Dir => old
  | WriteOk, _ => Some (File new)
  | WriteFailsAfter k _, _ => Some (File (String.substring 0 k new))
  end.

(** *** The source listing *)

(** A page of the source listing: status 200 and a dict with the entries
    under ["value"] and, when there is one, the cursor under
    ["@odata.nextLink"]. *)
Definition listing_page (r : response) (entries : list json) (cursor : option string)
  : Prop :=
  status_code r = 200
  ∧ ∃ m, rjson r = Some (JObj m) ∧ m !! "value" = Some (JArr entries)
         ∧ m !! "@odata.nextLink" = JStr <$> cursor.

(** [serves E log url pages last]: asked for [url] after the requests [log],
    the service answers with the pages [pages], each with its entries and a
    cursor to the next one, and then with a page [last] that has no cursor. *)
Inductive serves (E : env) : list request → string → list (list json * string)
    → list json → Prop :=
| serves_last log url entries :
    listing_page (remote E log (GraphGet url)) entries None →
    serves E log url [] entries
| serves_next log url entries cursor pages last :
    listing_page (remote E log (GraphGet url)) entries (Some cursor) →
    cursor ≠ "" →
    serves E (log ++ [GraphGet url]) cursor pages last →
    serves E log url ((entries, cursor) :: pages) last.

(** *** The target search *)

(** A page of the target search: status 200, the items under
    ["assets"]["items"] and the token, if any, under ["assets"]["nextPage"]. *)
Definition search_page (r : response) (items : list json) (token : option json) : Prop :=
  status_code r = 200
  ∧ ∃ data block, rjson r = Some (JObj data) ∧ data !! "assets" = Some (JObj block)
      ∧ block !! "items" = Some (JArr items) ∧ block !! "nextPage" = token.

(** The page asked after a token, in the words of the spec: the token read
    as an integer, the current page plus one when it does not read as one. *)
Definition spec_next_page (page : Z) (token : json) : Z :=
  match py_int token with
  | Ok z => z
  | _ => page + 1
  end.

(** A token that is absent, or [null], empty or zero, ends the listing. *)
Definition token_present (token : option json) : bool :=
  match token with
  | Some t => py_truthy t
  | None => false
  end.

(** [answers cfg E log page ps]: asked for [page] after the requests [log],
    the service answers with the pages [ps]; all but the last have items and
    a token, the last has no items or no token. *)
Inductive answers (cfg : config) (E : env) : list request → Z
    → list (list json * option json) → Prop :=
| answers_last log page items token :
    search_page (remote E log (ImmichSearch (IMMICH_PAGE_SIZE cfg) page)) items token →
    items = [] ∨ token_present token = false →
    answers cfg E log page [(items, token)]
| answers_next log page items token ps :
    search_page (remote E log (ImmichSearch (IMMICH_PAGE_SIZE cfg) page))
      items (Some token) →
    items ≠ [] → py_truthy token = true →
    answers cfg E (log ++ [ImmichSearch (IMMICH_PAGE_SIZE cfg) page])
      (spec_next_page page token) ps →
    answers cfg E log page ((items, Some token) :: ps).

(** The page numbers asked along a run. *)
Fixpoint pages_asked (page : Z) (ps : list (list json * option json)) : list Z :=
  match ps with
  | [] => []
  | (_, token) :: rest =>
      page :: pages_asked (match token with
                           | Some t => spec_next_page page t
                           | None => page + 1
                           end) rest
  end.

(** *** Downloads *)

(** The path [dest_folder / name] of a record named [name]. *)
Definition dest_path_of (dest_folder name : string) : string :=
  if String.prefix "/" name then name
  else if String.eqb name "" then dest_folder
  else dest_folder +:+ "/" +:+ name.

(** The aggregate bar is absent, or it passes the test [if overall_pbar]. *)
Definition bar_ready (E : env) (bar : option tqdm) : Prop :=
  bar = None ∨ ∃ p, bar = Some p ∧ bar_bool E p = Ok true.

(** The status of a content request is neither 200 nor 302. *)
Definition rejected (r : response) : Prop :=
  status_code r ≠ 200 ∧ status_code r ≠ 302.

Definition failure_line (name : string) (r : response) : string :=
  "Failed to download " +:+ name +:+ ": " +:+ pretty (status_code r)
  +:+ " " +:+ text r.

(** The [size] field is absent or holds a falsy value. *)
Definition size_falsy (m : gmap string json) : Prop :=
  ∀ v, m !! "size" = Some v → py_truthy v = false.

(* ===================================================================== *)
(** ** Sample data *)
(* ===================================================================== *)

Definition photo_fields (name : string) (size : Z) : gmap string json :=
  {[ "id" := JStr ("id-" +:+ name); "name" := JStr name;
     "size" := JInt size; "file" := JObj ∅ ]}.

Definition photo (name : string) (size : Z) : json := JObj (photo_fields name size).

Definition unsized_photo (name : string) : gmap string json :=
  {[ "id" := JStr ("id-" +:+ name); "name" := JStr name; "file" := JObj ∅ ]}.

Definition folder (name : string) : json :=
  JObj {[ "id" := JStr ("id-" +:+ name); "name" := JStr name; "folder" := JObj ∅ ]}.

Definition asset (name : string) : json :=
  JObj {[ "id" := JStr ("asset-" +:+ name); "originalFileName" := JStr name ]}.

Definition example_assets : list json :=
  [ JObj {[ "originalFileName" := JStr "a.jpg" ]};
    JObj {[ "fileName" := JStr "b.jpg" ]};
    JObj {[ "originalPath" := JStr "/x/c.jpg" ]};
    JObj ∅ ].

Definition example_files : list json :=
  [ JObj {[ "name" := JStr "a.jpg" ]};
    JObj {[ "name" := JStr "b.jpg" ]};
    JObj {[ "name" := JStr "c.jpg" ]} ].

Definition listing (entries : list json) (cursor : option string) : response :=
  {| status_code := 200; text := "";
     rjson := Some (JObj (<["value" := JArr entries]>
                            (match cursor with
                             | Some c => {[ "@odata.nextLink" := JStr c ]}
                             | None => ∅
                             end)));
     chunks := [] |}.

Definition search_result (items : list json) (token : option json) : response :=
  {| status_code := 200; text := "";
     rjson := Some (JObj {[ "assets" :=
                 JObj (<["items" := JArr items]>
                         (match token with
                          | Some t => {[ "nextPage" := t ]}
                          | None => ∅
                          end)) ]});
     chunks := [] |}.

Definition not_found : response :=
  {| status_code := 404; text := "itemNotFound"; rjson := None; chunks := [] |}.

Definition start_url : string :=
  GRAPH_API_BASE default_config +:+ ONEDRIVE_CAMERA_ROLL_PATH default_config.

Definition second_url : string := "https://graph.microsoft.com/v1.0/next?skip=2".

(** A source with two pages, a target with three, the second of which names
    its successor with a word, and no content for any file. *)
Definition sample_remote (req : request) : response :=
  match req with
  | GraphGet url =>
      if String.eqb url start_url
      then listing [photo "a.jpg" 10; folder "Trips"] (Some second_url)
      else listing [photo "b.jpg" 0] None
  | ImmichSearch _ page =>
      if Z.eqb page 1 then search_result [asset "a.jpg"] (Some (JStr "2"))
      else if Z.eqb page 2 then search_result [asset "x.jpg"] (Some (JStr "next"))
      else search_result [] None
  | GraphContent _ => not_found
  end.

Definition sample_env (wf : wfault) : env :=
  {| remote := λ _, sample_remote;
     read_fault := λ _, None;
     write_fault := λ _, wf;
     bar_bool := tqdm_bool |}.

Definition disk (files : gmap string node) : world :=
  {| fs := files; stdout := []; requests := [] |}.

Definition cache_path : string := ONEDRIVE_CACHE_FILE default_config.

Definition sample_entries : list json :=
  [photo "a.jpg" 10; folder "Trips"; photo "b.jpg" 0].

Definition sample_bar : tqdm := {| total := Some 10; n := 0 |}.

(** A bar made with [total=None], as [main] makes it when no size is known. *)
Definition open_ended_bar : tqdm := {| total := None; n := 7 |}.

Definition downloads : string := DOWNLOAD_FOLDER default_config.

Definition disk_with_a : world :=
  disk {[ downloads := Dir; downloads +:+ "/a.jpg" := File "JFIF" ]}.

Definition disk_without_a : world := disk {[ downloads := Dir ]}.

(* ===================================================================== *)
(** ** Vocabulary of the further properties *)
(* ===================================================================== *)

(** *** Names *)

(** The keys of the falsy values: [None], [0] and [False], the empty
    string. *)
Definition falsy_key (k : pykey) : Prop := k = KNone ∨ k = KInt 0 ∨ k = KStr "".

(** The two name fields of an asset are absent or falsy. *)
Definition nameless (m : gmap string json) : Prop :=
  (∀ v, m !! "originalFileName" = Some v → py_truthy v = false)
  ∧ (∀ v, m !! "fileName" = Some v → py_truthy v = false).

(** An asset from which no name can be taken: it is no dict, or its two
    name fields are absent or falsy and its ["originalPath"] holds something
    other than a string, [null] for one. *)
Definition bad_asset (a : json) : Prop :=
  match a with
  | JObj m =>
      nameless m
      ∧ ∃ v, m !! "originalPath" = Some v ∧ ∀ s, v ≠ JStr s
  | _ => True
  end.

(** A source record is missing when its name is empty or is the resolved
    name of no asset. *)
Definition is_missing (assets : list json) (f : json) : Prop :=
  record_name f = "" ∨ record_name f ∉ resolved_name <$> assets.

#[export] Instance is_missing_dec assets f : Decision (is_missing assets f).
Proof. unfold is_missing. apply _. Defined.

(** *** The listings *)

(** The requests of the two listings: a GET of the source, a search of the
    target with the page size of the configuration. *)
Definition is_listing_get (r : request) : Prop := ∃ url, r = GraphGet url.

Definition is_search (cfg : config) (r : request) : Prop :=
  ∃ page, r = ImmichSearch (IMMICH_PAGE_SIZE cfg) page.

(** [grows P k w w']: from [w] to [w'] the disk is the same and the request
    log has grown by at most [k] requests, all of the kind [P]. *)
Definition grows (P : request → Prop) (k : nat) (w w' : world) : Prop :=
  fs w' = fs w
  ∧ ∃ L, requests w' = requests w ++ L ∧ Forall P L ∧ (length L ≤ k)%nat.

(** The address of the first page of the source listing. *)
Definition start_of (cfg : config) : string :=
  GRAPH_API_BASE cfg +:+ ONEDRIVE_CAMERA_ROLL_PATH cfg.

(** The lines that the two listings print. *)
Definition fetching_line : string :=
  "Fetching OneDrive Camera Roll metadata from Graph API (this may take a while)...".

(** [print("Error querying OneDrive:", resp.status_code, resp.text)] *)
Definition source_error_line (r : response) : string :=
  "Error querying OneDrive: " +:+ pretty (status_code r) +:+ " " +:+ text r.

Definition target_error_line (r : response) : string :=
  "Error querying Immich: " +:+ pretty (status_code r) +:+ " " +:+ text r.

(** [breaks E log url pages r]: asked for [url] after the requests [log],
    the service answers with the pages [pages], each with a cursor, and then
    with the response [r], whose status is not 200. *)
Inductive breaks (E : env) : list request → string → list (list json * string)
    → response → Prop :=
| breaks_here log url :
    status_code (remote E log (GraphGet url)) ≠ 200 →
    breaks E log url [] (remote E log (GraphGet url))
| breaks_next log url entries cursor pages r :
    listing_page (remote E log (GraphGet url)) entries (Some cursor) →
    cursor ≠ "" →
    breaks E (log ++ [GraphGet url]) cursor pages r →
    breaks E log url ((entries, cursor) :: pages) r.

(** The same for the target search: pages with items and a token, then a
    response whose status is not 200. *)
Inductive fails (cfg : config) (E : env) : list request → Z
    → list (list json * json) → response → Prop :=
| fails_here log page :
    status_code (remote E log (ImmichSearch (IMMICH_PAGE_SIZE cfg) page)) ≠ 200 →
    fails cfg E log page [] (remote E log (ImmichSearch (IMMICH_PAGE_SIZE cfg) page))
| fails_next log page items token ps r :
    search_page (remote E log (ImmichSearch (IMMICH_PAGE_SIZE cfg) page))
      items (Some token) →
    items ≠ [] → py_truthy token = true →
    fails cfg E (log ++ [ImmichSearch (IMMICH_PAGE_SIZE cfg) page])
      (spec_next_page page token) ps r →
    fails cfg E log page ((items, token) :: ps) r.

(** A source that has a cursor on every page, and a target that has items
    and a token on every page. *)
Definition endless_source (E : env) : Prop :=
  ∀ log url, ∃ entries cursor,
    listing_page (remote E log (GraphGet url)) entries (Some cursor) ∧ cursor ≠ "".

Definition endless_target (cfg : config) (E : env) : Prop :=
  ∀ log page, ∃ items token,
    search_page (remote E log (ImmichSearch (IMMICH_PAGE_SIZE cfg) page))
      items (Some token)
    ∧ items ≠ [] ∧ py_truthy token = true.

(** *** Downloads *)

(** The bytes of a response body: the chunks one after the other. *)
Definition body_of (cs : list string) : string := foldr String.append "" cs.

(** The status of a content request is 200 or 302. *)
Definition accepted (r : response) : Prop :=
  status_code r = 200 ∨ status_code r = 302.

(** The aggregate bar is absent, or it passes the test [if overall_pbar]
    wherever its counter stands. *)
Definition bar_steady (E : env) (bar : option tqdm) : Prop :=
  bar = None
  ∨ ∃ p, bar = Some p ∧ ∀ k, bar_bool E {| total := total p; n := k |} = Ok true.

(** The requests of the downloads. *)
Definition is_content_get (r : request) : Prop := ∃ file_id, r = GraphContent file_id.

(** *** What a program leaves alone *)

(** [keeps R m]: every run of [m] takes a state to one that [R] relates to
    it, however the run ends. *)
Definition keeps {S A} (R : relation S) (m : prog S A) : Prop := ∀ s, R s (m s).2.

(** The requests are the same and so is the disk away from the paths [ps]. *)
Definition same_but (ps : list string) (s s' : dl) : Prop :=
  requests (dl_world s') = requests (dl_world s)
  ∧ ∀ q, q ∉ ps → fs (dl_world s') !! q = fs (dl_world s) !! q.

(** The path at which a record is stored, when its name gives one. *)
Definition item_paths (dest : string) (item : json) : list string :=
  match py_getitem item "name" with
  | Ok name => match path_join dest name with Ok p => [p] | _ => [] end
  | _ => []
  end.

(** [within ps k s s']: from [s] to [s'] at most [k] requests were made, all
    of them content requests, and the disk is the same away from the paths
    [ps]. *)
Definition within (ps : list string) (k : nat) (s s' : dl) : Prop :=
  (∃ L, requests (dl_world s') = requests (dl_world s) ++ L
        ∧ Forall is_content_get L ∧ (length L ≤ k)%nat)
  ∧ ∀ q, q ∉ ps → fs (dl_world s') !! q = fs (dl_world s) !! q.

(** The requests of the two listings. *)
Definition is_listing_request (cfg : config) (r : request) : Prop :=
  is_listing_get r ∨ is_search cfg r.

(** [listed cfg w w']: from [w] to [w'] only listing requests were made and
    the disk is the same away from the cache file. *)
Definition listed (cfg : config) (w w' : world) : Prop :=
  (∃ L, requests w' = requests w ++ L ∧ Forall (is_listing_request cfg) L)
  ∧ ∀ p, p ≠ ONEDRIVE_CACHE_FILE cfg → fs w' !! p = fs w !! p.

(** *** Runs of [main] *)

(** Neither credential holds its placeholder. *)
Definition credentials_set (ses : session) : Prop :=
  str_contains "YOUR_GRAPH_ACCESS_TOKEN_HERE" (ONEDRIVE_ACCESS_TOKEN ses) = false
  ∧ str_contains "YOUR_IMMICH_API_KEY_HERE" (IMMICH_API_KEY ses) = false.

(** The lines of [main] around the two listings. *)
Definition getting_line : string := "Getting OneDrive Camera Roll metadata...".

Definition found_files_line (files : list json) : string :=
  "Found " +:+ pretty (length files) +:+ " files in OneDrive Camera Roll.".

Definition batches_line (cfg : config) : string :=
  "Fetching Immich assets in batches of " +:+ pretty (IMMICH_PAGE_SIZE cfg) +:+ "...".

Definition found_assets_line (assets : list json) : string :=
  "Found " +:+ pretty (length assets) +:+ " assets in Immich.".

Definition comparing_line : string := "Comparing OneDrive vs Immich filenames...".

(** [listings cfg E ses fuel w files assets w']: with credentials, the two
    listings of [main] run from [w] return [files] and [assets] and leave
    the world [w'], the lines of [main] up to the comparison printed. *)
Definition listings (cfg : config) (E : env) (ses : session) (fuel : nat)
    (w : world) (files assets : list json) (w' : world) : Prop :=
  credentials_set ses
  ∧ ∃ w1 w2,
      get_onedrive_camera_roll_files cfg E fuel
        (bool_decide ("--refresh-onedrive" ∈ argv ses)) (add_stdout getting_line w)
      = (Ok files, w1)
      ∧ get_immich_assets cfg E fuel
          (add_stdout (batches_line cfg) (add_stdout (found_files_line files) w1))
        = (Ok assets, w2)
      ∧ w' = add_stdout comparing_line (add_stdout (found_assets_line assets) w2).

(* ===================================================================== *)
(** ** More sample data *)
(* ===================================================================== *)

(** The answer of a service that is down. *)
Definition server_error : response :=
  {| status_code := 503; text := "Service Unavailable"; rjson := None; chunks := [] |}.

(** The content of a file, sent in three chunks, the second one empty. *)
Definition jpeg : response :=
  {| status_code := 200; text := ""; rjson := None; chunks := ["JF"; ""; "IF"] |}.

(** The sample services with content for every file. *)
Definition serving_remote (req : request) : response :=
  match req with
  | GraphContent _ => jpeg
  | _ => sample_remote req
  end.

(** Services that fail on the second page of each listing. *)
Definition flaky_remote (req : request) : response :=
  match req with
  | GraphGet url =>
      if String.eqb url start_url
      then listing [photo "a.jpg" 10; folder "Trips"] (Some second_url)
      else server_error
  | ImmichSearch _ page =>
      if Z.eqb page 1 then search_result [asset "a.jpg"] (Some (JStr "2"))
      else server_error
  | GraphContent _ => jpeg
  end.

(** Services that name a next page on every page. *)
Definition endless_remote (req : request) : response :=
  match req with
  | GraphGet _ => listing [photo "a.jpg" 10] (Some second_url)
  | ImmichSearch _ _ => search_result [asset "a.jpg"] (Some (JInt 1))
  | GraphContent _ => jpeg
  end.

(** Services that do not look at the requests made before, a disk that
    reads without fault and writes with the fault [wf], and the truth test
    of tqdm. *)
Definition env_of (answer : request → response) (wf : wfault) : env :=
  {| remote := λ _, answer;
     read_fault := λ _, None;
     write_fault := λ _, wf;
     bar_bool := tqdm_bool |}.

(** A run with credentials and a forced refresh, [line] typed at the
    prompt. *)
Definition sample_session (line : string) : session :=
  {| ONEDRIVE_ACCESS_TOKEN := "eyJ0eXAi";
     IMMICH_API_KEY := "k3y";
     argv := ["immich-onedrive-diff.py"; "--refresh-onedrive"];
     cwd := "/home/me";
     stdin_line := line |}.

(** A disk with room for three bytes. *)
Definition full_disk : wfault := WriteFailsAfter 3 "No space left on device".

(** A record whose size is a text that [int] rejects. *)
Definition odd_size_fields : gmap string json :=
  {[ "id" := JStr "id-d.jpg"; "name" := JStr "d.jpg"; "size" := JStr "12 kB" ]}.

(** The world after the two listings of a run of [main] on the sample
    configuration. *)
Definition listed_world (E : env) (refresh : bool) (w : world)
    (files assets : list json) : world :=
  add_stdout comparing_line
    (add_stdout (found_assets_line assets)
       (get_immich_assets default_config E 3
          (add_stdout (batches_line default_config)
             (add_stdout (found_files_line files)
                (get_onedrive_camera_roll_files default_config E 3 refresh
                   (add_stdout getting_line w)).2))).2).

(** A run with credentials and no flag. *)
Definition plain_session : session :=
  {| ONEDRIVE_ACCESS_TOKEN := "eyJ0eXAi";
     IMMICH_API_KEY := "k3y";
     argv := ["immich-onedrive-diff.py"];
     cwd := "/home/me";
     stdin_line := "" |}.

(** A disk whose cache file lists one photo and one folder. *)
Definition cached_disk : world :=
  disk {[ cache_path := File (Json.dumps (JArr [photo "a.jpg" 10; folder "Trips"])) ]}.

(* ===================================================================== *)
(** ** Proofs *)
(* ===================================================================== *)

(** Unfolds the binds of the two monads. *)
Ltac psimpl :=
  unfold mbind, mret, prog_bind, prog_ret, outcome_bind, outcome_ret, lift, print;
  cbn beta iota.

(** The same for the programs of a download. *)
Ltac dsimpl :=
  unfold mbind, mret, prog_bind, prog_ret, outcome_bind, outcome_ret, lift, print,
    in_world, overall_truthy, overall_update;
  cbn beta iota; cbn [dl_world overall_pbar fst snd].

(** *** Lists *)

Lemma filter_ext_Forall {A} (P Q : A → Prop)
    `{∀ x, Decision (P x)} `{∀ x, Decision (Q x)} (l : list A) :
  Forall (λ x, P x ↔ Q x) l → filter P l = filter Q l.
Proof.
  induction 1 as [|x l Hx _ IH]; [done|].
  rewrite !filter_cons, IH. destruct (decide (P x)), (decide (Q x)); tauto.
Qed.

Lemma filter_idemp {A} (P : A → Prop) `{∀ x, Decision (P x)} (l : list A) :
  filter P (filter P l) = filter P l.
Proof.
  induction l as [|x l IH]; [done|].
  rewrite filter_cons. destruct (decide (P x)) as [HP|HP]; [|done].
  rewrite filter_cons, decide_True by done. by rewrite IH.
Qed.

Lemma last_cons_nonempty {A} (x d : A) l : l ≠ [] → List.last (x :: l) d = List.last l d.
Proof. by destruct l. Qed.

(** *** [list_missing_files] *)

Lemma name_key_named f : is_named f → name_key f = Ok (KStr (record_name f)).
Proof.
  intros (m & s & -> & Hs). unfold name_key, record_name. simpl. by rewrite Hs.
Qed.

Lemma name_set_named S :
  Forall is_named S → name_set S = Ok (list_to_set (KStr ∘ record_name <$> S)).
Proof.
  induction 1 as [|f S Hf _ IH]; simpl; [done|].
  by rewrite name_key_named, IH.
Qed.

Lemma keep_missing_named M S :
  Forall is_named S →
  keep_missing M S = Ok (filter (λ f, KStr (record_name f) ∈ M) S).
Proof.
  induction 1 as [|f S Hf _ IH]; simpl; [done|].
  rewrite name_key_named, IH by done. simpl. rewrite filter_cons.
  by destruct (decide _);
    [rewrite bool_decide_eq_true_2|rewrite bool_decide_eq_false_2].
Qed.

Lemma list_missing_files_filter S (T : gset pykey) :
  Forall is_named S →
  list_missing_files S T = Ok (filter (λ f, KStr (record_name f) ∉ T) S).
Proof.
  intros HS. unfold list_missing_files.
  rewrite name_set_named by done. simpl.
  rewrite keep_missing_named by done. f_equal.
  apply filter_ext_Forall, Forall_forall. intros f Hf.
  rewrite elem_of_difference, elem_of_list_to_set, list_elem_of_fmap.
  split; [tauto|]. intros Hn. split; [|done]. by exists f.
Qed.

(** C1. For every list [S] of source records with a name and every set [T]
    of target names, [list_missing_files S T] returns the records of [S]
    whose name is not in [T], in the order of [S]; the names are compared as
    they are, by equality of strings; and the function applied to its own
    result returns it unchanged. *)
Theorem list_missing_files_spec (S : list json) (T : gset pykey) :
  Forall is_named S →
  list_missing_files S T = Ok (filter (λ f, KStr (record_name f) ∉ T) S)
  ∧ list_missing_files (filter (λ f, KStr (record_name f) ∉ T) S) T
    = Ok (filter (λ f, KStr (record_name f) ∉ T) S).
Proof.
  intros HS. split; [by apply list_missing_files_filter|].
  rewrite list_missing_files_filter.
  - by rewrite filter_idemp.
  - apply Forall_forall. intros f [_ Hf]%list_elem_of_filter.
    by eapply Forall_forall in HS.
Qed.

Lemma example_files_named : Forall is_named example_files.
Proof. repeat constructor; eexists _, _; split; reflexivity. Defined.

Lemma list_missing_files_witness :
  Forall is_named example_files
  ∧ list_missing_files example_files {[ KStr "a.jpg" ]}
    = Ok (filter (λ f, KStr (record_name f) ∉ ({[ KStr "a.jpg" ]} : gset pykey))
            example_files)
  ∧ list_missing_files
      (filter (λ f, KStr (record_name f) ∉ ({[ KStr "a.jpg" ]} : gset pykey))
         example_files) {[ KStr "a.jpg" ]}
    = Ok (filter (λ f, KStr (record_name f) ∉ ({[ KStr "a.jpg" ]} : gset pykey))
            example_files).
Proof.
  split; [exact example_files_named|].
  exact (list_missing_files_spec example_files {[ KStr "a.jpg" ]} example_files_named).
Defined.

(** *** [get_immich_filenames] *)

Lemma split_on_nonempty sep s : split_on sep s ≠ [].
Proof.
  destruct s as [|c r]; simpl; [done|].
  destruct (Ascii.eqb c sep); [done|]. by destruct (split_on sep r).
Qed.

Lemma str_contains_cons (c x : ascii) r :
  str_contains (String c EmptyString) (String x r)
  = (Ascii.eqb c x || str_contains (String c EmptyString) r)%bool.
Proof.
  simpl. destruct (ascii_dec c x) as [->|Hne].
  - rewrite Ascii.eqb_refl. by destruct r.
  - apply Ascii.eqb_neq in Hne. by rewrite Hne.
Qed.

Lemma split_on_no_sep (sep : ascii) s :
  str_contains (String sep EmptyString) s = false → split_on sep s = [s].
Proof.
  induction s as [|c r IH]; [done|].
  rewrite str_contains_cons. intros [H1 H2]%orb_false_elim.
  simpl. rewrite Ascii.eqb_sym, H1. by rewrite IH.
Qed.

Lemma split_on_single (sep : ascii) s h :
  split_on sep s = [h] → str_contains (String sep EmptyString) s = false.
Proof.
  revert h. induction s as [|c r IH]; intros h; [done|].
  cbn [split_on]. destruct (Ascii.eqb c sep) eqn:Hc.
  - intros [= _ Hs]. by destruct (split_on_nonempty sep r).
  - pose proof (split_on_nonempty sep r).
    destruct (split_on sep r) as [|h1 t1] eqn:Hs; [done|].
    intros [= _ ->]. rewrite str_contains_cons, Ascii.eqb_sym, Hc. simpl.
    by eapply IH.
Qed.

(** The last element of [s.split("/")] is what follows the last slash. *)
Lemma last_split_on s : List.last (split_on "/" s) "" = after_last_slash s.
Proof.
  induction s as [|c r IH]; [done|].
  cbn [split_on after_last_slash].
  destruct (str_contains "/" r) eqn:Hr.
  - rewrite <- IH. destruct (Ascii.eqb c "/").
    + apply last_cons_nonempty, split_on_nonempty.
    + pose proof (split_on_nonempty "/" r).
      destruct (split_on "/" r) as [|h [|h' t]] eqn:Hs; [done| |done].
      by rewrite (split_on_single _ _ _ Hs) in Hr.
  - rewrite (split_on_no_sep "/" r Hr). by destruct (Ascii.eqb c "/").
Qed.

(** One step of the [or] chain: the field when it is a non-empty string, else
    what follows. *)
Lemma or_field m k (rest : outcome json) :
  str_or_absent m k →
  (v ← py_get (JObj m) k JNull; if py_truthy v then Ok v else rest)
  = if String.eqb (field k (JObj m)) "" then rest
    else Ok (JStr (field k (JObj m))).
Proof.
  intros [H|[s H]]; cbn [py_get field]; rewrite H.
  - reflexivity.
  - psimpl. cbn [default]. unfold id.
    change (py_truthy (JStr s)) with (negb (String.eqb s "")).
    destruct (String.eqb s ""); reflexivity.
Qed.

Lemma asset_name_resolved a :
  is_asset a → asset_name a = Ok (JStr (resolved_name a)).
Proof.
  intros (m & -> & H1 & H2 & H3). unfold asset_name, resolved_name.
  rewrite (or_field m "originalFileName" _ H1), (or_field m "fileName" _ H2).
  destruct (String.eqb (field "originalFileName" (JObj m)) ""); [|done].
  destruct (String.eqb (field "fileName" (JObj m)) ""); [|done].
  destruct H3 as [H|[s H]]; cbn [py_get field]; rewrite H; psimpl;
    cbn [default]; unfold id; cbn [py_split_slash]; by rewrite last_split_on.
Qed.

Lemma immich_filenames_loop_resolved assets names :
  Forall is_asset assets →
  immich_filenames_loop assets names
  = Ok (names ∪ list_to_set
                  (KStr <$> filter (λ s, s ≠ "") (resolved_name <$> assets))).
Proof.
  intros H. revert names. induction H as [|a l Ha _ IH]; intros names; simpl.
  - f_equal. set_solver.
  - rewrite asset_name_resolved by done. simpl. rewrite filter_cons.
    destruct (String.eqb_spec (resolved_name a) "") as [He|He]; simpl.
    + rewrite decide_False by (by intros ?). apply IH.
    + rewrite decide_True by done. rewrite IH. f_equal. set_solver.
Qed.

(** C2. For every list of target assets, [get_immich_filenames] returns the
    set of the non-empty names resolved by the preference order
    originalFileName, else fileName, else the last segment of originalPath;
    on the four assets of the spec's example the set is a.jpg, b.jpg,
    c.jpg. *)
Theorem get_immich_filenames_spec (assets : list json) :
  Forall is_asset assets →
  get_immich_filenames assets
  = Ok (list_to_set (KStr <$> filter (λ s, s ≠ "") (resolved_name <$> assets)))
  ∧ get_immich_filenames example_assets
    = Ok {[ KStr "a.jpg"; KStr "b.jpg"; KStr "c.jpg" ]}.
Proof.
  intros H. split.
  - unfold get_immich_filenames.
    rewrite immich_filenames_loop_resolved by done. f_equal. set_solver.
  - vm_compute. reflexivity.
Qed.

Lemma example_assets_typed : Forall is_asset example_assets.
Proof.
  repeat constructor; eexists; (split; [reflexivity|]);
    repeat split; try (by left); right; by eexists.
Defined.

Lemma get_immich_filenames_witness :
  Forall is_asset example_assets
  ∧ get_immich_filenames example_assets
    = Ok (list_to_set
            (KStr <$> filter (λ s, s ≠ "") (resolved_name <$> example_assets)))
  ∧ get_immich_filenames example_assets
    = Ok {[ KStr "a.jpg"; KStr "b.jpg"; KStr "c.jpg" ]}.
Proof.
  split; [exact example_assets_typed|].
  exact (get_immich_filenames_spec example_assets example_assets_typed).
Defined.

(** *** The [json] library: what is written is read back *)

Module JsonFacts.
Import Json.
#[local] Open Scope char_scope.
#[local] Open Scope list_scope.

(** *** Strings *)

Lemma parse_escape c body :
  parse_string_body (escape_char c ++ body)
  = match parse_string_body body with
    | Some (str, rest) => Some (c :: str, rest)
    | None => None
    end.
Proof. destruct c as [[] [] [] [] [] [] [] []]; reflexivity. Qed.

Lemma parse_string_dump cs rest :
  parse_string_body (flat_map escape_char cs ++ quote :: rest) = Some (cs, rest).
Proof.
  induction cs as [|c cs IH]; [done|].
  cbn [flat_map]. rewrite <- app_assoc, parse_escape. by rewrite IH.
Qed.

(** *** Integers *)

Lemma uint_digits u :
  Forall (λ c, is_digit c = true) (to_chars (NilEmpty.string_of_uint u)).
Proof. induction u; simpl; constructor; done. Qed.

Lemma span_digits_app ds rest :
  Forall (λ c, is_digit c = true) ds →
  match rest with [] => True | c :: _ => is_digit c = false end →
  span_digits (ds ++ rest) = (ds, rest).
Proof.
  intros Hds Hrest. induction Hds as [|c ds Hc _ IH]; simpl.
  - destruct rest as [|c r]; [done|]. simpl. by rewrite Hrest.
  - by rewrite Hc, IH.
Qed.

Lemma to_uint_no_leading_zero p u : Pos.to_uint p ≠ Decimal.D0 u.
Proof.
  intros H.
  pose proof (Unsigned.to_of (Pos.to_uint p)) as Hn.
  rewrite Unsigned.of_to in Hn. simpl in Hn.
  rewrite H in Hn. rewrite unorm_D0 in Hn.
  destruct (Decimal.uint_eq_dec u Decimal.Nil) as [->|Hu].
  - by apply (Unsigned.to_uint_nonzero p).
  - pose proof (nb_digits_unorm u Hu) as Hle.
    rewrite <- Hn in Hle. simpl in Hle. lia.
Qed.

Lemma delim_not_digit rest :
  delim rest = true →
  match rest with [] => True | c :: _ => is_digit c = false end
  ∧ starts_fraction rest = false.
Proof.
  destruct rest as [|c r]; [done|]. simpl.
  destruct c as [[] [] [] [] [] [] [] []]; by vm_compute.
Qed.

Lemma parse_uint_dump (neg : bool) p rest :
  delim rest = true →
  parse_digits neg (to_chars (NilEmpty.string_of_uint (Pos.to_uint p)) ++ rest)
  = Some (Z.of_int (if neg then Decimal.Neg (Pos.to_uint p)
                    else Decimal.Pos (Pos.to_uint p)), rest).
Proof.
  intros [Hd Hf]%delim_not_digit. unfold parse_digits.
  rewrite span_digits_app by (done || apply uint_digits).
  pose proof (to_uint_no_leading_zero p) as Hz.
  pose proof (Unsigned.to_uint_nonnil p) as Hnil.
  pose proof (NilEmpty.usu (Pos.to_uint p)) as Husu.
  rewrite <- (String.string_of_list_ascii_of_string
                (NilEmpty.string_of_uint (Pos.to_uint p))) in Husu.
  destruct (to_chars (NilEmpty.string_of_uint (Pos.to_uint p))) as [|d ds'] eqn:Hs.
  { destruct (Pos.to_uint p); done. }
  assert (Ascii.eqb d "0" = false) as ->.
  { destruct (Pos.to_uint p); simpl in Hs;
      try done; try (by injection Hs as <- _). exfalso; eapply Hz; reflexivity. }
  cbn [andb]. by rewrite Hf, Husu.
Qed.

Lemma parse_int_dump z rest :
  delim rest = true → parse_int (dump_int z ++ rest) = Some (z, rest).
Proof.
  intros Hrest. unfold dump_int, parse_int.
  destruct z as [|p|p]; cbn [Z.to_int NilEmpty.string_of_int].
  - apply delim_not_digit in Hrest as [Hd Hf]. unfold parse_digits. simpl.
    destruct rest as [|c r]; simpl; [done|]. simpl in Hf. rewrite Hd. simpl.
    by rewrite Hf.
  - pose proof (parse_uint_dump false p rest Hrest) as H.
    pose proof (uint_digits (Pos.to_uint p)) as Hall.
    pose proof (Unsigned.to_uint_nonnil p) as Hnil.
    destruct (to_chars (NilEmpty.string_of_uint (Pos.to_uint p))) as [|c r] eqn:Hs.
    { destruct (Pos.to_uint p); done. }
    cbn [app] in *. inversion Hall as [|? ? Hc _]; subst.
    assert (Ascii.eqb c "-" = false) as ->
      by (destruct c as [[] [] [] [] [] [] [] []]; done).
    rewrite H. do 2 f_equal.
    change (Z.of_int (Z.to_int (Z.pos p)) = Z.pos p). apply DecimalZ.of_to.
  - pose proof (parse_uint_dump true p rest Hrest) as H.
    cbn [to_chars app]. rewrite Ascii.eqb_refl, H. do 2 f_equal.
    change (Z.of_int (Z.to_int (Z.neg p)) = Z.neg p). apply DecimalZ.of_to.
Qed.

(** *** Induction on values *)

Lemma json_size_elem x l : x ∈ l → (json_size x < json_size (JArr l))%nat.
Proof.
  cbn [json_size]. induction 1 as [x l|x y l _ IH]; cbn [foldr]; lia.
Qed.

Lemma json_size_lookup (m : gmap string json) k x :
  m !! k = Some x → (json_size x < json_size (JObj m))%nat.
Proof.
  intros H%elem_of_map_to_list. cbn [json_size]. rewrite map_fold_foldr.
  induction (map_to_list m) as [|[k' y] l IH]; [by apply elem_of_nil in H|].
  apply elem_of_cons in H as [[= <- <-]|H]; cbn [foldr uncurry];
    [|specialize (IH H)]; simpl; lia.
Qed.

Lemma json_ind' (P : json → Prop) :
  P JNull → (∀ b, P (JBool b)) → (∀ z, P (JInt z)) → (∀ s, P (JStr s)) →
  (∀ l, Forall P l → P (JArr l)) →
  (∀ m : gmap string json, map_Forall (λ _, P) m → P (JObj m)) →
  ∀ v, P v.
Proof.
  intros Hnull Hbool Hint Hstr Harr Hobj v.
  assert (∀ bound v, (json_size v < bound)%nat → P v) as H.
  { induction bound as [|bound IH]; intros v' Hv; [lia|].
    destruct v' as [| | | |l|m]; auto.
    - apply Harr, Forall_forall. intros x Hx. apply IH.
      pose proof (json_size_elem x _ Hx). lia.
    - apply Hobj. intros k x Hk. apply IH.
      pose proof (json_size_lookup _ k x Hk). lia. }
  apply (H (S (json_size v))). lia.
Qed.

(** *** Values *)

Lemma value_start_facts c :
  value_start c = true →
  is_ws c = false ∧ Ascii.eqb c "]" = false ∧ Ascii.eqb c "}" = false.
Proof. destruct c as [[] [] [] [] [] [] [] []]; by vm_compute. Qed.

Lemma number_start_facts c :
  (is_digit c || Ascii.eqb c "-")%bool = true →
  is_ws c = false ∧ Ascii.eqb c "[" = false ∧ Ascii.eqb c "{" = false
  ∧ Ascii.eqb c quote = false ∧ Ascii.eqb c "n" = false
  ∧ Ascii.eqb c "t" = false ∧ Ascii.eqb c "f" = false.
Proof. destruct c as [[] [] [] [] [] [] [] []]; by vm_compute. Qed.

Lemma dump_int_head z :
  ∃ c r, dump_int z = c :: r ∧ (is_digit c || Ascii.eqb c "-")%bool = true.
Proof.
  unfold dump_int. destruct z as [|p|p]; cbn [Z.to_int NilEmpty.string_of_int].
  - by eexists _, _.
  - pose proof (uint_digits (Pos.to_uint p)) as Hall.
    pose proof (Unsigned.to_uint_nonnil p) as Hnil.
    destruct (to_chars (NilEmpty.string_of_uint (Pos.to_uint p))) as [|c r] eqn:Hs.
    { destruct (Pos.to_uint p); done. }
    inversion Hall as [|? ? Hc _]; subst. exists c, r. by rewrite Hc.
  - by eexists _, _.
Qed.

Lemma dump_fields_foldr (l : list (string * json)) :
  foldr (uncurry (λ k x acc, (k, dump x) :: acc)) [] l = dump_field <$> l.
Proof.
  induction l as [|[k x] l IH]; [done|].
  cbn [foldr uncurry fmap list_fmap]. by rewrite IH.
Qed.

Lemma dump_obj (m : gmap string json) :
  dump (JObj m)
  = "{" :: join (map dump_member (dump_field <$> map_to_list m)) ++ ["}"].
Proof. cbn [dump]. by rewrite map_fold_foldr, dump_fields_foldr. Qed.

Lemma dump_head v : ∃ c r, dump v = c :: r ∧ value_start c = true.
Proof.
  destruct v as [|[]|z|s|l|m]; try (by eexists _, _).
  - cbn [dump]. destruct (dump_int_head z) as (c & r & -> & Hc). exists c, r. split; [done|].
    unfold value_start. by rewrite Hc.
Qed.

Lemma join_head (parts : list (list ascii)) p c r :
  p = c :: r → ∃ r', join (p :: parts) = c :: r'.
Proof. intros ->. destruct parts; by eexists. Qed.

Lemma skip_ws_start c r : is_ws c = false → skip_ws (c :: r) = c :: r.
Proof. intros H. simpl. by rewrite H. Qed.

Lemma parse_value_space f s : parse_value f (" " :: s) = parse_value f s.
Proof. by destruct f. Qed.

Lemma parse_elems_space f s : parse_elems f (" " :: s) = parse_elems f s.
Proof. destruct f; [done|]. cbn [parse_elems]. by rewrite parse_value_space. Qed.

Lemma parse_members_space f s acc : parse_members f (" " :: s) acc = parse_members f s acc.
Proof. by destruct f. Qed.

Lemma parse_elems_dump l :
  Forall reads_back l → l ≠ [] →
  ∀ f rest, (length (join (map dump l)) < f)%nat →
    parse_elems f (join (map dump l) ++ "]" :: rest) = Some (l, rest).
Proof.
  induction 1 as [|x l Hx Hl IH]; [done|]. intros _ f rest Hf.
  destruct f as [|f]; [lia|]. cbn [parse_elems].
  destruct l as [|y l].
  - cbn [map join] in *. rewrite Hx by (done || lia).
    by rewrite skip_ws_start.
  - change (map dump (x :: y :: l)) with (dump x :: map dump (y :: l)) in *.
    change (join (dump x :: map dump (y :: l)))
      with (dump x ++ "," :: " " :: join (map dump (y :: l))) in *.
    rewrite length_app in Hf. cbn [length] in Hf.
    rewrite <- app_assoc. cbn [app].
    rewrite Hx by (done || lia).
    rewrite skip_ws_start by done. rewrite Ascii.eqb_refl.
    rewrite parse_elems_space. by rewrite IH by (done || lia).
Qed.

Lemma parse_member f k x tail acc :
  reads_back x → (length (dump x) ≤ f)%nat → delim tail = true →
  parse_members (S f) (dump_member (k, dump x) ++ tail) acc
  = match skip_ws tail with
    | c :: r =>
        if Ascii.eqb c "," then parse_members f r (<[k := x]> acc)
        else if Ascii.eqb c "}" then Some (<[k := x]> acc, r)
        else None
    | [] => None
    end.
Proof.
  intros Hx Hf Htail. cbn [parse_members].
  unfold dump_member, dump_string. cbn [fst snd].
  rewrite <- !app_assoc. cbn [app].
  rewrite <- !app_assoc. cbn [app].
  rewrite skip_ws_start by done. cbn [expect]. rewrite Ascii.eqb_refl.
  rewrite parse_string_dump.
  rewrite skip_ws_start by done. cbn [expect]. rewrite Ascii.eqb_refl.
  rewrite parse_value_space, Hx by done.
  by rewrite String.string_of_list_ascii_of_string.
Qed.

Lemma length_dump_member k d :
  (length d < length (dump_member (k, d)))%nat.
Proof. unfold dump_member. cbn [fst snd]. rewrite length_app. cbn [length]. lia. Qed.

Lemma parse_members_dump kvs :
  Forall (λ kv, reads_back kv.2) kvs → kvs ≠ [] →
  ∀ f rest acc,
    (length (join (map dump_member (dump_field <$> kvs))) < f)%nat →
    parse_members f (join (map dump_member (dump_field <$> kvs)) ++ "}" :: rest) acc
    = Some (foldl add_field acc kvs, rest).
Proof.
  induction 1 as [|[k x] kvs Hx Hl IH]; [done|]. intros _ f rest acc Hf.
  destruct f as [|f]; [lia|].
  destruct kvs as [|kv kvs].
  - cbn [fmap list_fmap map join dump_field fst snd] in *.
    change (dump_field (k, x)) with (k, dump x) in *.
    pose proof (length_dump_member k (dump x)).
    rewrite parse_member by (done || lia).
    by rewrite skip_ws_start.
  - change (join (map dump_member (dump_field <$> (k, x) :: kv :: kvs)))
      with (dump_member (k, dump x) ++ "," :: " "
              :: join (map dump_member (dump_field <$> kv :: kvs))) in *.
    rewrite length_app in Hf. cbn [length] in Hf.
    pose proof (length_dump_member k (dump x)).
    rewrite <- app_assoc. cbn [app].
    rewrite parse_member by (done || lia).
    rewrite skip_ws_start by done. rewrite Ascii.eqb_refl.
    rewrite parse_members_space. by rewrite IH by (done || lia).
Qed.

Lemma foldl_add_field (kvs : list (string * json)) acc :
  NoDup kvs.*1 → foldl add_field acc kvs = list_to_map kvs ∪ acc.
Proof.
  revert acc. induction kvs as [|[k x] kvs IH]; intros acc Hnd; cbn [foldl].
  - by rewrite list_to_map_nil, (left_id_L ∅ (∪)).
  - cbn [fmap list_fmap fst] in Hnd. apply NoDup_cons in Hnd as [Hk Hnd].
    rewrite IH by done. unfold add_field. cbn [fst snd list_to_map foldr uncurry].
    rewrite <- insert_union_l. symmetry. apply insert_union_r.
    by apply not_elem_of_list_to_map_1.
Qed.

Lemma foldl_add_field_map (m : gmap string json) :
  foldl add_field ∅ (map_to_list m) = m.
Proof.
  rewrite foldl_add_field by apply NoDup_fst_map_to_list.
  by rewrite (right_id_L ∅ (∪)), list_to_map_to_list.
Qed.

Lemma expect_none c x r : Ascii.eqb x c = false → expect c (x :: r) = None.
Proof. intros H. cbn [expect]. by rewrite H. Qed.

Lemma reads_back_all v : reads_back v.
Proof.
  induction v as [|b|z|s|l IH|m IH] using json_ind'; intros f rest Hf Hrest.
  - destruct f as [|f]; [simpl in Hf; lia|]. reflexivity.
  - destruct f as [|f]; [destruct b; simpl in Hf; lia|]. by destruct b.
  - destruct (dump_int_head z) as (c & r & Hz & Hc).
    destruct f as [|f]; [cbn [dump] in Hf; rewrite Hz in Hf; simpl in Hf; lia|].
    pose proof (parse_int_dump z rest Hrest) as Hp.
    cbn [dump parse_value]. rewrite Hz in *. cbn [app] in *.
    apply number_start_facts in Hc as (Hws & H1 & H2 & H3 & H4 & H5 & H6).
    rewrite skip_ws_start by done.
    by rewrite H1, H2, H3, H4, H5, H6, Hp.
  - destruct f as [|f]; [simpl in Hf; lia|].
    cbn [dump parse_value]. unfold dump_string.
    cbn [app]. rewrite <- app_assoc. cbn [app].
    rewrite skip_ws_start by done.
    change (Ascii.eqb quote "[") with false.
    change (Ascii.eqb quote "{") with false.
    rewrite Ascii.eqb_refl. cbn iota.
    by rewrite parse_string_dump, String.string_of_list_ascii_of_string.
  - destruct f as [|f]; [simpl in Hf; lia|].
    cbn [dump parse_value]. cbn [dump length] in Hf. rewrite length_app in Hf.
    cbn [length] in Hf.
    cbn [app]. rewrite skip_ws_start by done. rewrite Ascii.eqb_refl.
    destruct l as [|x l]; [reflexivity|].
    rewrite <- app_assoc. cbn [app].
    destruct (dump_head x) as (c & r & Hx & Hc).
    destruct (join_head (map dump l) (dump x) c r Hx) as [r' Hj].
    apply value_start_facts in Hc as (Hws & Hc1 & Hc2).
    pose proof (parse_elems_dump (x :: l) IH ltac:(done) f rest ltac:(lia)) as Hp.
    change (map dump (x :: l)) with (dump x :: map dump l) in *.
    rewrite Hj in *. cbn [app] in *.
    rewrite skip_ws_start by done. rewrite expect_none by done.
    by rewrite Hp.
  - destruct f as [|f]; [rewrite dump_obj in Hf; simpl in Hf; lia|].
    rewrite dump_obj in *. cbn [parse_value]. cbn [length] in Hf.
    rewrite length_app in Hf. cbn [length] in Hf.
    cbn [app]. rewrite skip_ws_start by done.
    change (Ascii.eqb "{" "[") with false. rewrite Ascii.eqb_refl. cbn iota.
    rewrite <- app_assoc. cbn [app].
    destruct (map_to_list m) as [|[k x] kvs] eqn:Hkvs.
    { apply map_to_list_empty_iff in Hkvs as ->. reflexivity. }
    assert (Forall (λ kv, reads_back kv.2) ((k, x) :: kvs)) as Hall.
    { rewrite <- Hkvs. apply Forall_forall. intros [k' x'] Hin%elem_of_map_to_list.
      by apply (IH k' x'). }
    pose proof (parse_members_dump _ Hall ltac:(done) f rest ∅ ltac:(lia)) as Hp.
    rewrite <- (foldl_add_field_map m), Hkvs.
    change (dump_field <$> (k, x) :: kvs)
      with ((k, dump x) :: (dump_field <$> kvs)) in *.
    change (map dump_member ((k, dump x) :: (dump_field <$> kvs)))
      with (dump_member (k, dump x) :: map dump_member (dump_field <$> kvs)) in *.
    destruct (join_head (map dump_member (dump_field <$> kvs))
                (dump_member (k, dump x)) quote
                (flat_map escape_char (to_chars k) ++ [quote] ++ ":" :: " " :: dump x))
      as [r' Hj].
    { unfold dump_member, dump_string. cbn [fst snd app]. by rewrite <- app_assoc. }
    rewrite Hj in *. cbn [app] in *.
    rewrite skip_ws_start by done. rewrite expect_none by done.
    by rewrite Hp.
Qed.

Theorem loads_dumps v : loads (dumps v) = Ok v.
Proof.
  unfold loads, dumps. rewrite String.list_ascii_of_string_of_list_ascii.
  pose proof (reads_back_all v (S (length (dump v))) [] ltac:(lia) eq_refl) as H.
  rewrite List.app_nil_r in H. by rewrite H.
Qed.
End JsonFacts.

(** *** The snapshot cache *)

Lemma py_filter_contains_records items :
  Forall is_record items →
  py_filter_contains "file" items = Ok (filter has_file items).
Proof.
  induction 1 as [|v l [m ->] _ IH]; [done|].
  cbn [py_filter_contains py_contains]. rewrite IH. simpl.
  rewrite filter_cons. destruct (decide (has_file (JObj m))) as [H|H].
  - by rewrite bool_decide_eq_true_2.
  - by rewrite bool_decide_eq_false_2.
Qed.

Lemma py_filter_contains_raises k l e :
  py_filter_contains k l = Raise e → e = TypeError.
Proof.
  induction l as [|x l IH]; [done|]. cbn [py_filter_contains].
  destruct (py_contains k x) eqn:Hx; cbn.
  - destruct (py_filter_contains k l); cbn; [done| |done].
    intros [= <-]. by apply IH.
  - intros [= <-]. destruct x; cbn in Hx; congruence.
  - done.
Qed.

Lemma py_iter_raises v e : py_iter v = Raise e → e = TypeError.
Proof. destruct v; cbn; congruence. Qed.

Lemma substring_all s k : (String.length s ≤ k)%nat → String.substring 0 k s = s.
Proof.
  revert k. induction s as [|c s IH]; intros k Hk; simpl.
  - by destruct k.
  - destruct k as [|k]; simpl in *; [lia|]. rewrite IH; [done|lia].
Qed.

Lemma loads_raises c e : Json.loads c = Raise e → is_JSONDecodeError e = true.
Proof. unfold Json.loads. repeat case_match; by intros [= <-]. Qed.

Section cache.
Context (cfg : config) (E : env).
Let cache := ONEDRIVE_CACHE_FILE cfg.

(** A writeback returns normally, makes no request and leaves at the cache
    path what [writeback_result] says. *)
Lemma save_cache_outcome items w :
  ∃ w', save_cache cfg E items w = (Ok (), w')
    ∧ requests w' = requests w
    ∧ (∀ p, p ≠ cache → fs w' !! p = fs w !! p)
    ∧ fs w' !! cache
      = writeback_result (write_fault E cache) (fs w !! cache)
          (Json.dumps (JArr items)).
Proof.
  unfold save_cache, try_except, mbind, prog_bind, print, open_write,
    writeback_result.
  fold cache. cbn [add_stdout fs].
  destruct (write_fault E cache) as [|msg|k msg] eqn:Hwf.
  - destruct (fs w !! cache) as [[c|]|] eqn:Hc.
    2:{ cbn. eexists. split; [done|]. by cbn. }
    all: unfold write_chunk; cbn [set_fs fs].
    all: rewrite (lookup_insert_eq (fs w)), Hwf.
    all: eexists; (split; [done|]); cbn [set_fs add_stdout fs requests].
    all: split; [done|]; split; [by intros p Hp; rewrite !lookup_insert_ne|].
    all: by rewrite lookup_insert_eq.
  - cbn. eexists. split; [done|]. by cbn.
  - destruct (fs w !! cache) as [[c|]|] eqn:Hc.
    2:{ cbn. eexists. split; [done|]. by cbn. }
    all: unfold write_chunk; cbn [set_fs fs];
      rewrite (lookup_insert_eq (fs w)), Hwf.
    all: cbn [String.length Nat.add Nat.sub].
    all: destruct (Nat.leb_spec (String.length (Json.dumps (JArr items))) k)
      as [Hle|Hgt].
    all: cbn -[String.substring Json.dumps String.append]; eexists;
      (split; [done|]); cbn [set_fs add_stdout fs requests].
    all: split; [done|]; split; [by intros p Hp; rewrite !lookup_insert_ne|].
    all: rewrite lookup_insert_eq; rewrite ?Nat.sub_0_r; try done.
    all: by rewrite substring_all.
Qed.

Lemma read_file_world p w : (read_file E p w).2 = w.
Proof. unfold read_file. by repeat case_match. Qed.

Lemma read_file_stdout p line w :
  (read_file E p (add_stdout line w)).1 = (read_file E p w).1.
Proof. unfold read_file. cbn [add_stdout fs]. by repeat case_match. Qed.

Lemma read_file_raises p w e : (read_file E p w).1 = Raise e → is_OSError e = true.
Proof. unfold read_file. repeat case_match; by intros [= <-]. Qed.

(** A cache that cannot be read or parsed raises what the [except] clause
    catches. *)
Lemma cache_document_raises w e :
  cache_document cfg E w = Raise e →
  (is_JSONDecodeError e || is_OSError e)%bool = true.
Proof.
  unfold cache_document. fold cache.
  destruct (read_file E cache w).1 eqn:Hr; cbn.
  - by intros ->%loads_raises.
  - intros [= ->]. apply read_file_raises in Hr as ->. apply orb_true_r.
  - done.
Qed.

(** The [try] block in terms of the document it reads. *)
Lemma load_cache_run w :
  load_cache cfg E w
  = (doc ← cache_document cfg E w;
     entries ← py_iter doc;
     py_filter_contains "file" entries,
     add_stdout (loading_line cfg) w).
Proof.
  unfold load_cache, cache_document, loading_line. fold cache. psimpl.
  pose proof (read_file_world cache
                (add_stdout ("Loading OneDrive metadata from cache: " +:+ cache) w))
    as Hw.
  pose proof (read_file_stdout cache
                ("Loading OneDrive metadata from cache: " +:+ cache) w) as Ho.
  destruct (read_file E cache (add_stdout _ w)) as [o w1].
  cbn [fst snd] in Hw, Ho. subst w1. rewrite <- Ho.
  destruct o as [c| |]; psimpl; [|done..].
  destruct (Json.loads c) as [doc| |]; psimpl; [|done..].
  destruct (py_iter doc) as [entries| |]; psimpl; [|done..].
  by destruct (py_filter_contains "file" entries).
Qed.

(** A call that finds a cache file: the entries of the document, or the
    live fetch after a warning when the document cannot be had. *)
Lemma get_onedrive_cached fuel w :
  USE_ONEDRIVE_CACHE cfg = true → path_exists cache w = true →
  get_onedrive_camera_roll_files cfg E fuel false w
  = match cache_document cfg E w with
    | Ok doc =>
        (entries ← py_iter doc; py_filter_contains "file" entries,
         add_stdout (loading_line cfg) w)
    | Raise e =>
        live_fetch cfg E fuel
          (add_stdout (read_warning e) (add_stdout (loading_line cfg) w))
    | OutOfFuel => (OutOfFuel, add_stdout (loading_line cfg) w)
    end.
Proof.
  intros Hc Hx. unfold get_onedrive_camera_roll_files. fold cache.
  rewrite Hc, Hx. cbn [negb andb]. unfold try_except. rewrite load_cache_run.
  destruct (cache_document cfg E w) as [doc|e|] eqn:Hdoc; psimpl.
  - destruct (py_iter doc) as [entries|e|] eqn:Hi; psimpl;
      [|by apply py_iter_raises in Hi as ->|done].
    destruct (py_filter_contains "file" entries) as [r|e|] eqn:Hf; [done| |done].
    by apply py_filter_contains_raises in Hf as ->.
  - by rewrite (cache_document_raises _ _ Hdoc).
  - done.
Qed.

End cache.


Lemma sample_entries_records : Forall is_record sample_entries.
Proof. repeat constructor; by eexists. Defined.







(** *** The source listing *)

Lemma truthy_url u : u ≠ "" → py_truthy (JStr u) = true.
Proof. intros H. cbn. by destruct (String.eqb_spec u ""). Qed.

(** The loop follows the cursors of the pages and stops at the page without
    one: one request a page, the entries in the order of the pages. *)
Lemma fetch_pages_serves E log url pages last :
  serves E log url pages last →
  ∀ fuel items w,
    url ≠ "" → requests w = log → (length pages < fuel)%nat →
    fetch_pages E fuel (JStr url) items w
    = (Ok (items ++ concat pages.*1 ++ last),
       {| fs := fs w; stdout := stdout w;
          requests := log ++ (GraphGet <$> url :: pages.*2) |}).
Proof.
  induction 1 as [log url entries (Hs & m & Hj & Hv & Hn)
                 |log url entries cursor pages last (Hs & m & Hj & Hv & Hn) Hc _ IH];
    intros fuel items w Hu Hw Hf; (destruct fuel as [|fuel]; [cbn in Hf; lia|]).
  - cbn [fetch_pages]. rewrite (truthy_url _ Hu). cbn [negb].
    unfold http. psimpl. rewrite Hw, Hs. cbn [Z.eqb Pos.eqb negb].
    unfold resp_json. rewrite Hj. cbn [py_get py_iter]. rewrite Hv, Hn.
    cbn [default].
    destruct fuel; cbn [fetch_pages py_truthy negb]; unfold add_request;
      destruct w; cbn in *; subst; by rewrite ?List.app_nil_r.
  - cbn [fetch_pages]. rewrite (truthy_url _ Hu). cbn [negb].
    unfold http. psimpl. rewrite Hw, Hs. cbn [Z.eqb Pos.eqb negb].
    unfold resp_json. rewrite Hj. cbn [py_get py_iter]. rewrite Hv, Hn.
    cbn [default fmap option_fmap option_map]. unfold id. cbn [py_iter].
    rewrite (IH fuel (items ++ entries) (add_request (GraphGet url) w) Hc);
      [|by cbn; rewrite Hw|cbn in Hf; lia].
    cbn [fmap list_fmap fst snd concat add_request fs stdout requests].
    by rewrite <- !app_assoc.
Qed.

Lemma save_cache_ok cfg E items w :
  ∃ w', save_cache cfg E items w = (Ok (), w') ∧ requests w' = requests w.
Proof. destruct (save_cache_outcome cfg E items w) as (w' & ? & ? & _). eauto. Qed.

(** C4. Source pagination: when the source answers with a cursor on the
    pages 1..k and without one on page k+1, a live fetch makes k+1 requests,
    one a page, ends, and returns the entries of all the pages in their
    order, those without the file marker left out. *)
Theorem source_pagination cfg E w pages last fuel :
  GRAPH_API_BASE cfg +:+ ONEDRIVE_CAMERA_ROLL_PATH cfg ≠ "" →
  serves E (requests w) (GRAPH_API_BASE cfg +:+ ONEDRIVE_CAMERA_ROLL_PATH cfg)
    pages last →
  (length pages < fuel)%nat →
  Forall is_record (concat pages.*1 ++ last) →
  ∃ w',
    get_onedrive_camera_roll_files cfg E fuel true w
    = (Ok (filter has_file (concat pages.*1 ++ last)), w')
    ∧ requests w'
      = requests w
        ++ (GraphGet <$> (GRAPH_API_BASE cfg +:+ ONEDRIVE_CAMERA_ROLL_PATH cfg)
                         :: pages.*2)
    ∧ length (requests w') = (length (requests w) + S (length pages))%nat.
Proof.
  intros Hu Hs Hf Hrec.
  unfold get_onedrive_camera_roll_files. rewrite andb_false_r. cbn [andb].
  unfold live_fetch. psimpl.
  rewrite (fetch_pages_serves E _ _ _ _ Hs fuel [] (add_stdout _ w) Hu eq_refl Hf).
  cbn [app].
  set (w1 := {| fs := _; stdout := _; requests := _ |}).
  assert (∃ w', (if USE_ONEDRIVE_CACHE cfg
                 then save_cache cfg E (concat pages.*1 ++ last)
                 else (λ s, (Ok (), s))) w1 = (Ok (), w')
                ∧ requests w' = requests w1) as (w' & -> & Hr).
  { destruct (USE_ONEDRIVE_CACHE cfg); [apply save_cache_ok|by eexists]. }
  exists w'. rewrite (py_filter_contains_records _ Hrec). split; [done|].
  rewrite Hr. subst w1. cbn [requests add_stdout]. split; [done|].
  rewrite length_app, length_fmap. cbn [length]. by rewrite length_fmap.
Qed.

Lemma sample_source_serves :
  serves (sample_env WriteOk) [] start_url
    [([photo "a.jpg" 10; folder "Trips"], second_url)] [photo "b.jpg" 0].
Proof.
  apply serves_next.
  - split; [reflexivity|]. eexists. split; [reflexivity|]. split; reflexivity.
  - discriminate.
  - apply serves_last.
    split; [reflexivity|]. eexists. split; [reflexivity|]. split; reflexivity.
Defined.

Lemma source_pagination_witness :
  GRAPH_API_BASE default_config +:+ ONEDRIVE_CAMERA_ROLL_PATH default_config ≠ ""
  ∧ serves (sample_env WriteOk) (requests (disk ∅))
      (GRAPH_API_BASE default_config +:+ ONEDRIVE_CAMERA_ROLL_PATH default_config)
      [([photo "a.jpg" 10; folder "Trips"], second_url)] [photo "b.jpg" 0]
  ∧ (length [([photo "a.jpg" 10; folder "Trips"], second_url)] < 2)%nat
  ∧ Forall is_record sample_entries
  ∧ ∃ w',
      get_onedrive_camera_roll_files default_config (sample_env WriteOk) 2 true
        (disk ∅)
      = (Ok (filter has_file sample_entries), w')
      ∧ requests w' = [GraphGet start_url; GraphGet second_url]
      ∧ length (requests w') = 2%nat.
Proof.
  split; [discriminate|]. split; [exact sample_source_serves|].
  split; [repeat constructor|]. split; [exact sample_entries_records|].
  apply (source_pagination default_config (sample_env WriteOk) (disk ∅)
           [([photo "a.jpg" 10; folder "Trips"], second_url)] [photo "b.jpg" 0] 2).
  - discriminate.
  - exact sample_source_serves.
  - repeat constructor.
  - exact sample_entries_records.
Defined.

(** *** The target search *)

Lemma int_of_str_raises s e : int_of_str s = Raise e → e = ValueError.
Proof. unfold int_of_str. repeat case_match; congruence. Qed.

Lemma int_of_str_fuel s : int_of_str s ≠ OutOfFuel.
Proof. unfold int_of_str. repeat case_match; congruence. Qed.

(** The page the loop asks next is the one the spec names: the [except]
    clause catches whatever [int] raises. *)
Lemma next_page_number_spec page token :
  next_page_number page token = Ok (spec_next_page page token).
Proof.
  unfold next_page_number, spec_next_page.
  destruct token as [|b|z|s|l|m]; cbn [py_int]; try done.
  destruct (int_of_str s) as [z|e|] eqn:Hs;
    [done| |by apply int_of_str_fuel in Hs].
  by apply int_of_str_raises in Hs as ->.
Qed.

Lemma immich_pages_answers cfg E log page ps :
  answers cfg E log page ps →
  ∀ fuel assets w,
    requests w = log → (length ps ≤ fuel)%nat →
    immich_pages cfg E fuel page assets w
    = (Ok (assets ++ concat ps.*1),
       {| fs := fs w; stdout := stdout w;
          requests := log ++ (ImmichSearch (IMMICH_PAGE_SIZE cfg)
                                <$> pages_asked page ps) |}).
Proof.
  induction 1 as
    [log page items token (Hs & data & block & Hj & Ha & Hi & Hn) Hend
    |log page items token ps (Hs & data & block & Hj & Ha & Hi & Hn) Hne Ht _ IH];
    intros fuel assets w Hw Hf; (destruct fuel as [|fuel]; [cbn in Hf; lia|]).
  - cbn [immich_pages]. unfold http. psimpl. rewrite Hw, Hs.
    cbn [Z.eqb Pos.eqb negb].
    unfold resp_json. rewrite Hj. cbn [py_get]. rewrite Ha. cbn [default].
    unfold id. cbn [py_get]. rewrite Hi, Hn. cbn [default]. unfold id.
    cbn [concat fmap list_fmap fst pages_asked]. rewrite List.app_nil_r.
    destruct items as [|i items].
    + cbn [py_truthy negb]. unfold add_request. destruct w; cbn in *; subst.
      by rewrite List.app_nil_r.
    + cbn [py_truthy negb py_iter]. destruct Hend as [?|Hend]; [done|].
      destruct token as [t|]; cbn [token_present default] in *.
      * rewrite Hend. cbn [negb]. unfold add_request.
        by destruct w; cbn in *; subst.
      * cbn [py_truthy negb]. unfold add_request.
        by destruct w; cbn in *; subst.
  - cbn [immich_pages]. unfold http. psimpl. rewrite Hw, Hs.
    cbn [Z.eqb Pos.eqb negb].
    unfold resp_json. rewrite Hj. cbn [py_get]. rewrite Ha. cbn [default].
    unfold id. cbn [py_get]. rewrite Hi, Hn. cbn [default]. unfold id.
    destruct items as [|i items]; [done|].
    cbn [py_truthy negb py_iter]. rewrite Ht. cbn [negb].
    rewrite next_page_number_spec.
    rewrite (IH fuel _ (add_request _ w)); [|by cbn; rewrite Hw|cbn in Hf; lia].
    cbn [concat fmap list_fmap fst pages_asked add_request fs stdout requests].
    by rewrite <- !app_assoc.
Qed.


Lemma sample_target_answers :
  answers default_config (sample_env WriteOk) [] 1
    [ ([asset "a.jpg"], Some (JStr "2"));
      ([asset "x.jpg"], Some (JStr "next"));
      ([], None) ].
Proof.
  apply answers_next.
  - split; [reflexivity|]. eexists _, _. repeat split; reflexivity.
  - discriminate.
  - reflexivity.
  - apply answers_next.
    + split; [reflexivity|]. eexists _, _. repeat split; reflexivity.
    + discriminate.
    + reflexivity.
    + apply answers_last.
      * split; [reflexivity|]. eexists _, _. repeat split; reflexivity.
      * by left.
Defined.


(** *** Downloads *)

Section download.
Context (E : env).

Lemma mkdir_run dest w :
  (∀ c, fs w !! dest ≠ Some (File c)) →
  ∃ w', mkdir dest w = (Ok (), w')
    ∧ requests w' = requests w ∧ stdout w' = stdout w
    ∧ (∀ p, p ≠ dest → fs w' !! p = fs w !! p)
    ∧ (∀ p, is_Some (fs w !! p) → fs w' !! p = fs w !! p).
Proof.
  intros Hd. unfold mkdir. destruct (fs w !! dest) as [[c|]|] eqn:Hf.
  - by destruct (Hd c).
  - eexists. split; [done|]. done.
  - eexists. split; [done|]. cbn. split; [done|]. split; [done|]. split.
    + intros p Hp. by rewrite lookup_insert_ne.
    + intros p [x Hx]. rewrite lookup_insert_ne; [done|]. intros ->. congruence.
Qed.

(** A bar that is absent or passes the test moves by the size. *)
Lemma bump_overall_ready size w bar :
  (0 ≤ size)%Z → bar_ready E bar →
  bump_overall E size {| dl_world := w; overall_pbar := bar |}
  = (Ok (), {| dl_world := w; overall_pbar := tqdm_update size <$> bar |}).
Proof.
  intros Hs [->|(p & -> & Hp)]; unfold bump_overall; dsimpl.
  - done.
  - rewrite Hp. cbn [andb]. destruct (Z.ltb_spec 0 size) as [Hlt|Hge]; [done|].
    assert (size = 0) as -> by lia. cbn. destruct p as [t k]. unfold tqdm_update.
    cbn. by rewrite Z.add_0_r.
Qed.

(** With a size of zero the guard [size > 0] keeps the state as it is,
    whatever the truth value of the bar; the call raises when the truth test
    does. *)
Lemma bump_overall_zero_run s : ∃ r, bump_overall E 0 s = (r, s).
Proof.
  unfold bump_overall. dsimpl.
  destruct (match overall_pbar s with
            | Some p => bar_bool E p
            | None => Ok false
            end) as [b| |]; [|by eexists..].
  cbn [Z.ltb Z.compare]. rewrite andb_false_r. by eexists.
Qed.

Lemma bump_overall_zero s :
  overall_pbar (bump_overall E 0 s).2 = overall_pbar s.
Proof. by destruct (bump_overall_zero_run s) as [r ->]. Qed.

Lemma declared_size_falsy m : size_falsy m → declared_size (JObj m) = Ok 0.
Proof.
  intros H. unfold declared_size. cbn [py_get]. psimpl.
  destruct (m !! "size") as [v|] eqn:Hv; cbn [default]; unfold id.
  - by rewrite (H v Hv).
  - done.
Qed.

(** The start of the function on a well-formed record: the folder is made
    and the test [dest_path.exists()] decides between the two branches. *)
Lemma download_onedrive_file_run m file_id name size dest w bar :
  m !! "id" = Some file_id →
  m !! "name" = Some (JStr name) →
  declared_size (JObj m) = Ok size →
  download_onedrive_file E (JObj m) dest {| dl_world := w; overall_pbar := bar |}
  = match mkdir dest w with
    | (Ok _, w1) =>
        if path_exists (dest_path_of dest name) w1
        then bump_overall E size {| dl_world := w1; overall_pbar := bar |}
        else download_content E file_id (JStr name) size (dest_path_of dest name)
               {| dl_world := w1; overall_pbar := bar |}
    | (Raise e, w1) => (Raise e, {| dl_world := w1; overall_pbar := bar |})
    | (OutOfFuel, w1) => (OutOfFuel, {| dl_world := w1; overall_pbar := bar |})
    end.
Proof.
  intros Hid Hname Hsize. unfold download_onedrive_file. dsimpl. cbn [py_getitem].
  rewrite Hid, Hname, Hsize. destruct (mkdir dest w) as [[[]| |] w1]; [|done..].
  cbn [path_join dl_world overall_pbar]. fold (dest_path_of dest name).
  by destruct (path_exists (dest_path_of dest name) w1).
Qed.

(** The request branch when the status is rejected: the failure line and the
    bar. *)
Lemma download_content_rejected file_id name size dest_path w bar :
  rejected (remote E (requests w) (GraphContent file_id)) →
  download_content E file_id (JStr name) size dest_path
    {| dl_world := w; overall_pbar := bar |}
  = bump_overall E size
      {| dl_world :=
           add_stdout
             (failure_line name (remote E (requests w) (GraphContent file_id)))
             (add_request (GraphContent file_id) w);
         overall_pbar := bar |}.
Proof.
  intros [H200 H302]. unfold download_content, http. dsimpl.
  destruct (Z.eqb_spec (status_code (remote E (requests w) (GraphContent file_id)))
              200) as [?|_]; [done|].
  destruct (Z.eqb_spec (status_code (remote E (requests w) (GraphContent file_id)))
              302) as [?|_]; [done|].
  by cbn [orb negb].
Qed.

End download.

(** The sum that [main] computes bounds every size of the batch. *)
Lemma total_size_bounds files :
  Forall (λ f, ∃ z, declared_size f = Ok z ∧ (0 ≤ z)%Z) files →
  ∀ acc, ∃ t, total_size files acc = Ok t ∧ (acc ≤ t)%Z
    ∧ ∀ f z, f ∈ files → declared_size f = Ok z → (acc + z ≤ t)%Z.
Proof.
  induction 1 as [|f files (z & Hz & Hpos) _ IH]; intros acc.
  - exists acc. split; [done|]. split; [lia|].
    intros f z Hf. by apply elem_of_nil in Hf.
  - destruct (IH (acc + z)%Z) as (t & Ht & Hle & Hall).
    exists t. cbn [total_size]. rewrite Hz. split; [done|]. split; [lia|].
    intros f' z' [->|Hf]%elem_of_cons Hz'.
    + rewrite Hz in Hz'. injection Hz' as <-. lia.
    + specialize (Hall f' z' Hf Hz'). lia.
Qed.

(** The bar that [main] makes for a batch of records with sizes, under
    tqdm's own truth test: for every record of the batch the bar passes the
    test or the size of the record is zero. *)
Lemma main_bar_ready files t f z k :
  Forall (λ f, ∃ z, declared_size f = Ok z ∧ (0 ≤ z)%Z) files →
  total_size files 0 = Ok t → f ∈ files → declared_size f = Ok z →
  tqdm_bool {| total := if Z.ltb 0 t then Some t else None; n := k |} = Ok true
  ∨ z = 0.
Proof.
  intros Hall Ht Hf Hz.
  destruct (total_size_bounds files Hall 0) as (t' & Ht' & _ & Hle).
  rewrite Ht in Ht'. injection Ht' as <-.
  specialize (Hle f z Hf Hz).
  assert (0 ≤ z)%Z as Hpos.
  { eapply Forall_forall in Hall as (z' & Hz' & ?); [|done].
    rewrite Hz in Hz'. by injection Hz' as ->. }
  destruct (decide (z = 0)) as [->|Hne]; [by right|left].
  unfold tqdm_bool. destruct (Z.ltb_spec 0 t) as [Hlt|Hge]; [|lia].
  cbn [total]. by destruct (Z.ltb_spec 0 t); [|lia].
Qed.

(** C5. A record whose file is already at the destination path: the call
    makes no request, the aggregate bar (when one is supplied) moves by the
    declared size, and what is at the path stays as it was; with a bar that
    is absent or passes the test of the code the call returns normally. *)
Theorem existing_file_is_skipped E m file_id name size dest w bar node :
  m !! "id" = Some file_id →
  m !! "name" = Some (JStr name) →
  declared_size (JObj m) = Ok size → (0 ≤ size)%Z →
  (∀ c, fs w !! dest ≠ Some (File c)) →
  fs w !! dest_path_of dest name = Some node →
  bar_ready E bar ∨ size = 0 →
  ∃ r w',
    download_onedrive_file E (JObj m) dest {| dl_world := w; overall_pbar := bar |}
    = (r, {| dl_world := w'; overall_pbar := tqdm_update size <$> bar |})
    ∧ requests w' = requests w
    ∧ fs w' !! dest_path_of dest name = Some node
    ∧ stdout w' = stdout w
    ∧ (bar_ready E bar → r = Ok ()).
Proof.
  intros Hid Hname Hsize Hpos Hdest Hfile Hbar.
  destruct (mkdir_run dest w Hdest) as (w' & Hmk & Hreq & Hout & _ & Hkeep).
  assert (fs w' !! dest_path_of dest name = Some node) as Hfile'
    by (by rewrite (Hkeep _ (mk_is_Some _ _ Hfile))).
  assert (download_onedrive_file E (JObj m) dest
            {| dl_world := w; overall_pbar := bar |}
          = bump_overall E size {| dl_world := w'; overall_pbar := bar |}) as ->.
  { rewrite (download_onedrive_file_run E m file_id name size) by done.
    rewrite Hmk. unfold path_exists.
    by rewrite bool_decide_eq_true_2 by (by rewrite Hfile'). }
  destruct Hbar as [Hready| ->].
  - exists (Ok ()), w'. by rewrite bump_overall_ready.
  - destruct (bump_overall_zero_run E {| dl_world := w'; overall_pbar := bar |})
      as [r Hrun].
    assert (tqdm_update 0 <$> bar = bar) as Hsame.
    { destruct bar as [[t k]|]; [|done]. unfold tqdm_update. cbn.
      by rewrite Z.add_0_r. }
    exists r, w'. rewrite Hsame. do 4 (split; [done|]).
    intros Hready. rewrite bump_overall_ready in Hrun by done.
    by injection Hrun as <-.
Qed.

Lemma sample_env_bar_ready : bar_ready (sample_env WriteOk) (Some sample_bar).
Proof. right. exists sample_bar. split; reflexivity. Defined.

Lemma downloads_is_folder (files : gmap string node) :
  files !! downloads = Some Dir → ∀ c, fs (disk files) !! downloads ≠ Some (File c).
Proof. intros H c. cbn [disk fs]. rewrite H. discriminate. Defined.

Lemma existing_file_is_skipped_witness :
  photo_fields "a.jpg" 10 !! "id" = Some (JStr "id-a.jpg")
  ∧ photo_fields "a.jpg" 10 !! "name" = Some (JStr "a.jpg")
  ∧ declared_size (photo "a.jpg" 10) = Ok 10
  ∧ (0 ≤ 10)%Z
  ∧ (∀ c, fs disk_with_a !! downloads ≠ Some (File c))
  ∧ fs disk_with_a !! dest_path_of downloads "a.jpg" = Some (File "JFIF")
  ∧ (bar_ready (sample_env WriteOk) (Some sample_bar) ∨ 10 = 0)
  ∧ ∃ r w',
      download_onedrive_file (sample_env WriteOk) (photo "a.jpg" 10) downloads
        {| dl_world := disk_with_a; overall_pbar := Some sample_bar |}
      = (r, {| dl_world := w';
               overall_pbar := Some {| total := Some 10; n := 10 |} |})
      ∧ requests w' = []
      ∧ fs w' !! dest_path_of downloads "a.jpg" = Some (File "JFIF")
      ∧ stdout w' = []
      ∧ (bar_ready (sample_env WriteOk) (Some sample_bar) → r = Ok ()).
Proof.
  split; [reflexivity|]. split; [reflexivity|]. split; [reflexivity|].
  split; [discriminate|]. split; [by apply downloads_is_folder|].
  split; [reflexivity|]. split; [left; exact sample_env_bar_ready|].
  apply (existing_file_is_skipped (sample_env WriteOk) (photo_fields "a.jpg" 10)
           (JStr "id-a.jpg") "a.jpg" 10 downloads disk_with_a (Some sample_bar)
           (File "JFIF")).
  - reflexivity.
  - reflexivity.
  - reflexivity.
  - discriminate.
  - by apply downloads_is_folder.
  - reflexivity.
  - left. exact sample_env_bar_ready.
Defined.

(** A download whose content request is answered with a status other than
    200 and 302, under a bar that is absent or passes the test of the code:
    the call prints the status and the body, moves the aggregate bar by the
    declared size, writes no file, and returns, so that the loop over the
    missing files goes on with the next one. *)
Lemma rejected_status_with_ready_bar E m file_id name size dest w bar rest :
  m !! "id" = Some file_id →
  m !! "name" = Some (JStr name) →
  declared_size (JObj m) = Ok size → (0 ≤ size)%Z →
  (∀ c, fs w !! dest ≠ Some (File c)) →
  fs w !! dest_path_of dest name = None →
  dest_path_of dest name ≠ dest →
  rejected (remote E (requests w) (GraphContent file_id)) →
  bar_ready E bar →
  ∃ w',
    download_onedrive_file E (JObj m) dest {| dl_world := w; overall_pbar := bar |}
    = (Ok (), {| dl_world := w'; overall_pbar := tqdm_update size <$> bar |})
    ∧ stdout w'
      = stdout w ++ [failure_line name (remote E (requests w) (GraphContent file_id))]
    ∧ requests w' = requests w ++ [GraphContent file_id]
    ∧ fs w' !! dest_path_of dest name = None
    ∧ download_all E (JObj m :: rest) dest {| dl_world := w; overall_pbar := bar |}
      = download_all E rest dest
          {| dl_world := w'; overall_pbar := tqdm_update size <$> bar |}.
Proof.
  intros Hid Hname Hsize Hpos Hdest Hfile Hne Hrej Hbar.
  destruct (mkdir_run dest w Hdest) as (w1 & Hmk & Hreq & Hout & Hother & _).
  assert (download_onedrive_file E (JObj m) dest
            {| dl_world := w; overall_pbar := bar |}
          = (Ok (), {| dl_world :=
                         add_stdout
                           (failure_line name
                              (remote E (requests w) (GraphContent file_id)))
                           (add_request (GraphContent file_id) w1);
                       overall_pbar := tqdm_update size <$> bar |})) as Hrun.
  { rewrite (download_onedrive_file_run E m file_id name size) by done.
    rewrite Hmk. unfold path_exists. rewrite (Hother _ Hne), Hfile.
    rewrite bool_decide_eq_false_2 by (by intros [? ?]).
    rewrite download_content_rejected by (by rewrite Hreq).
    by rewrite Hreq, bump_overall_ready. }
  eexists. split; [exact Hrun|]. cbn [stdout requests fs add_stdout add_request].
  rewrite Hout, Hreq, (Hother _ Hne). do 3 (split; [done|]).
  cbn [download_all]. dsimpl. by rewrite Hrun.
Qed.

Lemma not_found_rejected : rejected not_found.
Proof. split; discriminate. Defined.

(** C6, the code fails the claim. A batch of two missing files that declare
    no size, on a service that answers every content request with 404:
    [main] makes the aggregate bar with no total, the first file is
    rejected, its failure line is printed, and the test [if overall_pbar]
    raises tqdm's [TypeError]; the call does not return, the loop ends and
    the second file is never requested. *)
Theorem unknown_total_bar_aborts_batch :
  rejected (remote (sample_env WriteOk) [] (GraphContent (JStr "id-c.jpg")))
  ∧ total_size [JObj (unsized_photo "c.jpg"); photo "b.jpg" 0] 0 = Ok 0
  ∧ download_onedrive_file (sample_env WriteOk) (JObj (unsized_photo "c.jpg"))
      downloads {| dl_world := disk ∅;
                   overall_pbar := Some {| total := None; n := 0 |} |}
    = (Raise TypeError,
       {| dl_world := {| fs := {[ downloads := Dir ]};
                         stdout := [failure_line "c.jpg" not_found];
                         requests := [GraphContent (JStr "id-c.jpg")] |};
          overall_pbar := Some {| total := None; n := 0 |} |})
  ∧ download_missing (sample_env WriteOk) default_config
      [JObj (unsized_photo "c.jpg"); photo "b.jpg" 0] (disk ∅)
    = (Raise TypeError,
       {| fs := {[ downloads := Dir ]};
          stdout := [failure_line "c.jpg" not_found];
          requests := [GraphContent (JStr "id-c.jpg")] |}).
Proof.
  split; [exact not_found_rejected|].
  split; [reflexivity|]. split; vm_compute; reflexivity.
Qed.

(** C10. A record whose size field is absent or falsy: in the branch of the
    file that exists and in the branch of the rejected status the aggregate
    bar is left as it was, whatever the bar. *)
Theorem falsy_size_leaves_bar E m file_id name dest s :
  size_falsy m →
  m !! "id" = Some file_id →
  m !! "name" = Some (JStr name) →
  is_Some (fs (dl_world s) !! dest_path_of dest name)
  ∨ rejected (remote E (requests (dl_world s)) (GraphContent file_id)) →
  overall_pbar (download_onedrive_file E (JObj m) dest s).2 = overall_pbar s.
Proof.
  intros Hsize Hid Hname Hbranch. destruct s as [w bar].
  cbn [dl_world overall_pbar] in *.
  rewrite (download_onedrive_file_run E m file_id name 0)
    by (done || by apply declared_size_falsy).
  assert (∀ w1, requests w1 = requests w →
            (is_Some (fs w !! dest_path_of dest name) →
             is_Some (fs w1 !! dest_path_of dest name)) →
            overall_pbar
              (if path_exists (dest_path_of dest name) w1
               then bump_overall E 0 {| dl_world := w1; overall_pbar := bar |}
               else download_content E file_id (JStr name) 0
                      (dest_path_of dest name)
                      {| dl_world := w1; overall_pbar := bar |}).2 = bar) as Hrest.
  { intros w1 Hreq Hex. unfold path_exists. destruct (bool_decide _) eqn:Hx.
    - apply (bump_overall_zero E {| dl_world := w1; overall_pbar := bar |}).
    - destruct Hbranch as [Hb|Hrej].
      + apply bool_decide_eq_false_1 in Hx. by destruct Hx, Hex.
      + rewrite download_content_rejected by (by rewrite Hreq).
        apply (bump_overall_zero E {| dl_world := _; overall_pbar := bar |}). }
  unfold mkdir. destruct (fs w !! dest) as [[c|]|] eqn:Hd; [done| |].
  - by apply Hrest.
  - apply Hrest; [done|]. cbn [fs set_fs]. intros [x Hx].
    destruct (decide (dest_path_of dest name = dest)) as [->|Hne].
    + by rewrite lookup_insert_eq.
    + by rewrite lookup_insert_ne.
Qed.

Lemma unsized_photo_falsy : size_falsy (unsized_photo "c.jpg").
Proof. intros v H. discriminate H. Defined.

Lemma falsy_size_leaves_bar_witness :
  size_falsy (unsized_photo "c.jpg")
  ∧ unsized_photo "c.jpg" !! "id" = Some (JStr "id-c.jpg")
  ∧ unsized_photo "c.jpg" !! "name" = Some (JStr "c.jpg")
  ∧ (is_Some (fs disk_without_a !! dest_path_of downloads "c.jpg")
     ∨ rejected (remote (sample_env WriteOk) (requests disk_without_a)
                   (GraphContent (JStr "id-c.jpg"))))
  ∧ overall_pbar
      (download_onedrive_file (sample_env WriteOk) (JObj (unsized_photo "c.jpg"))
         downloads
         {| dl_world := disk_without_a; overall_pbar := Some open_ended_bar |}).2
    = Some open_ended_bar.
Proof.
  split; [exact unsized_photo_falsy|]. split; [reflexivity|].
  split; [reflexivity|]. split; [right; exact not_found_rejected|].
  apply (falsy_size_leaves_bar (sample_env WriteOk) (unsized_photo "c.jpg")
           (JStr "id-c.jpg") "c.jpg" downloads
           {| dl_world := disk_without_a; overall_pbar := Some open_ended_bar |}).
  - exact unsized_photo_falsy.
  - reflexivity.
  - reflexivity.
  - right. exact not_found_rejected.
Defined.

(* ===================================================================== *)
(** ** Further properties *)
(* ===================================================================== *)

(** *** Names of the target, whatever the assets *)

Lemma immich_filenames_loop_app l1 l2 names :
  immich_filenames_loop (l1 ++ l2) names
  = (names' ← immich_filenames_loop l1 names; immich_filenames_loop l2 names').
Proof.
  revert names. induction l1 as [|a l1 IH]; intros names; [done|].
  cbn [app immich_filenames_loop].
  destruct (asset_name a) as [v| |]; [|done..]. psimpl.
  destruct (py_truthy v); [|apply IH].
  destruct (py_hash v) as [k| |]; [|done..]. apply IH.
Qed.

Lemma immich_filenames_loop_acc l names :
  immich_filenames_loop l names
  = (s ← immich_filenames_loop l ∅; Ok (names ∪ s)).
Proof.
  revert names. induction l as [|a l IH]; intros names.
  - cbn. f_equal. set_solver.
  - cbn [immich_filenames_loop].
    destruct (asset_name a) as [v| |]; [|done..]. psimpl.
    destruct (py_truthy v); [|apply IH].
    destruct (py_hash v) as [k| |]; [|done..].
    rewrite (IH (names ∪ {[k]})), (IH (∅ ∪ {[k]})).
    destruct (immich_filenames_loop l ∅) as [s| |]; [|done..].
    psimpl. f_equal. set_solver.
Qed.

Lemma py_hash_truthy v k : py_truthy v = true → py_hash v = Ok k → ¬ falsy_key k.
Proof.
  destruct v as [|[]|z|s|l|m]; cbn; try done; intros Ht [= <-]; intros [?|[?|?]];
    try done.
  - injection H as ->. done.
  - injection H as ->. done.
Qed.

Lemma immich_filenames_loop_truthy l names r :
  immich_filenames_loop l names = Ok r →
  (∀ k, k ∈ names → ¬ falsy_key k) → ∀ k, k ∈ r → ¬ falsy_key k.
Proof.
  revert names. induction l as [|a l IH]; intros names.
  - by intros [= <-].
  - cbn [immich_filenames_loop].
    destruct (asset_name a) as [v| |]; [|done..]. psimpl.
    destruct (py_truthy v) eqn:Ht; [|apply IH].
    destruct (py_hash v) as [k| |] eqn:Hk; [|done..].
    intros Hr Hn. eapply IH; [done|].
    intros k' [?| ->%elem_of_singleton]%elem_of_union; [by apply Hn|].
    by eapply py_hash_truthy.
Qed.

(** X1. Whatever the assets are, a set that [get_immich_filenames] returns
    holds no empty string, no [None] and no zero: a name that is falsy is
    never added. *)
Theorem filenames_never_falsy assets names :
  get_immich_filenames assets = Ok names →
  (KStr "" ∉ names) ∧ (KNone ∉ names) ∧ (KInt 0 ∉ names).
Proof.
  intros H.
  pose proof (immich_filenames_loop_truthy _ _ _ H) as Hk.
  assert (∀ k, k ∈ names → ¬ falsy_key k) as Hall by (apply Hk; set_solver).
  repeat split; intros Hin; apply (Hall _ Hin); unfold falsy_key; auto.
Qed.

(** X2. The names of two lists of assets put together are the union of the
    names of each, in either order: the result does not depend on how the
    assets are spread over the pages of the search. *)
Theorem filenames_of_concatenation l1 l2 n1 n2 :
  get_immich_filenames l1 = Ok n1 → get_immich_filenames l2 = Ok n2 →
  get_immich_filenames (l1 ++ l2) = Ok (n1 ∪ n2)
  ∧ get_immich_filenames (l2 ++ l1) = Ok (n1 ∪ n2).
Proof.
  unfold get_immich_filenames. intros H1 H2.
  rewrite !immich_filenames_loop_app, H1, H2. psimpl.
  rewrite (immich_filenames_loop_acc l2 n1), (immich_filenames_loop_acc l1 n2), H1, H2.
  psimpl. split; f_equal. set_solver.
Qed.

Lemma asset_name_bad a : bad_asset a → asset_name a = Raise AttributeError.
Proof.
  destruct a as [| | | | |m]; try done.
  intros ([H1 H2] & v & Hv & Hs). unfold asset_name. cbn [py_get]. psimpl.
  destruct (m !! "originalFileName") as [v1|] eqn:E1; cbn [default]; unfold id;
    [rewrite (H1 v1 eq_refl)|cbn [py_truthy]];
    (destruct (m !! "fileName") as [v2|] eqn:E2; cbn [default]; unfold id;
      [rewrite (H2 v2 eq_refl)|cbn [py_truthy]]);
    rewrite Hv; cbn [default]; unfold id;
    destruct v; try done; by destruct (Hs s).
Qed.

(** X3. An asset that is no dict, or that has no non-empty name field and
    an ["originalPath"] that is no string ([null], say) makes
    [get_immich_filenames] raise an [AttributeError]; the assets after it
    are not looked at. *)
Theorem bad_asset_raises pre a post :
  Forall is_asset pre → bad_asset a →
  get_immich_filenames (pre ++ a :: post) = Raise AttributeError.
Proof.
  intros Hpre Ha. unfold get_immich_filenames.
  rewrite immich_filenames_loop_app, immich_filenames_loop_resolved by done.
  psimpl. cbn [immich_filenames_loop]. by rewrite asset_name_bad.
Qed.

Lemma bad_asset_raises_witness :
  Forall is_asset [asset "a.jpg"]
  ∧ bad_asset (JObj {[ "originalPath" := JNull ]})
  ∧ get_immich_filenames
      ([asset "a.jpg"] ++ JObj {[ "originalPath" := JNull ]} :: [asset "b.jpg"])
    = Raise AttributeError.
Proof.
  assert (Forall is_asset [asset "a.jpg"]) as H1.
  { repeat constructor. eexists. split; [reflexivity|].
    repeat split; try (by left); right; by eexists. }
  assert (bad_asset (JObj {[ "originalPath" := JNull ]})) as H2.
  { split; [split; intros v H; discriminate H|].
    exists JNull. split; [reflexivity|]. intros s H; discriminate H. }
  split; [exact H1|]. split; [exact H2|].
  exact (bad_asset_raises [asset "a.jpg"] _ [asset "b.jpg"] H1 H2).
Defined.

(** *** The difference, whatever the records *)

Lemma name_set_app_raises pre f post e :
  Forall is_named pre → name_key f = Raise e →
  name_set (pre ++ f :: post) = Raise e.
Proof.
  intros Hpre Hf. induction Hpre as [|g pre Hg _ IH]; cbn [app name_set].
  - by rewrite Hf.
  - by rewrite name_key_named, IH.
Qed.

(** X4. A source record without a ["name"] key makes [list_missing_files]
    raise [KeyError("name")], whatever the target names are. *)
Theorem record_without_name_raises pre m post T :
  Forall is_named pre → m !! "name" = None →
  list_missing_files (pre ++ JObj m :: post) T = Raise (KeyError "name").
Proof.
  intros Hpre Hm. unfold list_missing_files.
  rewrite (name_set_app_raises pre (JObj m) post (KeyError "name")); [done..|].
  unfold name_key. cbn [py_getitem]. by rewrite Hm.
Qed.

Lemma record_without_name_raises_witness :
  Forall is_named example_files
  ∧ ({[ "id" := JStr "x" ]} : gmap string json) !! "name" = None
  ∧ list_missing_files (example_files ++ JObj {[ "id" := JStr "x" ]} :: []) ∅
    = Raise (KeyError "name").
Proof.
  split; [exact example_files_named|]. split; [reflexivity|].
  exact (record_without_name_raises example_files {[ "id" := JStr "x" ]} [] ∅
           example_files_named eq_refl).
Defined.

Lemma diff_run S assets :
  Forall is_named S → Forall is_asset assets →
  ∃ names,
    get_immich_filenames assets = Ok names
    ∧ list_missing_files S names = Ok (filter (is_missing assets) S).
Proof.
  intros HS Ha. eexists. split.
  - unfold get_immich_filenames. by apply immich_filenames_loop_resolved.
  - rewrite list_missing_files_filter by done. f_equal.
    apply filter_ext_Forall, Forall_forall. intros f _. unfold is_missing.
    rewrite not_elem_of_union, elem_of_list_to_set, list_elem_of_fmap.
    split.
    + intros [_ Hn]. destruct (decide (record_name f = "")) as [?|Hne]; [by left|].
      right. intros Hin. apply Hn. exists (record_name f). split; [done|].
      by apply list_elem_of_filter.
    + intros Hor. split; [set_solver|].
      intros (s & [= <-] & [Hne Hin]%list_elem_of_filter). by destruct Hor.
Qed.

(** X5. The comparison end to end: for source records with names and typed
    target assets, [list_missing_files] applied to the set that
    [get_immich_filenames] returns keeps, in the order of the listing, the
    records whose name is the resolved name of no asset; a record with an
    empty name is always kept. *)
Theorem missing_from_assets S assets :
  Forall is_named S → Forall is_asset assets →
  ∃ names,
    get_immich_filenames assets = Ok names
    ∧ list_missing_files S names = Ok (filter (is_missing assets) S).
Proof. apply diff_run. Qed.

Lemma filenames_never_falsy_witness :
  get_immich_filenames example_assets = Ok {[ KStr "a.jpg"; KStr "b.jpg"; KStr "c.jpg" ]}
  ∧ (KStr "" ∉ ({[ KStr "a.jpg"; KStr "b.jpg"; KStr "c.jpg" ]} : gset pykey))
  ∧ (KNone ∉ ({[ KStr "a.jpg"; KStr "b.jpg"; KStr "c.jpg" ]} : gset pykey))
  ∧ (KInt 0 ∉ ({[ KStr "a.jpg"; KStr "b.jpg"; KStr "c.jpg" ]} : gset pykey)).
Proof.
  split; [vm_compute; reflexivity|].
  apply (filenames_never_falsy example_assets). vm_compute; reflexivity.
Defined.

Lemma filenames_of_concatenation_witness :
  get_immich_filenames [asset "a.jpg"] = Ok {[ KStr "a.jpg" ]}
  ∧ get_immich_filenames [asset "x.jpg"; JObj ∅] = Ok {[ KStr "x.jpg" ]}
  ∧ get_immich_filenames ([asset "a.jpg"] ++ [asset "x.jpg"; JObj ∅])
    = Ok ({[ KStr "a.jpg" ]} ∪ {[ KStr "x.jpg" ]})
  ∧ get_immich_filenames ([asset "x.jpg"; JObj ∅] ++ [asset "a.jpg"])
    = Ok ({[ KStr "a.jpg" ]} ∪ {[ KStr "x.jpg" ]}).
Proof.
  split; [vm_compute; reflexivity|]. split; [vm_compute; reflexivity|].
  apply (filenames_of_concatenation [asset "a.jpg"] [asset "x.jpg"; JObj ∅]);
    vm_compute; reflexivity.
Defined.

Lemma missing_from_assets_witness :
  Forall is_named example_files
  ∧ Forall is_asset example_assets
  ∧ ∃ names,
      get_immich_filenames example_assets = Ok names
      ∧ list_missing_files example_files names
        = Ok (filter (is_missing example_assets) example_files).
Proof.
  split; [exact example_files_named|]. split; [exact example_assets_typed|].
  exact (missing_from_assets example_files example_assets
           example_files_named example_assets_typed).
Defined.

(** *** What a listing leaves alone *)

Lemma grows_refl P k w : grows P k w w.
Proof. split; [done|]. exists []. rewrite List.app_nil_r. repeat split; [constructor|cbn; lia]. Qed.

Lemma grows_stdout P k line w w' : grows P k (add_stdout line w) w' → grows P k w w'.
Proof. done. Qed.

Lemma grows_request P k r w w' :
  P r → grows P k (add_request r w) w' → grows P (S k) w w'.
Proof.
  intros Hr (Hfs & L & HL & HP & Hlen). split; [done|].
  exists (r :: L). cbn [add_request requests] in HL. rewrite HL, <- app_assoc.
  repeat split; [by constructor|cbn; lia].
Qed.

Lemma grows_print P k line w : grows P k w (add_stdout line w).
Proof. apply grows_stdout with line, grows_refl. Qed.

Lemma fetch_pages_grows E fuel url items w :
  grows is_listing_get fuel w (fetch_pages E fuel url items w).2.
Proof.
  revert url items w. induction fuel as [|fuel IH]; intros url items w;
    cbn [fetch_pages]; (destruct (negb (py_truthy url)); [apply grows_refl|]).
  - apply grows_refl.
  - psimpl. destruct url as [| | |u| |]; try apply grows_refl.
    unfold http. cbn beta iota.
    apply (grows_request _ _ (GraphGet u)); [by eexists|].
    destruct (negb _); psimpl; [apply grows_print|].
    destruct (resp_json _) as [data| |]; [|apply grows_refl..].
    destruct (py_get data "value" _) as [value| |]; [|apply grows_refl..].
    destruct (py_iter value) as [entries| |]; [|apply grows_refl..].
    destruct (py_get data "@odata.nextLink" _) as [url'| |]; [|apply grows_refl..].
    apply IH.
Qed.

Lemma immich_pages_grows cfg E fuel page assets w :
  grows (is_search cfg) fuel w (immich_pages cfg E fuel page assets w).2.
Proof.
  revert page assets w. induction fuel as [|fuel IH]; intros page assets w;
    cbn [immich_pages]; [apply grows_refl|].
  unfold http. psimpl.
  apply (grows_request _ _ (ImmichSearch (IMMICH_PAGE_SIZE cfg) page)); [by eexists|].
  destruct (negb _); psimpl; [apply grows_print|].
  destruct (resp_json _) as [data| |]; [|apply grows_refl..].
  destruct (py_get data "assets" _) as [block| |]; [|apply grows_refl..].
  destruct (py_get block "items" _) as [items| |]; [|apply grows_refl..].
  destruct (negb (py_truthy items)); [apply grows_refl|].
  destruct (py_iter items) as [entries| |]; [|apply grows_refl..].
  destruct (py_get block "nextPage" _) as [next_page| |]; [|apply grows_refl..].
  destruct (negb (py_truthy next_page)); [apply grows_refl|].
  destruct (next_page_number page next_page) as [page'| |]; [|apply grows_refl..].
  apply IH.
Qed.

(** X6. However [get_immich_assets] ends, it leaves the disk as it was and
    the requests it made, one for each unit of fuel at most, are searches
    with the page size of the configuration. *)
Theorem immich_listing_frame cfg E fuel w :
  fs (get_immich_assets cfg E fuel w).2 = fs w
  ∧ ∃ L, requests (get_immich_assets cfg E fuel w).2 = requests w ++ L
         ∧ Forall (is_search cfg) L ∧ (length L ≤ fuel)%nat.
Proof. apply immich_pages_grows. Qed.

Lemma live_fetch_frame cfg E fuel w :
  (∃ L, requests (live_fetch cfg E fuel w).2 = requests w ++ L
        ∧ Forall is_listing_get L ∧ (length L ≤ fuel)%nat)
  ∧ (∀ p, p ≠ ONEDRIVE_CACHE_FILE cfg →
          fs (live_fetch cfg E fuel w).2 !! p = fs w !! p)
  ∧ (USE_ONEDRIVE_CACHE cfg = false → fs (live_fetch cfg E fuel w).2 = fs w).
Proof.
  unfold live_fetch. psimpl.
  pose proof (fetch_pages_grows E fuel
                (JStr (GRAPH_API_BASE cfg +:+ ONEDRIVE_CAMERA_ROLL_PATH cfg)) []
                (add_stdout
                   "Fetching OneDrive Camera Roll metadata from Graph API (this may take a while)..."
                   w)) as (Hfs & HL).
  destruct (fetch_pages E fuel _ [] _) as [[items|e|] w1]; cbn [snd] in *;
    cbn [add_stdout fs requests] in *; try (by rewrite Hfs).
  destruct (USE_ONEDRIVE_CACHE cfg).
  - destruct (save_cache_outcome cfg E items w1) as (w2 & -> & Hreq & Hother & _).
    destruct (py_filter_contains "file" items); cbn [snd]; rewrite Hreq;
      (split; [done|]); (split; [|done]); intros p Hp;
      by rewrite Hother, Hfs.
  - destruct (py_filter_contains "file" items); cbn [snd]; by rewrite Hfs.
Qed.

Lemma get_onedrive_frame cfg E fuel refresh w :
  (∃ L, requests (get_onedrive_camera_roll_files cfg E fuel refresh w).2
        = requests w ++ L
        ∧ Forall is_listing_get L ∧ (length L ≤ fuel)%nat)
  ∧ (∀ p, p ≠ ONEDRIVE_CACHE_FILE cfg →
          fs (get_onedrive_camera_roll_files cfg E fuel refresh w).2 !! p = fs w !! p)
  ∧ (USE_ONEDRIVE_CACHE cfg = false →
     fs (get_onedrive_camera_roll_files cfg E fuel refresh w).2 = fs w).
Proof.
  unfold get_onedrive_camera_roll_files.
  destruct (_ && _ && _)%bool eqn:Hc; [|apply live_fetch_frame].
  unfold try_except. rewrite load_cache_run.
  destruct (_ ← cache_document cfg E w; _) as [r|e|].
  - cbn [snd add_stdout requests fs]. split; [|done].
    exists []. rewrite List.app_nil_r. repeat split; [constructor|cbn; lia].
  - destruct (_ || _)%bool.
    + psimpl. apply (live_fetch_frame cfg E fuel (add_stdout _ (add_stdout _ w))).
    + cbn [snd add_stdout requests fs]. split; [|done].
      exists []. rewrite List.app_nil_r. repeat split; [constructor|cbn; lia].
  - cbn [snd add_stdout requests fs]. split; [|done].
    exists []. rewrite List.app_nil_r. repeat split; [constructor|cbn; lia].
Qed.

(** X7. However [get_onedrive_camera_roll_files] ends, the requests it made
    are GETs of the source listing, the disk is the same away from the
    cache file, and the same everywhere when caching is off. *)
Theorem onedrive_listing_frame cfg E fuel refresh w :
  (∃ L, requests (get_onedrive_camera_roll_files cfg E fuel refresh w).2
        = requests w ++ L
        ∧ Forall is_listing_get L ∧ (length L ≤ fuel)%nat)
  ∧ (∀ p, p ≠ ONEDRIVE_CACHE_FILE cfg →
          fs (get_onedrive_camera_roll_files cfg E fuel refresh w).2 !! p = fs w !! p)
  ∧ (USE_ONEDRIVE_CACHE cfg = false →
     fs (get_onedrive_camera_roll_files cfg E fuel refresh w).2 = fs w).
Proof. apply get_onedrive_frame. Qed.

(** *** What the listing returns *)

Lemma py_filter_contains_kept k items r :
  py_filter_contains k items = Ok r →
  Forall (λ i, py_contains k i = Ok true) r ∧ r `sublist_of` items.
Proof.
  revert r. induction items as [|i items IH]; intros r.
  - intros [= <-]. by split.
  - cbn [py_filter_contains].
    destruct (py_contains k i) as [b| |] eqn:Hb; [|done..]. psimpl.
    destruct (py_filter_contains k items) as [kept| |]; [|done..].
    destruct (IH kept eq_refl) as [H1 H2].
    intros [= <-]. destruct b.
    + split; [by constructor|by constructor].
    + split; [done|by constructor].
Qed.

Lemma live_fetch_result cfg E fuel w r w' :
  live_fetch cfg E fuel w = (Ok r, w') →
  ∃ items, py_filter_contains "file" items = Ok r.
Proof.
  unfold live_fetch. psimpl.
  destruct (fetch_pages E fuel _ [] _) as [[items|e|] w1]; [|done..].
  destruct (if USE_ONEDRIVE_CACHE cfg then _ else _) as [[[]|e|] w2]; [|done..].
  destruct (py_filter_contains "file" items) as [kept| |] eqn:Hk; [|done..].
  intros [= <- _]. by exists items.
Qed.


(** *** A listing that fails *)

Lemma fetch_pages_breaks E log url pages r :
  breaks E log url pages r →
  ∀ fuel items w,
    url ≠ "" → requests w = log → (length pages < fuel)%nat →
    fetch_pages E fuel (JStr url) items w
    = (Raise (SystemExit 1),
       {| fs := fs w; stdout := stdout w ++ [source_error_line r];
          requests := log ++ (GraphGet <$> url :: pages.*2) |}).
Proof.
  induction 1 as [log url Hs
                 |log url entries cursor pages r (Hs & m & Hj & Hv & Hn) Hc _ IH];
    intros fuel items w Hu Hw Hf; (destruct fuel as [|fuel]; [cbn in Hf; lia|]).
  - cbn [fetch_pages]. rewrite (truthy_url _ Hu). cbn [negb].
    unfold http. psimpl. rewrite Hw.
    destruct (Z.eqb_spec (status_code (remote E log (GraphGet url))) 200); [done|].
    cbn [negb]. unfold add_stdout, add_request, source_error_line.
    by destruct w; cbn in *; subst.
  - cbn [fetch_pages]. rewrite (truthy_url _ Hu). cbn [negb].
    unfold http. psimpl. rewrite Hw, Hs. cbn [Z.eqb Pos.eqb negb].
    unfold resp_json. rewrite Hj. cbn [py_get py_iter]. rewrite Hv, Hn.
    cbn [default fmap option_fmap option_map]. unfold id. cbn [py_iter].
    rewrite (IH fuel (items ++ entries) (add_request (GraphGet url) w) Hc);
      [|by cbn; rewrite Hw|cbn in Hf; lia].
    cbn [fmap list_fmap fst snd concat add_request fs stdout requests].
    by rewrite <- !app_assoc.
Qed.

(** X9. When a page of the source listing comes back with a status other
    than 200, after any number of good pages, the live fetch prints the
    status and the body and exits with code 1; the entries fetched so far
    are dropped and the cache file is not written. *)
Theorem onedrive_error_status_exits cfg E w pages r fuel :
  start_of cfg ≠ "" →
  breaks E (requests w) (start_of cfg) pages r →
  (length pages < fuel)%nat →
  get_onedrive_camera_roll_files cfg E fuel true w
  = (Raise (SystemExit 1),
     {| fs := fs w;
        stdout := stdout w ++ [fetching_line; source_error_line r];
        requests := requests w ++ (GraphGet <$> start_of cfg :: pages.*2) |}).
Proof.
  intros Hu Hb Hf. unfold get_onedrive_camera_roll_files.
  rewrite andb_false_r. cbn [andb]. unfold live_fetch. psimpl.
  fold (start_of cfg).
  rewrite (fetch_pages_breaks E _ _ _ _ Hb fuel [] (add_stdout _ w) Hu eq_refl Hf).
  cbn [add_stdout fs stdout requests]. by rewrite <- app_assoc.
Qed.

Lemma immich_pages_fails cfg E log page ps r :
  fails cfg E log page ps r →
  ∀ fuel assets w,
    requests w = log → (length ps < fuel)%nat →
    ∃ w', immich_pages cfg E fuel page assets w = (Raise (SystemExit 1), w')
      ∧ fs w' = fs w
      ∧ stdout w' = stdout w ++ [target_error_line r]
      ∧ length (requests w') = (length log + S (length ps))%nat.
Proof.
  induction 1 as
    [log page Hs
    |log page items token ps r (Hs & data & block & Hj & Ha & Hi & Hn) Hne Ht _ IH];
    intros fuel assets w Hw Hf; (destruct fuel as [|fuel]; [cbn in Hf; lia|]).
  - cbn [immich_pages]. unfold http. psimpl. rewrite Hw.
    destruct (Z.eqb_spec
                (status_code (remote E log (ImmichSearch (IMMICH_PAGE_SIZE cfg) page)))
                200); [done|].
    cbn [negb]. eexists. split; [done|].
    cbn [add_stdout add_request fs stdout requests].
    rewrite Hw, length_app. cbn. by repeat split.
  - cbn [immich_pages]. unfold http. psimpl. rewrite Hw, Hs.
    cbn [Z.eqb Pos.eqb negb].
    unfold resp_json. rewrite Hj. cbn [py_get]. rewrite Ha. cbn [default].
    unfold id. cbn [py_get]. rewrite Hi, Hn. cbn [default]. unfold id.
    destruct items as [|i items]; [done|].
    cbn [py_truthy negb py_iter]. rewrite Ht. cbn [negb].
    rewrite next_page_number_spec.
    destruct (IH fuel (assets ++ i :: items)
                (add_request (ImmichSearch (IMMICH_PAGE_SIZE cfg) page) w))
      as (w' & -> & Hfs & Hout & Hlen); [by cbn; rewrite Hw|cbn in Hf; lia|].
    exists w'. split; [done|]. cbn [add_request fs stdout requests] in *.
    rewrite Hfs, Hout, Hlen, length_app. cbn. repeat split. lia.
Qed.

(** X10. When a page of the target search comes back with a status other
    than 200, after any number of good pages, [get_immich_assets] prints
    the status and the body and exits with code 1, the disk untouched. *)
Theorem immich_error_status_exits cfg E w ps r fuel :
  fails cfg E (requests w) 1 ps r →
  (length ps < fuel)%nat →
  ∃ w',
    get_immich_assets cfg E fuel w = (Raise (SystemExit 1), w')
    ∧ fs w' = fs w
    ∧ stdout w' = stdout w ++ [target_error_line r]
    ∧ length (requests w') = (length (requests w) + S (length ps))%nat.
Proof. intros Hf Hlen. by apply (immich_pages_fails cfg E _ _ _ _ Hf). Qed.

(** *** Listings that never end *)

Lemma fetch_pages_endless E :
  endless_source E →
  ∀ fuel url items w, url ≠ "" →
    ∃ w', fetch_pages E fuel (JStr url) items w = (OutOfFuel, w')
      ∧ length (requests w') = (length (requests w) + fuel)%nat.
Proof.
  intros HE. induction fuel as [|fuel IH]; intros url items w Hu;
    cbn [fetch_pages]; rewrite (truthy_url _ Hu); cbn [negb].
  - exists w. split; [done|lia].
  - destruct (HE (requests w) url) as (entries & cursor & (Hs & m & Hj & Hv & Hn) & Hc).
    unfold http. psimpl. rewrite Hs. cbn [Z.eqb Pos.eqb negb].
    unfold resp_json. rewrite Hj. cbn [py_get py_iter]. rewrite Hv, Hn.
    cbn [default fmap option_fmap option_map]. unfold id. cbn [py_iter].
    destruct (IH cursor (items ++ entries) (add_request (GraphGet url) w) Hc)
      as (w' & -> & Hlen).
    exists w'. split; [done|]. rewrite Hlen. cbn [add_request requests].
    rewrite length_app. cbn. lia.
Qed.

(** X11. The source loop has no bound of its own: when every page carries a
    cursor, the live fetch makes one request for each unit of fuel and
    returns with no amount of fuel. *)
Theorem onedrive_endless_listing cfg E fuel w :
  endless_source E → start_of cfg ≠ "" →
  ∃ w',
    get_onedrive_camera_roll_files cfg E fuel true w = (OutOfFuel, w')
    ∧ length (requests w') = (length (requests w) + fuel)%nat.
Proof.
  intros HE Hu. unfold get_onedrive_camera_roll_files.
  rewrite andb_false_r. cbn [andb]. unfold live_fetch. psimpl.
  fold (start_of cfg).
  destruct (fetch_pages_endless E HE fuel (start_of cfg) [] (add_stdout fetching_line w) Hu)
    as (w' & Hrun & Hlen).
  unfold fetching_line in Hrun. rewrite Hrun. by exists w'.
Qed.

Lemma immich_pages_endless cfg E :
  endless_target cfg E →
  ∀ fuel page assets w,
    ∃ w', immich_pages cfg E fuel page assets w = (OutOfFuel, w')
      ∧ length (requests w') = (length (requests w) + fuel)%nat.
Proof.
  intros HE. induction fuel as [|fuel IH]; intros page assets w; cbn [immich_pages].
  - exists w. split; [done|lia].
  - destruct (HE (requests w) page)
      as (items & token & (Hs & data & block & Hj & Ha & Hi & Hn) & Hne & Ht).
    unfold http. psimpl. rewrite Hs. cbn [Z.eqb Pos.eqb negb].
    unfold resp_json. rewrite Hj. cbn [py_get]. rewrite Ha. cbn [default].
    unfold id. cbn [py_get]. rewrite Hi, Hn. cbn [default]. unfold id.
    destruct items as [|i items]; [done|].
    cbn [py_truthy negb py_iter]. rewrite Ht. cbn [negb].
    rewrite next_page_number_spec.
    destruct (IH (spec_next_page page token) (assets ++ i :: items)
                (add_request (ImmichSearch (IMMICH_PAGE_SIZE cfg) page) w))
      as (w' & -> & Hlen).
    exists w'. split; [done|]. rewrite Hlen. cbn [add_request requests].
    rewrite length_app. cbn. lia.
Qed.

(** X12. The target loop has no bound of its own: when every page carries
    items and a token, [get_immich_assets] makes one request for each unit
    of fuel and returns with no amount of fuel. *)
Theorem immich_endless_listing cfg E fuel w :
  endless_target cfg E →
  ∃ w',
    get_immich_assets cfg E fuel w = (OutOfFuel, w')
    ∧ length (requests w') = (length (requests w) + fuel)%nat.
Proof. intros HE. by apply immich_pages_endless. Qed.

(** *** A refresh, then a run from the cache *)



Lemma flaky_source_breaks :
  breaks (env_of flaky_remote WriteOk) [] start_url
    [([photo "a.jpg" 10; folder "Trips"], second_url)] server_error.
Proof.
  apply breaks_next.
  - split; [reflexivity|]. eexists. split; [reflexivity|]. split; reflexivity.
  - discriminate.
  - apply (breaks_here (env_of flaky_remote WriteOk) [GraphGet start_url] second_url).
    discriminate.
Defined.

Lemma onedrive_error_status_exits_witness :
  start_of default_config ≠ ""
  ∧ breaks (env_of flaky_remote WriteOk) (requests (disk ∅)) (start_of default_config)
      [([photo "a.jpg" 10; folder "Trips"], second_url)] server_error
  ∧ (length [([photo "a.jpg" 10; folder "Trips"], second_url)] < 2)%nat
  ∧ get_onedrive_camera_roll_files default_config (env_of flaky_remote WriteOk) 2 true
      (disk ∅)
    = (Raise (SystemExit 1),
       {| fs := ∅;
          stdout := [fetching_line; source_error_line server_error];
          requests := [GraphGet start_url; GraphGet second_url] |}).
Proof.
  split; [discriminate|]. split; [exact flaky_source_breaks|].
  split; [repeat constructor|].
  apply (onedrive_error_status_exits default_config (env_of flaky_remote WriteOk)
           (disk ∅) [([photo "a.jpg" 10; folder "Trips"], second_url)] server_error 2).
  - discriminate.
  - exact flaky_source_breaks.
  - repeat constructor.
Defined.

Lemma flaky_target_fails :
  fails default_config (env_of flaky_remote WriteOk) [] 1
    [([asset "a.jpg"], JStr "2")] server_error.
Proof.
  apply fails_next.
  - split; [reflexivity|]. eexists _, _. repeat split; reflexivity.
  - discriminate.
  - reflexivity.
  - apply (fails_here default_config (env_of flaky_remote WriteOk)
             [ImmichSearch 500 1] 2).
    discriminate.
Defined.

Lemma immich_error_status_exits_witness :
  fails default_config (env_of flaky_remote WriteOk) (requests (disk ∅)) 1
    [([asset "a.jpg"], JStr "2")] server_error
  ∧ (length [([asset "a.jpg"], JStr "2")] < 2)%nat
  ∧ ∃ w',
      get_immich_assets default_config (env_of flaky_remote WriteOk) 2 (disk ∅)
      = (Raise (SystemExit 1), w')
      ∧ fs w' = fs (disk ∅)
      ∧ stdout w' = stdout (disk ∅) ++ [target_error_line server_error]
      ∧ length (requests w') = (length (requests (disk ∅)) + 2)%nat.
Proof.
  split; [exact flaky_target_fails|]. split; [repeat constructor|].
  apply (immich_error_status_exits default_config (env_of flaky_remote WriteOk)
           (disk ∅) [([asset "a.jpg"], JStr "2")] server_error 2).
  - exact flaky_target_fails.
  - repeat constructor.
Defined.

Lemma endless_remote_source : endless_source (env_of endless_remote WriteOk).
Proof.
  intros log url. exists [photo "a.jpg" 10], second_url. split; [|discriminate].
  split; [reflexivity|]. eexists. split; [reflexivity|]. split; reflexivity.
Defined.

Lemma endless_remote_target : endless_target default_config (env_of endless_remote WriteOk).
Proof.
  intros log page. exists [asset "a.jpg"], (JInt 1).
  split; [|split; [discriminate|reflexivity]].
  split; [reflexivity|]. eexists _, _. repeat split; reflexivity.
Defined.

Lemma onedrive_endless_listing_witness :
  endless_source (env_of endless_remote WriteOk)
  ∧ start_of default_config ≠ ""
  ∧ ∃ w',
      get_onedrive_camera_roll_files default_config (env_of endless_remote WriteOk)
        7 true (disk ∅)
      = (OutOfFuel, w')
      ∧ length (requests w') = (length (requests (disk ∅)) + 7)%nat.
Proof.
  split; [exact endless_remote_source|]. split; [discriminate|].
  apply (onedrive_endless_listing default_config (env_of endless_remote WriteOk) 7
           (disk ∅)).
  - exact endless_remote_source.
  - discriminate.
Defined.

Lemma immich_endless_listing_witness :
  endless_target default_config (env_of endless_remote WriteOk)
  ∧ ∃ w',
      get_immich_assets default_config (env_of endless_remote WriteOk) 7 (disk ∅)
      = (OutOfFuel, w')
      ∧ length (requests w') = (length (requests (disk ∅)) + 7)%nat.
Proof.
  split; [exact endless_remote_target|].
  apply (immich_endless_listing default_config (env_of endless_remote WriteOk) 7
           (disk ∅)).
  exact endless_remote_target.
Defined.


(** *** Strings *)

Lemma str_app_cons c s t : String c s +:+ t = String c (s +:+ t).
Proof. reflexivity. Qed.

Lemma str_app_nil_r s : s +:+ "" = s.
Proof. induction s as [|c s IH]; [done|]. rewrite !str_app_cons. simpl. by rewrite IH. Qed.

Lemma str_app_assoc s t u : (s +:+ t) +:+ u = s +:+ (t +:+ u).
Proof. induction s as [|c s IH]; [done|]. rewrite !str_app_cons. simpl. by rewrite IH. Qed.

Lemma str_length_app s t :
  String.length (s +:+ t) = (String.length s + String.length t)%nat.
Proof. induction s as [|c s IH]; [done|]. rewrite !str_app_cons. simpl. by rewrite IH. Qed.

Lemma substring_app_l k s t :
  (k ≤ String.length s)%nat → String.substring 0 k (s +:+ t) = String.substring 0 k s.
Proof.
  revert k. induction s as [|c s IH]; intros k Hk; simpl in *.
  - assert (k = 0%nat) as -> by lia. by destruct t.
  - rewrite ?str_app_cons. destruct k as [|k]; [done|]. simpl. rewrite IH; [done|lia].
Qed.

Lemma substring_app_r k s t :
  (String.length s ≤ k)%nat →
  String.substring 0 k (s +:+ t) = s +:+ String.substring 0 (k - String.length s) t.
Proof.
  revert k. induction s as [|c s IH]; intros k Hk; simpl in *.
  - by rewrite Nat.sub_0_r.
  - rewrite ?str_app_cons. destruct k as [|k]; [lia|]. simpl. rewrite IH; [done|lia].
Qed.

(** *** The chunk loop *)

Lemma tqdm_update_0 (bar : option tqdm) : tqdm_update 0 <$> bar = bar.
Proof.
  destruct bar as [[t k]|]; [|done]. unfold tqdm_update. cbn. by rewrite Z.add_0_r.
Qed.

Lemma tqdm_update_add j k (bar : option tqdm) :
  tqdm_update k <$> (tqdm_update j <$> bar) = tqdm_update (j + k) <$> bar.
Proof.
  destruct bar as [[t i]|]; [|done]. unfold tqdm_update. cbn. by rewrite Z.add_assoc.
Qed.

Lemma bar_steady_update E k bar : bar_steady E bar → bar_steady E (tqdm_update k <$> bar).
Proof.
  intros [->|(p & -> & Hp)]; [by left|right].
  eexists. split; [done|]. apply Hp.
Qed.

Lemma bar_steady_ready E bar : bar_steady E bar → bar_ready E bar.
Proof.
  intros [->|(p & -> & Hp)]; [by left|right].
  exists p. split; [done|]. destruct p as [t k]. apply Hp.
Qed.

Section chunks.
Context (E : env) (path : string).

(** One pass of the loop over a chunk that the disk takes whole. *)
Lemma write_chunks_step chunk rest fp c w bar :
  chunk ≠ "" →
  fs w !! path = Some (File c) →
  match write_fault E path with
  | WriteFailsAfter k _ => (String.length c + String.length chunk ≤ k)%nat
  | _ => True
  end →
  bar_steady E bar →
  write_chunks E path (chunk :: rest) fp {| dl_world := w; overall_pbar := bar |}
  = write_chunks E path rest (tqdm_update (Z.of_nat (String.length chunk)) fp)
      {| dl_world := set_fs (<[path := File (c +:+ chunk)]> (fs w)) w;
         overall_pbar := tqdm_update (Z.of_nat (String.length chunk)) <$> bar |}.
Proof.
  intros Hne Hc Hfit Hbar. cbn [write_chunks].
  destruct (String.eqb_spec chunk ""); [done|].
  unfold write_chunk. dsimpl. rewrite Hc.
  destruct (write_fault E path) as [| |k msg] eqn:Hwf; cbn beta iota zeta.
  3: destruct (Nat.leb_spec (String.length c + String.length chunk) k); [|lia].
  all: cbn [dl_world overall_pbar].
  all: destruct Hbar as [->|(p & -> & Hp)]; cbn [fmap option_fmap option_map].
  all: try done.
  all: destruct p as [t i]; pose proof (Hp i) as Hi; cbn [total] in Hi; by rewrite Hi.
Qed.

Lemma write_chunks_whole cs : ∀ fp c w bar,
  fs w !! path = Some (File c) →
  match write_fault E path with
  | WriteFailsAfter k _ => (String.length c + String.length (body_of cs) ≤ k)%nat
  | _ => True
  end →
  bar_steady E bar →
  ∃ w',
    write_chunks E path cs fp {| dl_world := w; overall_pbar := bar |}
    = (Ok (), {| dl_world := w';
                 overall_pbar :=
                   tqdm_update (Z.of_nat (String.length (body_of cs))) <$> bar |})
    ∧ fs w' !! path = Some (File (c +:+ body_of cs))
    ∧ (∀ q, q ≠ path → fs w' !! q = fs w !! q)
    ∧ requests w' = requests w ∧ stdout w' = stdout w.
Proof.
  induction cs as [|chunk rest IH]; intros fp c w bar Hc Hfit Hbar.
  - exists w. cbn. by rewrite tqdm_update_0, str_app_nil_r.
  - destruct (String.eqb_spec chunk "") as [->|Hne].
    + cbn [write_chunks String.eqb body_of foldr String.append]. by apply IH.
    + cbn [body_of foldr] in *. fold (body_of rest) in *.
      rewrite str_length_app in Hfit.
      rewrite (write_chunks_step chunk rest fp c w bar Hne Hc); [|by case_match; [| |lia]|done].
      destruct (IH (tqdm_update (Z.of_nat (String.length chunk)) fp) (c +:+ chunk)
                  (set_fs (<[path := File (c +:+ chunk)]> (fs w)) w)
                  (tqdm_update (Z.of_nat (String.length chunk)) <$> bar))
        as (w' & -> & Hf & Hother & Hreq & Hout).
      * cbn [set_fs fs]. by rewrite lookup_insert_eq.
      * case_match; try done. rewrite str_length_app. lia.
      * by apply bar_steady_update.
      * exists w'. rewrite tqdm_update_add, str_length_app, Nat2Z.inj_add.
        split; [done|]. rewrite Hf, str_app_assoc. split; [done|].
        split; [|done]. intros q Hq. rewrite Hother by done.
        cbn [set_fs fs]. by rewrite lookup_insert_ne.
Qed.

End chunks.

(** The loop on a disk that stops the file at [k] bytes, short of the body:
    the write that crosses the limit raises and the file keeps the first [k]
    bytes. *)
Lemma write_chunks_cut E path k msg cs : ∀ fp c w bar,
  fs w !! path = Some (File c) →
  write_fault E path = WriteFailsAfter k msg →
  (String.length c ≤ k < String.length c + String.length (body_of cs))%nat →
  bar_steady E bar →
  ∃ w' bar',
    write_chunks E path cs fp {| dl_world := w; overall_pbar := bar |}
    = (Raise (OSError msg), {| dl_world := w'; overall_pbar := bar' |})
    ∧ fs w' !! path = Some (File (String.substring 0 k (c +:+ body_of cs)))
    ∧ (∀ q, q ≠ path → fs w' !! q = fs w !! q)
    ∧ requests w' = requests w ∧ stdout w' = stdout w
    ∧ bar_steady E bar'.
Proof.
  induction cs as [|chunk rest IH]; intros fp c w bar Hc Hwf Hk Hbar.
  - cbn in Hk. lia.
  - destruct (String.eqb_spec chunk "") as [->|Hne].
    + cbn [write_chunks String.eqb body_of foldr String.append]. by apply IH.
    + cbn [body_of foldr] in *. fold (body_of rest) in *.
      rewrite str_length_app in Hk.
      destruct (Nat.leb_spec (String.length c + String.length chunk) k) as [Hfit|Hcut].
      * rewrite (write_chunks_step E path chunk rest fp c w bar Hne Hc);
          [|by rewrite Hwf|done].
        destruct (IH (tqdm_update (Z.of_nat (String.length chunk)) fp) (c +:+ chunk)
                    (set_fs (<[path := File (c +:+ chunk)]> (fs w)) w)
                    (tqdm_update (Z.of_nat (String.length chunk)) <$> bar))
          as (w' & bar' & -> & Hf & Hother & Hreq & Hout & Hbar').
        -- cbn [set_fs fs]. by rewrite lookup_insert_eq.
        -- done.
        -- rewrite str_length_app. lia.
        -- by apply bar_steady_update.
        -- exists w', bar'. split; [done|]. rewrite Hf, str_app_assoc.
           split; [done|]. split; [|done]. intros q Hq. rewrite Hother by done.
           cbn [set_fs fs]. by rewrite lookup_insert_ne.
      * cbn [write_chunks]. destruct (String.eqb_spec chunk ""); [done|].
        unfold write_chunk. dsimpl. rewrite Hc, Hwf.
        destruct (Nat.leb_spec (String.length c + String.length chunk) k); [lia|].
        cbn [dl_world overall_pbar]. eexists _, bar. split; [done|].
        cbn [set_fs fs requests stdout]. rewrite lookup_insert_eq.
        rewrite substring_app_r by lia.
        rewrite substring_app_l by lia.
        split; [done|]. split; [|done]. intros q Hq. by rewrite lookup_insert_ne.
Qed.

(** *** What a download leaves alone *)

Lemma keeps_bind {S A B} (R : relation S) `{!Transitive R}
    (m : prog S A) (f : A → prog S B) :
  keeps R m → (∀ a, keeps R (f a)) → keeps R (m ≫= f).
Proof.
  intros Hm Hf s. unfold mbind, prog_bind. specialize (Hm s).
  destruct (m s) as [[a| |] s1]; cbn [snd] in *; [|done..].
  etrans; [done|]. apply Hf.
Qed.

Lemma keeps_ret {S A} (R : relation S) `{!Reflexive R} (a : A) : keeps R (mret a).
Proof. intros s. apply reflexivity. Qed.

Lemma keeps_lift {S A} (R : relation S) `{!Reflexive R} (o : outcome A) :
  keeps R (lift o).
Proof. intros s. apply reflexivity. Qed.

#[local] Instance same_but_refl ps : Reflexive (same_but ps).
Proof. by intros s. Qed.

#[local] Instance same_but_trans ps : Transitive (same_but ps).
Proof.
  intros s1 s2 s3 [H1 H2] [H3 H4]. split; [congruence|].
  intros q Hq. by rewrite H4, H2.
Qed.

Lemma same_but_weaken ps ps' s s' : ps ⊆ ps' → same_but ps s s' → same_but ps' s s'.
Proof. intros Hsub [H1 H2]. split; [done|]. intros q Hq. apply H2. set_solver. Qed.

Lemma overall_truthy_keeps E ps : keeps (same_but ps) (overall_truthy E).
Proof. by intros s. Qed.

Lemma overall_update_keeps ps k : keeps (same_but ps) (overall_update k).
Proof. by intros s. Qed.

Lemma bump_overall_keeps E ps size : keeps (same_but ps) (bump_overall E size).
Proof.
  unfold bump_overall. apply keeps_bind; [apply _|apply overall_truthy_keeps|].
  intros b. destruct (_ && _)%bool; [apply overall_update_keeps|by apply keeps_ret].
Qed.

Lemma write_chunk_keeps E path data : keeps (same_but [path]) (in_world (write_chunk E path data)).
Proof.
  intros s. unfold in_world, write_chunk.
  destruct (fs (dl_world s) !! path) as [[c|]|]; [|done..].
  assert (∀ c', same_but [path] s
            {| dl_world := set_fs (<[path := File c']> (fs (dl_world s))) (dl_world s);
               overall_pbar := overall_pbar s |}) as Hset.
  { intros c'. split; [done|]. intros q Hq. cbn [dl_world set_fs fs].
    rewrite lookup_insert_ne; [done|]. set_solver. }
  destruct (write_fault E path) as [| |k msg]; cbn [snd]; try apply Hset.
  destruct (Nat.leb _ k); cbn [snd]; apply Hset.
Qed.

(** The loop sends nothing and writes at its path only, whatever the disk
    and the bar do. *)
Lemma write_chunks_keeps E path cs : ∀ fp, keeps (same_but [path]) (write_chunks E path cs fp).
Proof.
  induction cs as [|chunk rest IH]; intros fp; cbn [write_chunks].
  - by apply keeps_ret.
  - destruct (String.eqb chunk ""); [apply IH|].
    apply keeps_bind; [apply _|apply write_chunk_keeps|]. intros _.
    apply keeps_bind; [apply _|apply overall_truthy_keeps|]. intros b.
    apply keeps_bind; [apply _| |intros _; apply IH].
    destruct b; [apply overall_update_keeps|by apply keeps_ret].
Qed.

(** *** A download that is accepted *)

Lemma mkdir_dir dest w w' : mkdir dest w = (Ok (), w') → fs w' !! dest = Some Dir.
Proof.
  unfold mkdir. destruct (fs w !! dest) as [[c|]|] eqn:Hd; [done| |].
  - by intros [= <-].
  - intros [= <-]. cbn. by rewrite lookup_insert_eq.
Qed.

Lemma download_content_accepted E file_id name size path w bar :
  accepted (remote E (requests w) (GraphContent file_id)) →
  (∀ msg, write_fault E path ≠ WriteOpenFails msg) →
  fs w !! path ≠ Some Dir →
  download_content E file_id name size path {| dl_world := w; overall_pbar := bar |}
  = write_chunks E path (chunks (remote E (requests w) (GraphContent file_id)))
      {| total := if Z.ltb 0 size then Some size else None; n := 0 |}
      {| dl_world := set_fs (<[path := File ""]> (fs w))
                       (add_request (GraphContent file_id) w);
         overall_pbar := bar |}.
Proof.
  intros Hacc Hwf Hd. unfold download_content, http. dsimpl.
  assert ((Z.eqb (status_code (remote E (requests w) (GraphContent file_id))) 200
           || Z.eqb (status_code (remote E (requests w) (GraphContent file_id))) 302)%bool
          = true) as ->.
  { destruct Hacc as [->| ->]; reflexivity. }
  cbn [negb]. unfold open_write. cbn [dl_world overall_pbar add_request fs].
  destruct (write_fault E path) as [|msg|k msg]; [|by destruct (Hwf msg)|];
    by destruct (fs w !! path) as [[]|].
Qed.

(** A download in terms of its parts, for a record that is well formed, a
    folder that can be made and a path at which nothing is. *)
Lemma download_fresh_run E m file_id name size dest w bar :
  m !! "id" = Some file_id →
  m !! "name" = Some (JStr name) →
  declared_size (JObj m) = Ok size →
  (∀ c, fs w !! dest ≠ Some (File c)) →
  fs w !! dest_path_of dest name = None →
  dest_path_of dest name ≠ dest →
  ∃ w1,
    download_onedrive_file E (JObj m) dest {| dl_world := w; overall_pbar := bar |}
    = download_content E file_id (JStr name) size (dest_path_of dest name)
        {| dl_world := w1; overall_pbar := bar |}
    ∧ requests w1 = requests w ∧ stdout w1 = stdout w
    ∧ fs w1 !! dest = Some Dir
    ∧ fs w1 !! dest_path_of dest name = None
    ∧ ∀ q, q ≠ dest → fs w1 !! q = fs w !! q.
Proof.
  intros Hid Hname Hsize Hdest Hfile Hne.
  destruct (mkdir_run dest w Hdest) as (w1 & Hmk & Hreq & Hout & Hother & _).
  exists w1. rewrite (download_onedrive_file_run E m file_id name size) by done.
  rewrite Hmk. unfold path_exists. rewrite (Hother _ Hne), Hfile.
  rewrite bool_decide_eq_false_2 by (by intros [? ?]).
  split; [done|]. split; [done|]. split; [done|].
  split; [by eapply mkdir_dir|]. by split.
Qed.

Lemma download_accepted_run E m file_id name size dest w bar :
  m !! "id" = Some file_id →
  m !! "name" = Some (JStr name) →
  declared_size (JObj m) = Ok size →
  (∀ c, fs w !! dest ≠ Some (File c)) →
  fs w !! dest_path_of dest name = None →
  dest_path_of dest name ≠ dest →
  accepted (remote E (requests w) (GraphContent file_id)) →
  write_fault E (dest_path_of dest name) = WriteOk →
  bar_steady E bar →
  ∃ w',
    download_onedrive_file E (JObj m) dest {| dl_world := w; overall_pbar := bar |}
    = (Ok (), {| dl_world := w';
                 overall_pbar :=
                   tqdm_update
                     (Z.of_nat (String.length
                        (body_of (chunks (remote E (requests w) (GraphContent file_id))))))
                   <$> bar |})
    ∧ fs w' !! dest_path_of dest name
      = Some (File (body_of (chunks (remote E (requests w) (GraphContent file_id)))))
    ∧ fs w' !! dest = Some Dir
    ∧ (∀ q, q ≠ dest → q ≠ dest_path_of dest name → fs w' !! q = fs w !! q)
    ∧ requests w' = requests w ++ [GraphContent file_id]
    ∧ stdout w' = stdout w.
Proof.
  intros Hid Hname Hsize Hdest Hfile Hne Hacc Hwf Hbar.
  destruct (download_fresh_run E m file_id name size dest w bar)
    as (w1 & -> & Hreq & Hout & Hdir & Hnone & Hother); [done..|].
  rewrite download_content_accepted;
    [|by rewrite Hreq|by rewrite Hwf|by rewrite Hnone].
  rewrite Hreq.
  edestruct (write_chunks_whole E (dest_path_of dest name)
               (chunks (remote E (requests w) (GraphContent file_id))))
    as (w' & -> & Hf & Hoth & Hr & Ho).
  - cbn [set_fs fs]. by rewrite lookup_insert_eq.
  - by rewrite Hwf.
  - done.
  - exists w'. split; [done|]. split; [done|].
    cbn [set_fs add_request fs requests stdout] in *.
    split; [by rewrite (Hoth _ (not_eq_sym Hne)), lookup_insert_ne|].
    split; [|by rewrite Hr, Ho, Hreq, Hout].
    intros q Hq1 Hq2. by rewrite (Hoth _ Hq2), lookup_insert_ne, Hother.
Qed.

(** A record whose file is at the destination path, in a folder that
    exists: the call comes down to the update of the bar. *)
Lemma download_present_run E m file_id name size dest w bar node :
  m !! "id" = Some file_id →
  m !! "name" = Some (JStr name) →
  declared_size (JObj m) = Ok size →
  fs w !! dest = Some Dir →
  fs w !! dest_path_of dest name = Some node →
  download_onedrive_file E (JObj m) dest {| dl_world := w; overall_pbar := bar |}
  = bump_overall E size {| dl_world := w; overall_pbar := bar |}.
Proof.
  intros Hid Hname Hsize Hdir Hfile.
  rewrite (download_onedrive_file_run E m file_id name size) by done.
  unfold mkdir. rewrite Hdir. unfold path_exists.
  by rewrite bool_decide_eq_true_2 by (by rewrite Hfile).
Qed.

(** X14. A download that the service accepts (status 200 or 302), on a disk
    that takes the file: the file at the destination path holds the chunks
    one after the other, the empty ones skipped; one content request is
    made; the aggregate bar moves by the number of bytes received, not by
    the declared size; nothing is printed and no other path changes, the
    folder apart. *)
Theorem download_writes_body E m file_id name size dest w bar :
  m !! "id" = Some file_id →
  m !! "name" = Some (JStr name) →
  declared_size (JObj m) = Ok size →
  (∀ c, fs w !! dest ≠ Some (File c)) →
  fs w !! dest_path_of dest name = None →
  dest_path_of dest name ≠ dest →
  accepted (remote E (requests w) (GraphContent file_id)) →
  write_fault E (dest_path_of dest name) = WriteOk →
  bar_steady E bar →
  let body := body_of (chunks (remote E (requests w) (GraphContent file_id))) in
  ∃ w',
    download_onedrive_file E (JObj m) dest {| dl_world := w; overall_pbar := bar |}
    = (Ok (), {| dl_world := w';
                 overall_pbar := tqdm_update (Z.of_nat (String.length body)) <$> bar |})
    ∧ fs w' !! dest_path_of dest name = Some (File body)
    ∧ fs w' !! dest = Some Dir
    ∧ (∀ q, q ≠ dest → q ≠ dest_path_of dest name → fs w' !! q = fs w !! q)
    ∧ requests w' = requests w ++ [GraphContent file_id]
    ∧ stdout w' = stdout w.
Proof.
  intros Hid Hname Hsize Hdest Hfile Hne Hacc Hwf Hbar body.
  by apply (download_accepted_run E m file_id name size dest w bar).
Qed.

(** X15. A second download of a record whose first download went through
    makes no request and leaves the disk as it is; the aggregate bar moves
    once more, by the declared size. *)
Theorem download_again_is_skipped E m file_id name size dest w bar :
  m !! "id" = Some file_id →
  m !! "name" = Some (JStr name) →
  declared_size (JObj m) = Ok size → (0 ≤ size)%Z →
  (∀ c, fs w !! dest ≠ Some (File c)) →
  fs w !! dest_path_of dest name = None →
  dest_path_of dest name ≠ dest →
  accepted (remote E (requests w) (GraphContent file_id)) →
  write_fault E (dest_path_of dest name) = WriteOk →
  bar_steady E bar →
  ∃ s1 s2,
    download_onedrive_file E (JObj m) dest {| dl_world := w; overall_pbar := bar |}
    = (Ok (), s1)
    ∧ download_onedrive_file E (JObj m) dest s1 = (Ok (), s2)
    ∧ requests (dl_world s2) = requests (dl_world s1)
    ∧ fs (dl_world s2) = fs (dl_world s1)
    ∧ overall_pbar s2 = tqdm_update size <$> overall_pbar s1.
Proof.
  intros Hid Hname Hsize Hpos Hdest Hfile Hne Hacc Hwf Hbar.
  destruct (download_accepted_run E m file_id name size dest w bar)
    as (w' & Hrun & Hbody & Hdir & _); [done..|].
  eexists _, _. split; [exact Hrun|].
  rewrite (download_present_run E m file_id name size dest w' _ _ Hid Hname Hsize
             Hdir Hbody).
  rewrite bump_overall_ready;
    [done|done|by apply bar_steady_ready, bar_steady_update].
Qed.

(** X16. When the disk stops the file short of the body, the download
    raises the [OSError] and leaves the first bytes at the destination
    path; a later download of the same record finds the path taken, makes
    no request and keeps the truncated file. *)
Theorem truncated_download_is_kept E E' m file_id name size dest w bar k msg :
  m !! "id" = Some file_id →
  m !! "name" = Some (JStr name) →
  declared_size (JObj m) = Ok size → (0 ≤ size)%Z →
  (∀ c, fs w !! dest ≠ Some (File c)) →
  fs w !! dest_path_of dest name = None →
  dest_path_of dest name ≠ dest →
  accepted (remote E (requests w) (GraphContent file_id)) →
  write_fault E (dest_path_of dest name) = WriteFailsAfter k msg →
  (k < String.length (body_of (chunks (remote E (requests w) (GraphContent file_id)))))%nat →
  bar_steady E bar →
  ∃ s1,
    download_onedrive_file E (JObj m) dest {| dl_world := w; overall_pbar := bar |}
    = (Raise (OSError msg), s1)
    ∧ fs (dl_world s1) !! dest_path_of dest name
      = Some (File (String.substring 0 k
                      (body_of (chunks (remote E (requests w) (GraphContent file_id))))))
    ∧ (bar_ready E' (overall_pbar s1) →
       ∃ s2,
         download_onedrive_file E' (JObj m) dest s1 = (Ok (), s2)
         ∧ requests (dl_world s2) = requests (dl_world s1)
         ∧ fs (dl_world s2) = fs (dl_world s1)).
Proof.
  intros Hid Hname Hsize Hpos Hdest Hfile Hne Hacc Hwf Hk Hbar.
  destruct (download_fresh_run E m file_id name size dest w bar)
    as (w1 & -> & Hreq & Hout & Hdir & Hnone & Hother); [done..|].
  rewrite download_content_accepted;
    [|by rewrite Hreq|by rewrite Hwf|by rewrite Hnone].
  rewrite Hreq.
  edestruct (write_chunks_cut E (dest_path_of dest name) k msg
               (chunks (remote E (requests w) (GraphContent file_id))))
    as (w' & bar' & -> & Hf & Hoth & Hr & Ho & Hbar').
  - cbn [set_fs fs]. by rewrite lookup_insert_eq.
  - done.
  - cbn [String.length]. lia.
  - done.
  - eexists. split; [done|]. cbn [dl_world overall_pbar]. split; [done|].
    intros Hready.
    assert (fs w' !! dest = Some Dir) as Hdir'.
    { rewrite (Hoth _ (not_eq_sym Hne)). cbn [set_fs add_request fs].
      by rewrite lookup_insert_ne. }
    rewrite (download_present_run E' m file_id name size dest w' _ _ Hid Hname Hsize
               Hdir' Hf).
    rewrite bump_overall_ready by done. by eexists.
Qed.

(** *** Records that cannot be downloaded *)

Lemma declared_size_raises m e :
  declared_size (JObj m) = Raise e → e = TypeError ∨ e = ValueError.
Proof.
  unfold declared_size. cbn [py_get]. psimpl.
  destruct (py_truthy _); [|done].
  destruct (default (JInt 0) (m !! "size")) as [|b|z|s|l|o]; cbn [py_int];
    try done; try (intros [= <-]; by left).
  intros ->%int_of_str_raises. by right.
Qed.

Lemma download_rejected_size_run E m dest s e :
  is_Some (m !! "id") → is_Some (m !! "name") →
  declared_size (JObj m) = Raise e →
  download_onedrive_file E (JObj m) dest s = (Raise e, s).
Proof.
  intros [? Hid] [? Hname] He. unfold download_onedrive_file. dsimpl.
  cbn [py_getitem]. by rewrite Hid, Hname, He.
Qed.



(** *** The loop over the batch *)

Lemma download_all_app E l1 l2 dest s :
  download_all E (l1 ++ l2) dest s
  = match download_all E l1 dest s with
    | (Ok _, s1) => download_all E l2 dest s1
    | r => r
    end.
Proof.
  revert s. induction l1 as [|item l1 IH]; intros s; cbn [app download_all].
  - done.
  - unfold mbind, prog_bind, mret, prog_ret.
    destruct (download_onedrive_file E item dest s) as [[[]|e|] s1]; [|done..].
    apply IH.
Qed.

(** X19. The loop over the batch has no handler: when the download of a
    record raises, the batch ends with that exception in that state and
    the records after it are not visited. *)
Theorem batch_stops_at_first_raise E pre item post dest s s1 s2 e :
  download_all E pre dest s = (Ok (), s1) →
  download_onedrive_file E item dest s1 = (Raise e, s2) →
  download_all E (pre ++ item :: post) dest s = (Raise e, s2).
Proof.
  intros Hpre Hitem. rewrite download_all_app, Hpre. cbn [download_all].
  unfold mbind, prog_bind. by rewrite Hitem.
Qed.

(** *** What a download may touch *)

Lemma within_refl ps k s : within ps k s s.
Proof.
  split; [|done]. exists []. rewrite List.app_nil_r.
  repeat split; [constructor|cbn; lia].
Qed.

Lemma within_trans ps j k s1 s2 s3 :
  within ps j s1 s2 → within ps k s2 s3 → within ps (j + k) s1 s3.
Proof.
  intros [(L1 & H1 & HP1 & Hl1) Hf1] [(L2 & H2 & HP2 & Hl2) Hf2]. split.
  - exists (L1 ++ L2). rewrite H2, H1, <- app_assoc. split; [done|].
    split; [by apply Forall_app|]. rewrite length_app. lia.
  - intros q Hq. by rewrite Hf2, Hf1.
Qed.

Lemma within_weaken ps ps' j k s s' :
  ps ⊆ ps' → (j ≤ k)%nat → within ps j s s' → within ps' k s s'.
Proof.
  intros Hsub Hjk [(L & H1 & HP & Hl) Hf]. split.
  - exists L. repeat split; [done..|lia].
  - intros q Hq. apply Hf. set_solver.
Qed.

Lemma same_but_within ps ps' k s s' : ps ⊆ ps' → same_but ps s s' → within ps' k s s'.
Proof.
  intros Hsub [H1 H2]. split.
  - exists []. rewrite List.app_nil_r. repeat split; [done|constructor|cbn; lia].
  - intros q Hq. apply H2. set_solver.
Qed.

Lemma keeps_seq {S A B} (T : nat → relation S) j k (m : prog S A) (f : A → prog S B) :
  (∀ s1 s2 s3, T j s1 s2 → T k s2 s3 → T (j + k)%nat s1 s3) →
  (∀ s1 s2, T j s1 s2 → T (j + k)%nat s1 s2) →
  keeps (T j) m → (∀ a, keeps (T k) (f a)) → keeps (T (j + k)%nat) (m ≫= f).
Proof.
  intros Htrans Hweak Hm Hf s. unfold mbind, prog_bind. specialize (Hm s).
  destruct (m s) as [[a| |] s1]; cbn [snd] in *; [|by apply Hweak..].
  eapply Htrans; [done|]. apply Hf.
Qed.

Lemma within_seq {A B} ps j k (m : prog dl A) (f : A → prog dl B) :
  keeps (within ps j) m → (∀ a, keeps (within ps k) (f a)) →
  keeps (within ps (j + k)) (m ≫= f).
Proof.
  apply (keeps_seq (within ps)).
  - apply within_trans.
  - intros s1 s2. apply within_weaken; [done|lia].
Qed.

Lemma within_lift {A} ps k (o : outcome A) : keeps (within ps k) (lift o).
Proof. intros s. apply within_refl. Qed.

Lemma within_same_but {A} ps ps' k (m : prog dl A) :
  ps ⊆ ps' → keeps (same_but ps) m → keeps (within ps' k) m.
Proof. intros Hsub Hm s. by eapply same_but_within. Qed.

Lemma mkdir_keeps dest : keeps (same_but [dest]) (in_world (mkdir dest)).
Proof.
  intros s. unfold in_world, mkdir.
  destruct (fs (dl_world s) !! dest) as [[c|]|]; [done..|].
  split; [done|]. intros q Hq. cbn. rewrite lookup_insert_ne; [done|]. set_solver.
Qed.

Lemma open_write_keeps E path : keeps (same_but [path]) (in_world (open_write E path)).
Proof.
  intros s. unfold in_world, open_write.
  assert (same_but [path] s
            {| dl_world := set_fs (<[path := File ""]> (fs (dl_world s))) (dl_world s);
               overall_pbar := overall_pbar s |}) as Hset.
  { split; [done|]. intros q Hq. cbn. rewrite lookup_insert_ne; [done|]. set_solver. }
  destruct (write_fault E path); [|done|]; by destruct (fs (dl_world s) !! path) as [[]|].
Qed.

Lemma print_keeps ps line : keeps (same_but ps) (in_world (print line)).
Proof. by intros s. Qed.

Lemma http_within E ps file_id :
  keeps (within ps 1) (in_world (http E (GraphContent file_id))).
Proof.
  intros s. split; [|done]. exists [GraphContent file_id].
  repeat split; [|cbn; lia]. constructor; [by eexists|constructor].
Qed.

Lemma download_content_within E file_id name size path ps :
  path ∈ ps → keeps (within ps 1) (download_content E file_id name size path).
Proof.
  intros Hp. unfold download_content.
  apply (within_seq ps 1 0); [apply http_within|]. intros r.
  destruct (negb _).
  - apply (within_same_but []); [set_solver|].
    apply keeps_bind; [apply _|apply print_keeps|]. intros _. apply bump_overall_keeps.
  - apply (within_same_but [path]); [set_solver|].
    apply keeps_bind; [apply _|apply open_write_keeps|]. intros _.
    apply write_chunks_keeps.
Qed.

Lemma download_onedrive_file_within E item dest :
  keeps (within (dest :: item_paths dest item) 1) (download_onedrive_file E item dest).
Proof.
  unfold download_onedrive_file, item_paths.
  apply (within_seq _ 0 1); [apply within_lift|]. intros file_id.
  intros s. unfold mbind at 1, prog_bind at 1, lift at 1.
  destruct (py_getitem item "name") as [name| |]; [|apply within_refl..].
  revert s.
  apply (within_seq _ 0 1); [apply within_lift|]. intros size.
  apply (within_seq _ 0 1).
  { apply (within_same_but [dest]); [set_solver|apply mkdir_keeps]. }
  intros _ s. unfold mbind at 1, prog_bind at 1, lift at 1.
  destruct (path_join dest name) as [path| |]; [|apply within_refl..].
  revert s.
  apply (within_seq _ 0 1); [by intros s; destruct s; apply within_refl|].
  intros present.
  destruct present.
  - apply (within_same_but []); [set_solver|apply bump_overall_keeps].
  - apply download_content_within. set_solver.
Qed.

Lemma download_all_within E files dest :
  keeps (within (dest :: (files ≫= item_paths dest)) (length files))
    (download_all E files dest).
Proof.
  induction files as [|item files IH]; cbn [download_all length].
  - intros s. apply within_refl.
  - apply (within_seq _ 1 (length files)).
    + intros s. eapply within_weaken; [| |apply download_onedrive_file_within]; [|done].
      cbn [mbind list_bind]. set_solver.
    + intros _ s. eapply within_weaken; [| |apply IH]; [|done].
      cbn [mbind list_bind]. set_solver.
Qed.

(** X20. However a batch of downloads ends, it has made at most one request
    for each record, all of them content requests, and the disk is the same
    away from the download folder and the destination paths of the
    records. *)
Theorem batch_touches_its_paths_only E files dest s :
  (∃ L, requests (dl_world (download_all E files dest s).2)
        = requests (dl_world s) ++ L
        ∧ Forall is_content_get L ∧ (length L ≤ length files)%nat)
  ∧ ∀ q, q ≠ dest → q ∉ files ≫= item_paths dest →
      fs (dl_world (download_all E files dest s).2) !! q = fs (dl_world s) !! q.
Proof.
  destruct (download_all_within E files dest s) as [H1 H2].
  split; [done|]. intros q Hq1 Hq2. apply H2. set_solver.
Qed.

Lemma sample_bar_steady E : bar_bool E = tqdm_bool → bar_steady E (Some sample_bar).
Proof. intros H. right. exists sample_bar. split; [done|]. intros k. by rewrite H. Defined.

Lemma empty_disk_no_file (p : string) : ∀ c, fs (disk ∅) !! p ≠ Some (File c).
Proof. intros c H. discriminate H. Defined.

Lemma b_path_not_folder : dest_path_of downloads "b.jpg" ≠ downloads.
Proof. intros H. discriminate H. Defined.

Lemma jpeg_accepted (log : list request) (file_id : json) (wf : wfault) :
  accepted (remote (env_of serving_remote wf) log (GraphContent file_id)).
Proof. by left. Defined.

Lemma download_writes_body_witness :
  photo_fields "b.jpg" 4 !! "id" = Some (JStr "id-b.jpg")
  ∧ photo_fields "b.jpg" 4 !! "name" = Some (JStr "b.jpg")
  ∧ declared_size (photo "b.jpg" 4) = Ok 4
  ∧ (∀ c, fs (disk ∅) !! downloads ≠ Some (File c))
  ∧ fs (disk ∅) !! dest_path_of downloads "b.jpg" = None
  ∧ dest_path_of downloads "b.jpg" ≠ downloads
  ∧ accepted (remote (env_of serving_remote WriteOk) (requests (disk ∅))
                (GraphContent (JStr "id-b.jpg")))
  ∧ write_fault (env_of serving_remote WriteOk) (dest_path_of downloads "b.jpg") = WriteOk
  ∧ bar_steady (env_of serving_remote WriteOk) (Some sample_bar)
  ∧ ∃ w',
      download_onedrive_file (env_of serving_remote WriteOk) (photo "b.jpg" 4) downloads
        {| dl_world := disk ∅; overall_pbar := Some sample_bar |}
      = (Ok (), {| dl_world := w';
                   overall_pbar := Some {| total := Some 10; n := 4 |} |})
      ∧ fs w' !! dest_path_of downloads "b.jpg" = Some (File "JFIF")
      ∧ fs w' !! downloads = Some Dir
      ∧ (∀ q, q ≠ downloads → q ≠ dest_path_of downloads "b.jpg" →
              fs w' !! q = fs (disk ∅) !! q)
      ∧ requests w' = requests (disk ∅) ++ [GraphContent (JStr "id-b.jpg")]
      ∧ stdout w' = stdout (disk ∅).
Proof.
  split; [reflexivity|]. split; [reflexivity|]. split; [reflexivity|].
  split; [apply empty_disk_no_file|]. split; [reflexivity|].
  split; [exact b_path_not_folder|]. split; [apply jpeg_accepted|].
  split; [reflexivity|]. split; [by apply sample_bar_steady|].
  apply (download_writes_body (env_of serving_remote WriteOk) (photo_fields "b.jpg" 4)
           (JStr "id-b.jpg") "b.jpg" 4 downloads (disk ∅) (Some sample_bar)).
  - reflexivity.
  - reflexivity.
  - reflexivity.
  - apply empty_disk_no_file.
  - reflexivity.
  - exact b_path_not_folder.
  - apply jpeg_accepted.
  - reflexivity.
  - by apply sample_bar_steady.
Defined.

Lemma download_again_is_skipped_witness :
  photo_fields "b.jpg" 4 !! "id" = Some (JStr "id-b.jpg")
  ∧ photo_fields "b.jpg" 4 !! "name" = Some (JStr "b.jpg")
  ∧ declared_size (photo "b.jpg" 4) = Ok 4 ∧ (0 ≤ 4)%Z
  ∧ (∀ c, fs (disk ∅) !! downloads ≠ Some (File c))
  ∧ fs (disk ∅) !! dest_path_of downloads "b.jpg" = None
  ∧ dest_path_of downloads "b.jpg" ≠ downloads
  ∧ accepted (remote (env_of serving_remote WriteOk) (requests (disk ∅))
                (GraphContent (JStr "id-b.jpg")))
  ∧ write_fault (env_of serving_remote WriteOk) (dest_path_of downloads "b.jpg") = WriteOk
  ∧ bar_steady (env_of serving_remote WriteOk) (Some sample_bar)
  ∧ ∃ s1 s2,
      download_onedrive_file (env_of serving_remote WriteOk) (photo "b.jpg" 4) downloads
        {| dl_world := disk ∅; overall_pbar := Some sample_bar |}
      = (Ok (), s1)
      ∧ download_onedrive_file (env_of serving_remote WriteOk) (photo "b.jpg" 4)
          downloads s1
        = (Ok (), s2)
      ∧ requests (dl_world s2) = requests (dl_world s1)
      ∧ fs (dl_world s2) = fs (dl_world s1)
      ∧ overall_pbar s2 = tqdm_update 4 <$> overall_pbar s1.
Proof.
  split; [reflexivity|]. split; [reflexivity|]. split; [reflexivity|].
  split; [discriminate|].
  split; [apply empty_disk_no_file|]. split; [reflexivity|].
  split; [exact b_path_not_folder|]. split; [apply jpeg_accepted|].
  split; [reflexivity|]. split; [by apply sample_bar_steady|].
  apply (download_again_is_skipped (env_of serving_remote WriteOk)
           (photo_fields "b.jpg" 4) (JStr "id-b.jpg") "b.jpg" 4 downloads (disk ∅)
           (Some sample_bar)).
  - reflexivity.
  - reflexivity.
  - reflexivity.
  - discriminate.
  - apply empty_disk_no_file.
  - reflexivity.
  - exact b_path_not_folder.
  - apply jpeg_accepted.
  - reflexivity.
  - by apply sample_bar_steady.
Defined.

Lemma truncated_download_is_kept_witness :
  photo_fields "b.jpg" 4 !! "id" = Some (JStr "id-b.jpg")
  ∧ photo_fields "b.jpg" 4 !! "name" = Some (JStr "b.jpg")
  ∧ declared_size (photo "b.jpg" 4) = Ok 4 ∧ (0 ≤ 4)%Z
  ∧ (∀ c, fs (disk ∅) !! downloads ≠ Some (File c))
  ∧ fs (disk ∅) !! dest_path_of downloads "b.jpg" = None
  ∧ dest_path_of downloads "b.jpg" ≠ downloads
  ∧ accepted (remote (env_of serving_remote full_disk) (requests (disk ∅))
                (GraphContent (JStr "id-b.jpg")))
  ∧ write_fault (env_of serving_remote full_disk) (dest_path_of downloads "b.jpg")
    = WriteFailsAfter 3 "No space left on device"
  ∧ (3 < String.length "JFIF")%nat
  ∧ bar_steady (env_of serving_remote full_disk) (Some sample_bar)
  ∧ ∃ s1,
      download_onedrive_file (env_of serving_remote full_disk) (photo "b.jpg" 4)
        downloads {| dl_world := disk ∅; overall_pbar := Some sample_bar |}
      = (Raise (OSError "No space left on device"), s1)
      ∧ fs (dl_world s1) !! dest_path_of downloads "b.jpg" = Some (File "JFI")
      ∧ (bar_ready (env_of serving_remote WriteOk) (overall_pbar s1) →
         ∃ s2,
           download_onedrive_file (env_of serving_remote WriteOk) (photo "b.jpg" 4)
             downloads s1
           = (Ok (), s2)
           ∧ requests (dl_world s2) = requests (dl_world s1)
           ∧ fs (dl_world s2) = fs (dl_world s1)).
Proof.
  split; [reflexivity|]. split; [reflexivity|]. split; [reflexivity|].
  split; [discriminate|].
  split; [apply empty_disk_no_file|]. split; [reflexivity|].
  split; [exact b_path_not_folder|]. split; [apply jpeg_accepted|].
  split; [reflexivity|]. split; [repeat constructor|].
  split; [by apply sample_bar_steady|].
  apply (truncated_download_is_kept (env_of serving_remote full_disk)
           (env_of serving_remote WriteOk)
           (photo_fields "b.jpg" 4) (JStr "id-b.jpg") "b.jpg" 4 downloads (disk ∅)
           (Some sample_bar) 3 "No space left on device").
  - reflexivity.
  - reflexivity.
  - reflexivity.
  - discriminate.
  - apply empty_disk_no_file.
  - reflexivity.
  - exact b_path_not_folder.
  - apply jpeg_accepted.
  - reflexivity.
  - repeat constructor.
  - by apply sample_bar_steady.
Defined.


Lemma batch_stops_at_first_raise_witness :
  let E := env_of serving_remote WriteOk in
  let s := {| dl_world := disk ∅; overall_pbar := Some sample_bar |} in
  let s1 := (download_all E [photo "b.jpg" 4] downloads s).2 in
  download_all E [photo "b.jpg" 4] downloads s = (Ok (), s1)
  ∧ download_onedrive_file E (JObj odd_size_fields) downloads s1
    = (Raise ValueError, s1)
  ∧ download_all E ([photo "b.jpg" 4] ++ JObj odd_size_fields :: [photo "a.jpg" 10])
      downloads s
    = (Raise ValueError, s1).
Proof.
  split; [vm_compute; reflexivity|]. split; [vm_compute; reflexivity|].
  apply (batch_stops_at_first_raise (env_of serving_remote WriteOk)
           [photo "b.jpg" 4] (JObj odd_size_fields) [photo "a.jpg" 10] downloads
           {| dl_world := disk ∅; overall_pbar := Some sample_bar |}
           (download_all (env_of serving_remote WriteOk) [photo "b.jpg" 4] downloads
              {| dl_world := disk ∅; overall_pbar := Some sample_bar |}).2
           (download_all (env_of serving_remote WriteOk) [photo "b.jpg" 4] downloads
              {| dl_world := disk ∅; overall_pbar := Some sample_bar |}).2
           ValueError).
  - vm_compute; reflexivity.
  - vm_compute; reflexivity.
Defined.

(** *** A run of [main] that downloads nothing *)

#[local] Instance listed_refl cfg : Reflexive (listed cfg).
Proof. intros w. split; [|done]. exists []. by rewrite List.app_nil_r. Qed.

#[local] Instance listed_trans cfg : Transitive (listed cfg).
Proof.
  intros w1 w2 w3 [(L1 & H1 & HP1) Hf1] [(L2 & H2 & HP2) Hf2]. split.
  - exists (L1 ++ L2). rewrite H2, H1, <- app_assoc. split; [done|].
    by apply Forall_app.
  - intros p Hp. by rewrite Hf2, Hf1.
Qed.

Lemma print_listed cfg line : keeps (listed cfg) (print line).
Proof. intros w. split; [|done]. exists []. by rewrite List.app_nil_r. Qed.

Lemma print_names_listed cfg files : keeps (listed cfg) (print_names files).
Proof.
  induction files as [|f files IH]; cbn [print_names]; [apply (keeps_ret (listed cfg))|].
  apply keeps_bind; [apply _|apply (keeps_lift (listed cfg))|]. intros name.
  apply keeps_bind; [apply _|apply print_listed|]. by intros _.
Qed.

Lemma onedrive_listed cfg E fuel refresh :
  keeps (listed cfg) (get_onedrive_camera_roll_files cfg E fuel refresh).
Proof.
  intros w.
  destruct (get_onedrive_frame cfg E fuel refresh w) as ((L & HL & HP & _) & Hfs & _).
  split; [|done]. exists L. split; [done|].
  eapply Forall_impl; [done|]. intros r Hr. by left.
Qed.

Lemma immich_listed cfg E fuel : keeps (listed cfg) (get_immich_assets cfg E fuel).
Proof.
  intros w. destruct (immich_pages_grows cfg E fuel 1 [] w) as (Hfs & L & HL & HP & _).
  unfold get_immich_assets. split; [|by intros p _; rewrite Hfs]. exists L. split; [done|].
  eapply Forall_impl; [done|]. intros r Hr. by right.
Qed.

(** An answer other than [y]: the prompt, one line, and nothing else. *)
Lemma confirm_declined cfg E ses missing w :
  py_lower (py_strip (stdin_line ses)) ≠ "y" →
  ∃ w', confirm_and_download cfg E ses missing w = (Ok (), w')
    ∧ requests w' = requests w ∧ fs w' = fs w.
Proof.
  intros Hans. unfold confirm_and_download, input. psimpl. cbn zeta.
  destruct (String.eqb_spec (py_lower (py_strip (stdin_line ses))) "y"); [done|].
  cbn [negb]. by eexists.
Qed.



(** X22. With a placeholder left in one of the two credentials, [main]
    prints one line and exits with code 1: no request is made and the disk
    is untouched. *)
Theorem main_placeholder_credentials_exit cfg E ses fuel w :
  str_contains "YOUR_GRAPH_ACCESS_TOKEN_HERE" (ONEDRIVE_ACCESS_TOKEN ses) = true
  ∨ str_contains "YOUR_IMMICH_API_KEY_HERE" (IMMICH_API_KEY ses) = true →
  ∃ line, main cfg E ses fuel w = (Raise (SystemExit 1), add_stdout line w).
Proof.
  intros H. unfold main.
  destruct (str_contains _ (ONEDRIVE_ACCESS_TOKEN ses)); [by eexists|].
  destruct H as [H|H]; [done|]. rewrite H. by eexists.
Qed.

(** *** A run of [main] through the comparison *)

Lemma total_size_records files : ∀ acc,
  Forall is_record files → ∃ t, total_size files acc = Ok t.
Proof.
  induction files as [|f files IH]; intros acc Hrec; [by eexists|].
  apply Forall_cons in Hrec as [[m ->] Hrec]. cbn [total_size].
  destruct (declared_size (JObj m)) as [z|e|] eqn:Hz.
  - by apply IH.
  - destruct (declared_size_raises m e Hz) as [-> | ->]; by apply IH.
  - unfold declared_size in Hz. cbn [py_get] in Hz. revert Hz. psimpl.
    destruct (py_truthy _); [|done].
    destruct (default (JInt 0) (m !! "size")) as [|b|z|s|l|o]; cbn [py_int]; try done.
    intros Hs. by apply int_of_str_fuel in Hs.
Qed.

Lemma print_names_named files w :
  Forall is_named files →
  print_names files w
  = (Ok (), {| fs := fs w;
               stdout := stdout w ++ ((λ f, " - " +:+ record_name f) <$> files);
               requests := requests w |}).
Proof.
  intros H. revert w. induction H as [|f files (m & s & -> & Hs) _ IH]; intros w.
  - cbn. rewrite List.app_nil_r. by destruct w.
  - cbn [print_names]. psimpl. cbn [py_getitem]. rewrite Hs. rewrite IH.
    cbn [add_stdout fs stdout requests fmap list_fmap]. unfold record_name.
    cbn [field]. rewrite Hs. cbn [py_str]. by rewrite <- app_assoc.
Qed.

Lemma main_compare_run cfg E ses fuel w files assets w' :
  listings cfg E ses fuel w files assets w' →
  Forall is_named files → Forall is_asset assets →
  main cfg E ses fuel w
  = match filter (is_missing assets) files with
    | [] => print "✅ No missing files! All Camera Roll filenames appear in Immich." w'
    | missing =>
        (print ("⚠ Found " +:+ pretty (length missing)
                +:+ " file(s) in OneDrive that are not in Immich:");;
         print_names missing;;
         confirm_and_download cfg E ses missing) w'
    end.
Proof.
  intros ([Ht Hk] & w1 & w2 & H1 & H2 & ->) Hnamed Hassets.
  destruct (diff_run files assets Hnamed Hassets) as (names & Hn & Hm).
  unfold main. rewrite Ht, Hk. cbn zeta.
  unfold mbind at 1, prog_bind at 1, print at 1. fold getting_line.
  unfold mbind at 1, prog_bind at 1. rewrite H1.
  unfold mbind at 1, prog_bind at 1, print at 1. fold (found_files_line files).
  unfold mbind at 1, prog_bind at 1, print at 1. fold (batches_line cfg).
  unfold mbind at 1, prog_bind at 1. rewrite H2.
  unfold mbind at 1, prog_bind at 1, print at 1. fold (found_assets_line assets).
  unfold mbind at 1, prog_bind at 1, lift at 1. rewrite Hn.
  unfold mbind at 1, prog_bind at 1, print at 1. fold comparing_line.
  unfold mbind at 1, prog_bind at 1, lift at 1. rewrite Hm.
  by destruct (filter (is_missing assets) files).
Qed.

(** X23. When every source record has a non-empty name that is the resolved
    name of some asset, [main] prints that nothing is missing and returns,
    with no prompt and no download. *)
Theorem main_nothing_missing cfg E ses fuel w files assets w' :
  listings cfg E ses fuel w files assets w' →
  Forall is_named files → Forall is_asset assets →
  Forall (λ f, record_name f ≠ "" ∧ record_name f ∈ resolved_name <$> assets) files →
  main cfg E ses fuel w
  = (Ok (),
     add_stdout "✅ No missing files! All Camera Roll filenames appear in Immich." w').
Proof.
  intros Hl Hnamed Hassets Hall.
  rewrite (main_compare_run cfg E ses fuel w files assets w') by done.
  assert (filter (is_missing assets) files = []) as ->; [|done].
  clear Hl Hnamed. induction Hall as [|f files [H1 H2] _ IH]; [done|].
  by rewrite filter_cons, decide_False by (by intros [?|?]).
Qed.


Lemma main_placeholder_credentials_exit_witness :
  let ses := {| ONEDRIVE_ACCESS_TOKEN := "YOUR_GRAPH_ACCESS_TOKEN_HERE";
                IMMICH_API_KEY := "k3y"; argv := []; cwd := "/"; stdin_line := "" |} in
  (str_contains "YOUR_GRAPH_ACCESS_TOKEN_HERE" (ONEDRIVE_ACCESS_TOKEN ses) = true
   ∨ str_contains "YOUR_IMMICH_API_KEY_HERE" (IMMICH_API_KEY ses) = true)
  ∧ ∃ line,
      main default_config (sample_env WriteOk) ses 3 (disk ∅)
      = (Raise (SystemExit 1), add_stdout line (disk ∅)).
Proof.
  split; [left; reflexivity|].
  apply (main_placeholder_credentials_exit default_config (sample_env WriteOk)
           {| ONEDRIVE_ACCESS_TOKEN := "YOUR_GRAPH_ACCESS_TOKEN_HERE";
              IMMICH_API_KEY := "k3y"; argv := []; cwd := "/"; stdin_line := "" |}
           3 (disk ∅)).
  left; reflexivity.
Defined.

Lemma sample_listings line :
  listings default_config (env_of serving_remote WriteOk) (sample_session line) 3
    (disk ∅) [photo "a.jpg" 10; photo "b.jpg" 0] [asset "a.jpg"; asset "x.jpg"]
    (listed_world (env_of serving_remote WriteOk) true (disk ∅)
       [photo "a.jpg" 10; photo "b.jpg" 0] [asset "a.jpg"; asset "x.jpg"]).
Proof.
  split; [split; reflexivity|]. eexists _, _.
  split; [vm_compute; reflexivity|]. split; [vm_compute; reflexivity|].
  vm_compute; reflexivity.
Defined.

Lemma cached_listings :
  listings default_config (sample_env WriteOk) plain_session 3
    cached_disk [photo "a.jpg" 10] [asset "a.jpg"; asset "x.jpg"]
    (listed_world (sample_env WriteOk) false cached_disk
       [photo "a.jpg" 10] [asset "a.jpg"; asset "x.jpg"]).
Proof.
  split; [split; reflexivity|]. eexists _, _.
  split; [vm_compute; reflexivity|]. split; [vm_compute; reflexivity|].
  vm_compute; reflexivity.
Defined.

Lemma sample_files_named : Forall is_named [photo "a.jpg" 10; photo "b.jpg" 0].
Proof. repeat constructor; eexists _, _; split; reflexivity. Defined.

Lemma sample_assets_typed : Forall is_asset [asset "a.jpg"; asset "x.jpg"].
Proof.
  repeat constructor; eexists; (split; [reflexivity|]);
    repeat split; try (by left); right; by eexists.
Defined.

Lemma cached_files_listed :
  Forall (λ f, record_name f ≠ ""
               ∧ record_name f ∈ resolved_name <$> [asset "a.jpg"; asset "x.jpg"])
    [photo "a.jpg" 10].
Proof.
  constructor; [|constructor]. split; [discriminate|].
  change (resolved_name <$> [asset "a.jpg"; asset "x.jpg"]) with ["a.jpg"; "x.jpg"].
  change (record_name (photo "a.jpg" 10)) with "a.jpg". apply list_elem_of_here.
Defined.

Lemma cached_files_named : Forall is_named [photo "a.jpg" 10].
Proof. repeat constructor; eexists _, _; split; reflexivity. Defined.

Lemma main_nothing_missing_witness :
  listings default_config (sample_env WriteOk) plain_session 3
    cached_disk [photo "a.jpg" 10] [asset "a.jpg"; asset "x.jpg"]
    (listed_world (sample_env WriteOk) false cached_disk
       [photo "a.jpg" 10] [asset "a.jpg"; asset "x.jpg"])
  ∧ Forall is_named [photo "a.jpg" 10]
  ∧ Forall is_asset [asset "a.jpg"; asset "x.jpg"]
  ∧ Forall (λ f, record_name f ≠ ""
                 ∧ record_name f ∈ resolved_name <$> [asset "a.jpg"; asset "x.jpg"])
      [photo "a.jpg" 10]
  ∧ main default_config (sample_env WriteOk) plain_session 3 cached_disk
    = (Ok (),
       add_stdout "✅ No missing files! All Camera Roll filenames appear in Immich."
         (listed_world (sample_env WriteOk) false cached_disk
            [photo "a.jpg" 10] [asset "a.jpg"; asset "x.jpg"])).
Proof.
  split; [exact cached_listings|].
  split; [exact cached_files_named|].
  split; [exact sample_assets_typed|]. split; [exact cached_files_listed|].
  apply (main_nothing_missing default_config (sample_env WriteOk) plain_session 3
           cached_disk [photo "a.jpg" 10] [asset "a.jpg"; asset "x.jpg"]
           (listed_world (sample_env WriteOk) false cached_disk
              [photo "a.jpg" 10] [asset "a.jpg"; asset "x.jpg"])).
  - exact cached_listings.
  - exact cached_files_named.
  - exact sample_assets_typed.
  - exact cached_files_listed.
Defined.

